(** * dellut: the spectrum-to-display pipeline of [scripts/app.js]

    A shallow embedding of the audio visualiser of the stereo display app
    (the revision with smoothing and peak hold): the frequency-band
    mapper and demo synthesis of [getEQLevels], the peak tracker and the
    segment renderer of [updateEQBars], and the audio source handlers
    ([initAudioContext], [toggleMicrophone], [stopMicrophone],
    [handleFileSelect], [stopAudioSource]).

    Numbers.  A JavaScript number is modelled as an exact rational ([Q]);
    rounding of doubles, [NaN] and the infinities are outside the model.
    [Math.floor] and [Math.ceil] are [Qfloor] and [Qceiling], [Math.min]
    and [Math.max] are [Qmin] and [Qmax].  Integer-valued quantities
    (bin indices, lit counts, byte magnitudes) are in [Z].

    Host.  [Math.sin] and [Math.random] are supplied by the host: they
    are the fields of a [Host] record, and the number of [Math.random]
    calls made so far is threaded through the state.  So is
    [String.prototype.toUpperCase], which follows the Unicode case
    mapping ([upperCase] of a [FileHost]).

    Handlers.  [toggleMicrophone] is an [async] function.  It is given
    as one step, for sequences of events in which every handler runs to
    its end before the next, and in two parts around
    [await getUserMedia] ([toggleMicrophoneBegin],
    [toggleMicrophoneResume]), between which other handlers can run. *)

From Stdlib Require Import QArith Qround Qminmax Qabs Lqa ZArith Lia String.
From Stdlib Require Import Ascii DecimalString.
From stdpp Require Import base list.

Local Open Scope Q_scope.

(** ** JavaScript arrays

    Arrays are lists.  A read outside the array is [undefined] in
    JavaScript; every array of the pipeline is created with the length its
    loops run over ([buildEQBars], [initAudioContext]), so the default of
    [get] only stands for reads that the well-formedness lemmas exclude. *)

Definition get (a : list Q) (i : nat) : Q := default 0 (a !! i).

Definition set (a : list Q) (i : nat) (v : Q) : list Q := <[i := v]> a.

(** [for (let i = 0; i < n; i++) body(i)] over a state [S]. *)
Definition for_range {S : Type} (n : nat) (body : nat -> S -> S) (s : S) : S :=
  foldl (fun acc i => body i acc) s (seq 0 n).

Definition Qlt_bool (x y : Q) : bool := negb (Qle_bool y x).

(** ** Configuration *)

(** [CONFIG], together with the two tables that [getEQLevels] declares
    locally ([frequencyBands], [bandGains]). *)
Record Config : Type := {
  eqBarCount : nat;
  eqSegmentCount : nat;
  eqUpdateInterval : Q;
  fftSize : nat;
  smoothing : Q;
  peakDecay : Q;
  peakHoldTime : Q;
  frequencyBands : list Q;
  bandGains : list Q
}.

Definition CONFIG : Config := {|
  eqBarCount := 16;
  eqSegmentCount := 12;
  eqUpdateInterval := 50;
  fftSize := 512;
  smoothing := 0.6;
  peakDecay := 0.02;
  peakHoldTime := 500;
  frequencyBands :=
    [20; 40; 60; 90; 130; 180; 250; 350;
     500; 700; 1000; 1400; 2000; 3500; 6000; 12000; 20000];
  bandGains :=
    [1.0; 1.0; 1.0; 1.1; 1.2; 1.3; 1.4; 1.5;
     1.6; 1.8; 2.0; 2.2; 2.5; 2.8; 3.2; 3.6]
|}.

(** ** Spectrum mapper (live branch of [getEQLevels]) *)

(** [state.frequencyData[bin]] on a [Uint8Array]: [None] is [undefined]. *)
Definition readByte (data : list Z) (bin : Z) : option Z :=
  if (bin <? 0)%Z then None else data !! Z.to_nat bin.

(** The values [bin] takes in [for (bin = lowBin; bin <= highBin; bin++)]. *)
Definition binRange (lowBin highBin : Z) : list Z :=
  seqZ lowBin (highBin - lowBin + 1).

(** The loop itself: [sum += state.frequencyData[bin]; count++]. *)
Definition sumBins (data : list Z) (lowBin highBin : Z) : Z * Z :=
  foldl (fun acc bin => ((acc.1 + default 0 (readByte data bin))%Z, (acc.2 + 1)%Z))
        (0%Z, 0%Z) (binRange lowBin highBin).

Definition lowBinOf (lowFreq nyquist : Q) (binCount : Z) : Z :=
  Qfloor (lowFreq / nyquist * inject_Z binCount).

Definition highBinOf (highFreq nyquist : Q) (binCount : Z) : Z :=
  Z.min (Qceiling (highFreq / nyquist * inject_Z binCount)) (binCount - 1).

(** [count > 0 ? (sum / count) / 255 : 0]. *)
Definition normalise (sc : Z * Z) : Q :=
  if (0 <? sc.2)%Z then (inject_Z sc.1 / inject_Z sc.2) / 255 else 0.

(** The level of band [i] before smoothing:
    [Math.min(1, level * bandGains[i])]. *)
Definition bandLevel (cfg : Config) (sampleRate : Q) (data : list Z) (i : nat) : Q :=
  let binCount := Z.of_nat (length data) in
  let nyquist := sampleRate / 2 in
  let lowFreq := get (frequencyBands cfg) i in
  let highFreq := get (frequencyBands cfg) (i + 1) in
  let lowBin := lowBinOf lowFreq nyquist binCount in
  let highBin := highBinOf highFreq nyquist binCount in
  let level := normalise (sumBins data lowBin highBin) in
  Qmin 1 (level * get (bandGains cfg) i).

(** ** Smoother: [prev * CONFIG.smoothing + level * (1 - CONFIG.smoothing)] *)

Definition smooth (alpha prev level : Q) : Q :=
  prev * alpha + level * (1 - alpha).

(** The smoother run over a sequence of raw levels, keeping every
    intermediate value. *)
Fixpoint smoothRun (alpha prev : Q) (raws : list Q) : list Q :=
  match raws with
  | [] => []
  | r :: rest => let s := smooth alpha prev r in s :: smoothRun alpha s rest
  end.

(** ** Host and state *)

(** [Math.sin], and [Math.random] as the sequence of values its
    successive calls return. *)
Record Host : Type := {
  sin : Q -> Q;
  random : nat -> Q
}.

Inductive AudioMode : Type := Demo | Mic | File.

Inductive Color : Type := Red | Amber | Blue.

(** One entry of [segments[i][j]]; the DOM element [el] is identified by
    its position [(i, j)]. *)
Record Segment : Type := {
  lit : bool;
  color : option Color;
  peak : bool;
  isPeakHold : bool
}.

(** The CSS classes of a segment and the [classList] calls made on it. *)
Inductive SegClass : Type :=
| ClsLit | ClsColor (c : Color) | ClsPeak | ClsPeakHold.

Inductive DomOp : Type :=
| ClassToggle (bar seg : nat) (cls : SegClass) (force : bool)
| ClassRemove (bar seg : nat) (cls : SegClass)
| ClassAdd (bar seg : nat) (cls : SegClass).

(** The audio context as the host created it. *)
Record AudioContext : Type := {
  sampleRate : Q;
  suspended : bool
}.

(** Calls on host audio resources, identified by handles, in the order
    they were made. *)
Inductive HostOp : Type :=
| TrackStop (stream : nat)
| ElementPause (el : nat)
| ElementClearSrc (el : nat)
| SourceDisconnect (source : nat)
| SourceConnect (source : nat)
| AnalyserToDestination.

(** The [state] object (audio interface part), the module variable
    [segments], and three counters of the host: the [Math.random] calls
    made, the animation frames requested, and the audio calls made. *)
Record State : Type := {
  output : string;
  logs : list string;
  eqAnimationId : option nat;
  lastEqUpdate : Q;
  audioContext : option AudioContext;
  analyser : option nat;
  frequencyData : option (list Z);
  audioSource : option nat;
  audioElement : option nat;
  micStream : option nat;
  audioMode : AudioMode;
  isPlaying : bool;
  smoothedLevels : list Q;
  peakLevels : list Q;
  peakHoldTimes : list Q;
  segments : list (list Segment);
  randomCalls : nat;
  frameRequests : nat;
  hostOps : list HostOp
}.

Definition with_output (v : string) (st : State) : State :=
  {| output := v; logs := logs st; eqAnimationId := eqAnimationId st;
     lastEqUpdate := lastEqUpdate st; audioContext := audioContext st;
     analyser := analyser st; frequencyData := frequencyData st; audioSource
     := audioSource st; audioElement := audioElement st; micStream :=
     micStream st; audioMode := audioMode st; isPlaying := isPlaying st;
     smoothedLevels := smoothedLevels st; peakLevels := peakLevels st;
     peakHoldTimes := peakHoldTimes st; segments := segments st; randomCalls
     := randomCalls st; frameRequests := frameRequests st; hostOps :=
     hostOps st |}.

Definition with_logs (v : list string) (st : State) : State :=
  {| output := output st; logs := v; eqAnimationId := eqAnimationId st;
     lastEqUpdate := lastEqUpdate st; audioContext := audioContext st;
     analyser := analyser st; frequencyData := frequencyData st; audioSource
     := audioSource st; audioElement := audioElement st; micStream :=
     micStream st; audioMode := audioMode st; isPlaying := isPlaying st;
     smoothedLevels := smoothedLevels st; peakLevels := peakLevels st;
     peakHoldTimes := peakHoldTimes st; segments := segments st; randomCalls
     := randomCalls st; frameRequests := frameRequests st; hostOps :=
     hostOps st |}.

Definition with_eqAnimationId (v : option nat) (st : State) : State :=
  {| output := output st; logs := logs st; eqAnimationId := v; lastEqUpdate
     := lastEqUpdate st; audioContext := audioContext st; analyser :=
     analyser st; frequencyData := frequencyData st; audioSource :=
     audioSource st; audioElement := audioElement st; micStream := micStream
     st; audioMode := audioMode st; isPlaying := isPlaying st;
     smoothedLevels := smoothedLevels st; peakLevels := peakLevels st;
     peakHoldTimes := peakHoldTimes st; segments := segments st; randomCalls
     := randomCalls st; frameRequests := frameRequests st; hostOps :=
     hostOps st |}.

Definition with_lastEqUpdate (v : Q) (st : State) : State :=
  {| output := output st; logs := logs st; eqAnimationId := eqAnimationId
     st; lastEqUpdate := v; audioContext := audioContext st; analyser :=
     analyser st; frequencyData := frequencyData st; audioSource :=
     audioSource st; audioElement := audioElement st; micStream := micStream
     st; audioMode := audioMode st; isPlaying := isPlaying st;
     smoothedLevels := smoothedLevels st; peakLevels := peakLevels st;
     peakHoldTimes := peakHoldTimes st; segments := segments st; randomCalls
     := randomCalls st; frameRequests := frameRequests st; hostOps :=
     hostOps st |}.

Definition with_audioContext (v : option AudioContext) (st : State) : State :=
  {| output := output st; logs := logs st; eqAnimationId := eqAnimationId
     st; lastEqUpdate := lastEqUpdate st; audioContext := v; analyser :=
     analyser st; frequencyData := frequencyData st; audioSource :=
     audioSource st; audioElement := audioElement st; micStream := micStream
     st; audioMode := audioMode st; isPlaying := isPlaying st;
     smoothedLevels := smoothedLevels st; peakLevels := peakLevels st;
     peakHoldTimes := peakHoldTimes st; segments := segments st; randomCalls
     := randomCalls st; frameRequests := frameRequests st; hostOps :=
     hostOps st |}.

Definition with_analyser (v : option nat) (st : State) : State :=
  {| output := output st; logs := logs st; eqAnimationId := eqAnimationId
     st; lastEqUpdate := lastEqUpdate st; audioContext := audioContext st;
     analyser := v; frequencyData := frequencyData st; audioSource :=
     audioSource st; audioElement := audioElement st; micStream := micStream
     st; audioMode := audioMode st; isPlaying := isPlaying st;
     smoothedLevels := smoothedLevels st; peakLevels := peakLevels st;
     peakHoldTimes := peakHoldTimes st; segments := segments st; randomCalls
     := randomCalls st; frameRequests := frameRequests st; hostOps :=
     hostOps st |}.

Definition with_frequencyData (v : option (list Z)) (st : State) : State :=
  {| output := output st; logs := logs st; eqAnimationId := eqAnimationId
     st; lastEqUpdate := lastEqUpdate st; audioContext := audioContext st;
     analyser := analyser st; frequencyData := v; audioSource := audioSource
     st; audioElement := audioElement st; micStream := micStream st;
     audioMode := audioMode st; isPlaying := isPlaying st; smoothedLevels :=
     smoothedLevels st; peakLevels := peakLevels st; peakHoldTimes :=
     peakHoldTimes st; segments := segments st; randomCalls := randomCalls
     st; frameRequests := frameRequests st; hostOps := hostOps st |}.

Definition with_audioSource (v : option nat) (st : State) : State :=
  {| output := output st; logs := logs st; eqAnimationId := eqAnimationId
     st; lastEqUpdate := lastEqUpdate st; audioContext := audioContext st;
     analyser := analyser st; frequencyData := frequencyData st; audioSource
     := v; audioElement := audioElement st; micStream := micStream st;
     audioMode := audioMode st; isPlaying := isPlaying st; smoothedLevels :=
     smoothedLevels st; peakLevels := peakLevels st; peakHoldTimes :=
     peakHoldTimes st; segments := segments st; randomCalls := randomCalls
     st; frameRequests := frameRequests st; hostOps := hostOps st |}.

Definition with_audioElement (v : option nat) (st : State) : State :=
  {| output := output st; logs := logs st; eqAnimationId := eqAnimationId
     st; lastEqUpdate := lastEqUpdate st; audioContext := audioContext st;
     analyser := analyser st; frequencyData := frequencyData st; audioSource
     := audioSource st; audioElement := v; micStream := micStream st;
     audioMode := audioMode st; isPlaying := isPlaying st; smoothedLevels :=
     smoothedLevels st; peakLevels := peakLevels st; peakHoldTimes :=
     peakHoldTimes st; segments := segments st; randomCalls := randomCalls
     st; frameRequests := frameRequests st; hostOps := hostOps st |}.

Definition with_micStream (v : option nat) (st : State) : State :=
  {| output := output st; logs := logs st; eqAnimationId := eqAnimationId
     st; lastEqUpdate := lastEqUpdate st; audioContext := audioContext st;
     analyser := analyser st; frequencyData := frequencyData st; audioSource
     := audioSource st; audioElement := audioElement st; micStream := v;
     audioMode := audioMode st; isPlaying := isPlaying st; smoothedLevels :=
     smoothedLevels st; peakLevels := peakLevels st; peakHoldTimes :=
     peakHoldTimes st; segments := segments st; randomCalls := randomCalls
     st; frameRequests := frameRequests st; hostOps := hostOps st |}.

Definition with_audioMode (v : AudioMode) (st : State) : State :=
  {| output := output st; logs := logs st; eqAnimationId := eqAnimationId
     st; lastEqUpdate := lastEqUpdate st; audioContext := audioContext st;
     analyser := analyser st; frequencyData := frequencyData st; audioSource
     := audioSource st; audioElement := audioElement st; micStream :=
     micStream st; audioMode := v; isPlaying := isPlaying st; smoothedLevels
     := smoothedLevels st; peakLevels := peakLevels st; peakHoldTimes :=
     peakHoldTimes st; segments := segments st; randomCalls := randomCalls
     st; frameRequests := frameRequests st; hostOps := hostOps st |}.

Definition with_isPlaying (v : bool) (st : State) : State :=
  {| output := output st; logs := logs st; eqAnimationId := eqAnimationId
     st; lastEqUpdate := lastEqUpdate st; audioContext := audioContext st;
     analyser := analyser st; frequencyData := frequencyData st; audioSource
     := audioSource st; audioElement := audioElement st; micStream :=
     micStream st; audioMode := audioMode st; isPlaying := v; smoothedLevels
     := smoothedLevels st; peakLevels := peakLevels st; peakHoldTimes :=
     peakHoldTimes st; segments := segments st; randomCalls := randomCalls
     st; frameRequests := frameRequests st; hostOps := hostOps st |}.

Definition with_smoothedLevels (v : list Q) (st : State) : State :=
  {| output := output st; logs := logs st; eqAnimationId := eqAnimationId
     st; lastEqUpdate := lastEqUpdate st; audioContext := audioContext st;
     analyser := analyser st; frequencyData := frequencyData st; audioSource
     := audioSource st; audioElement := audioElement st; micStream :=
     micStream st; audioMode := audioMode st; isPlaying := isPlaying st;
     smoothedLevels := v; peakLevels := peakLevels st; peakHoldTimes :=
     peakHoldTimes st; segments := segments st; randomCalls := randomCalls
     st; frameRequests := frameRequests st; hostOps := hostOps st |}.

Definition with_peakLevels (v : list Q) (st : State) : State :=
  {| output := output st; logs := logs st; eqAnimationId := eqAnimationId
     st; lastEqUpdate := lastEqUpdate st; audioContext := audioContext st;
     analyser := analyser st; frequencyData := frequencyData st; audioSource
     := audioSource st; audioElement := audioElement st; micStream :=
     micStream st; audioMode := audioMode st; isPlaying := isPlaying st;
     smoothedLevels := smoothedLevels st; peakLevels := v; peakHoldTimes :=
     peakHoldTimes st; segments := segments st; randomCalls := randomCalls
     st; frameRequests := frameRequests st; hostOps := hostOps st |}.

Definition with_peakHoldTimes (v : list Q) (st : State) : State :=
  {| output := output st; logs := logs st; eqAnimationId := eqAnimationId
     st; lastEqUpdate := lastEqUpdate st; audioContext := audioContext st;
     analyser := analyser st; frequencyData := frequencyData st; audioSource
     := audioSource st; audioElement := audioElement st; micStream :=
     micStream st; audioMode := audioMode st; isPlaying := isPlaying st;
     smoothedLevels := smoothedLevels st; peakLevels := peakLevels st;
     peakHoldTimes := v; segments := segments st; randomCalls := randomCalls
     st; frameRequests := frameRequests st; hostOps := hostOps st |}.

Definition with_segments (v : list (list Segment)) (st : State) : State :=
  {| output := output st; logs := logs st; eqAnimationId := eqAnimationId
     st; lastEqUpdate := lastEqUpdate st; audioContext := audioContext st;
     analyser := analyser st; frequencyData := frequencyData st; audioSource
     := audioSource st; audioElement := audioElement st; micStream :=
     micStream st; audioMode := audioMode st; isPlaying := isPlaying st;
     smoothedLevels := smoothedLevels st; peakLevels := peakLevels st;
     peakHoldTimes := peakHoldTimes st; segments := v; randomCalls :=
     randomCalls st; frameRequests := frameRequests st; hostOps := hostOps
     st |}.

Definition with_randomCalls (v : nat) (st : State) : State :=
  {| output := output st; logs := logs st; eqAnimationId := eqAnimationId
     st; lastEqUpdate := lastEqUpdate st; audioContext := audioContext st;
     analyser := analyser st; frequencyData := frequencyData st; audioSource
     := audioSource st; audioElement := audioElement st; micStream :=
     micStream st; audioMode := audioMode st; isPlaying := isPlaying st;
     smoothedLevels := smoothedLevels st; peakLevels := peakLevels st;
     peakHoldTimes := peakHoldTimes st; segments := segments st; randomCalls
     := v; frameRequests := frameRequests st; hostOps := hostOps st |}.

Definition with_frameRequests (v : nat) (st : State) : State :=
  {| output := output st; logs := logs st; eqAnimationId := eqAnimationId
     st; lastEqUpdate := lastEqUpdate st; audioContext := audioContext st;
     analyser := analyser st; frequencyData := frequencyData st; audioSource
     := audioSource st; audioElement := audioElement st; micStream :=
     micStream st; audioMode := audioMode st; isPlaying := isPlaying st;
     smoothedLevels := smoothedLevels st; peakLevels := peakLevels st;
     peakHoldTimes := peakHoldTimes st; segments := segments st; randomCalls
     := randomCalls st; frameRequests := v; hostOps := hostOps st |}.

Definition with_hostOps (v : list HostOp) (st : State) : State :=
  {| output := output st; logs := logs st; eqAnimationId := eqAnimationId
     st; lastEqUpdate := lastEqUpdate st; audioContext := audioContext st;
     analyser := analyser st; frequencyData := frequencyData st; audioSource
     := audioSource st; audioElement := audioElement st; micStream :=
     micStream st; audioMode := audioMode st; isPlaying := isPlaying st;
     smoothedLevels := smoothedLevels st; peakLevels := peakLevels st;
     peakHoldTimes := peakHoldTimes st; segments := segments st; randomCalls
     := randomCalls st; frameRequests := frameRequests st; hostOps := v |}.

Global Instance AudioMode_eq_dec : EqDecision AudioMode.
Proof. solve_decision. Defined.

Global Instance Color_eq_dec : EqDecision Color.
Proof. solve_decision. Defined.

(** [setOutput] and [addLog] (their DOM side is presentation only). *)
Definition setOutput (text : string) (st : State) : State :=
  with_output text st.

Definition addLog (message : string) (st : State) : State :=
  with_logs (logs st ++ [message]) st.

Definition hostCall (op : HostOp) (st : State) : State :=
  with_hostOps (hostOps st ++ [op]) st.

(** [state.eqAnimationId = requestAnimationFrame(updateEQBars)]: the
    handle is the host's request counter. *)
Definition requestAnimationFrame (st : State) : State :=
  let id := S (frameRequests st) in
  with_eqAnimationId (Some id) (with_frameRequests id st).

(** The state before [init]. *)
Definition state0 : State := {|
  output := "READY...";
  logs := ["SYSTEM INITIALIZED"; "AWAITING INPUT..."]%string;
  eqAnimationId := None;
  lastEqUpdate := 0;
  audioContext := None;
  analyser := None;
  frequencyData := None;
  audioSource := None;
  audioElement := None;
  micStream := None;
  audioMode := Demo;
  isPlaying := false;
  smoothedLevels := [];
  peakLevels := [];
  peakHoldTimes := [];
  segments := [];
  randomCalls := 0;
  frameRequests := 0;
  hostOps := []
|}.

Definition newSegment : Segment :=
  {| lit := false; color := None; peak := false; isPeakHold := false |}.

Definition buildEQBars (cfg : Config) (st : State) : State :=
  let st := with_segments [] st in
  let st := with_smoothedLevels (replicate (eqBarCount cfg) 0) st in
  let st := with_peakLevels (replicate (eqBarCount cfg) 0) st in
  let st := with_peakHoldTimes (replicate (eqBarCount cfg) 0) st in
  for_range (eqBarCount cfg)
    (fun _ st =>
       let barSegments :=
         for_range (eqSegmentCount cfg) (fun _ bs => bs ++ [newSegment]) [] in
       with_segments (segments st ++ [barSegments]) st)
    st.

(** [init] up to the first animation frame request. *)
Definition init (cfg : Config) : State :=
  requestAnimationFrame (buildEQBars cfg state0).

(** ** Audio sources *)

(** [initAudioContext]: [ctor] is what [new AudioContext()] does, an
    exception message or the context created. *)
Definition initAudioContext (cfg : Config) (ctor : string + AudioContext)
    (st : State) : string + State :=
  match audioContext st with
  | Some _ => inr st
  | None =>
    match ctor with
    | inl err => inl err
    | inr ctx =>
      let st := with_audioContext (Some ctx) st in
      let st := with_analyser (Some (fftSize cfg)) st in
      let st := with_frequencyData (Some (replicate (fftSize cfg / 2) 0%Z)) st in
      let st := with_smoothedLevels (replicate (eqBarCount cfg) 0) st in
      let st := with_peakLevels (replicate (eqBarCount cfg) 0) st in
      let st := with_peakHoldTimes (replicate (eqBarCount cfg) 0) st in
      inr (addLog "AUDIO ENGINE INITIALIZED" st)
    end
  end.

Definition stopMicStream (st : State) : State :=
  match micStream st with
  | Some stream => with_micStream None (hostCall (TrackStop stream) st)
  | None => st
  end.

Definition disconnectSource (st : State) : State :=
  match audioSource st with
  | Some source => with_audioSource None (hostCall (SourceDisconnect source) st)
  | None => st
  end.

Definition stopAudioElement (st : State) : State :=
  match audioElement st with
  | Some el =>
    with_audioElement None
      (hostCall (ElementClearSrc el) (hostCall (ElementPause el) st))
  | None => st
  end.

Definition stopMicrophone (st : State) : State :=
  let st := stopMicStream st in
  let st := disconnectSource st in
  let st := with_audioMode Demo st in
  addLog "MICROPHONE DISCONNECTED" (setOutput "READY..." st).

Definition stopAudioSource (st : State) : State :=
  let st := stopMicStream st in
  let st := stopAudioElement st in
  let st := disconnectSource st in
  with_isPlaying false (with_audioMode Demo st).

(** What the host answers to the calls of [toggleMicrophone]: each call
    either throws (rejects) with a message or yields its result.  The
    [connect] of the freshly created source to the analyser of the same
    context is taken to succeed. *)
Record MicHost : Type := {
  newAudioContext : string + AudioContext;
  resume : option string;
  getUserMedia : string + nat;
  createMediaStreamSource : string + nat
}.

(** The [catch] block of [toggleMicrophone]. *)
Definition micError (err : string) (st : State) : State :=
  setOutput "MIC ACCESS DENIED" (addLog ("MIC ERROR: " ++ err) st).

Definition resumeContext (st : State) : State :=
  match audioContext st with
  | Some ctx =>
    with_audioContext (Some {| sampleRate := sampleRate ctx; suspended := false |}) st
  | None => st
  end.

Definition isSuspended (st : State) : bool :=
  match audioContext st with
  | Some ctx => suspended ctx
  | None => false
  end.

(** The [try] block of [toggleMicrophone], after [stopAudioSource]:
    [inl (err, st)] is an exception raised in state [st]. *)
Definition activateMicrophone (cfg : Config) (h : MicHost) (st : State)
    : (string * State) + State :=
  match initAudioContext cfg (newAudioContext h) st with
  | inl err => inl (err, st)
  | inr st =>
    match (if isSuspended st then resume h else None) with
    | Some err => inl (err, st)
    | None =>
      let st := if isSuspended st then resumeContext st else st in
      match getUserMedia h with
      | inl err => inl (err, st)
      | inr stream =>
        let st := with_micStream (Some stream) st in
        match createMediaStreamSource h with
        | inl err => inl (err, st)
        | inr source =>
          let st := with_audioSource (Some source) st in
          let st := hostCall (SourceConnect source) st in
          let st := with_audioMode Mic st in
          inr (addLog "MICROPHONE CONNECTED" (setOutput "MICROPHONE ACTIVE" st))
        end
      end
    end
  end.

Definition toggleMicrophone (cfg : Config) (h : MicHost) (st : State) : State :=
  if bool_decide (audioMode st = Mic) then stopMicrophone st
  else
    match activateMicrophone cfg h (stopAudioSource st) with
    | inl (err, st) => micError err st
    | inr st => st
    end.

(** What the host answers to the calls of [handleFileSelect].
    [upperCase] is [String.prototype.toUpperCase]: it follows the Unicode
    case mapping and can lengthen a string. *)
Record FileHost : Type := {
  fileAudioContext : string + AudioContext;
  newAudio : nat;
  createMediaElementSource : string + nat;
  upperCase : string -> string
}.

(** What [toUpperCase] returns on a string of ASCII characters: the
    letters a to z are mapped to A to Z, nothing else changes. *)
Definition toUpperAscii (c : Ascii.ascii) : Ascii.ascii :=
  let n := Ascii.nat_of_ascii c in
  if (97 <=? n)%nat && (n <=? 122)%nat then Ascii.ascii_of_nat (n - 32) else c.

Fixpoint asciiUpperCase (s : string) : string :=
  match s with
  | EmptyString => EmptyString
  | String c rest => String (toUpperAscii c) (asciiUpperCase rest)
  end.


Definition displayName (name : string) : string :=
  if (20 <? String.length name)%nat
  then (String.substring 0 17 name ++ "...")%string
  else name.

(** [handleFileSelect]: [file] is [event.target.files[0]] (its name); the
    second component of the result is an exception that leaves the
    handler uncaught. *)
Definition handleFileSelect (cfg : Config) (h : FileHost) (file : option string)
    (st : State) : State * option string :=
  match file with
  | None => (st, None)
  | Some name =>
    let st := stopAudioSource st in
    match initAudioContext cfg (fileAudioContext h) st with
    | inl err => (st, Some err)
    | inr st =>
      let st := stopAudioElement st in
      let st := with_audioElement (Some (newAudio h)) st in
      match createMediaElementSource h with
      | inl err => (st, Some err)
      | inr source =>
        let st := with_audioSource (Some source) st in
        let st := hostCall (SourceConnect source) st in
        let st := hostCall AnalyserToDestination st in
        let st := with_isPlaying false (with_audioMode File st) in
        let st := setOutput (upperCase h (displayName name)) st in
        (addLog ("LOADED: " ++ name) st, None)
      end
    end
  end.

(** The number of input sources held open by the state. *)
Definition activeSources (st : State) : nat :=
  (match micStream st with Some _ => 1 | None => 0 end)
  + (match audioElement st with Some _ => 1 | None => 0 end).

(** ** [getEQLevels] *)

(** [analyser.getByteFrequencyData(array)]: the snapshot is copied into
    the array, whose length does not change. *)
Definition getByteFrequencyData (snapshot array : list Z) : list Z :=
  take (length array) snapshot ++ drop (length snapshot) array.

(** The condition of the live branch:
    [state.audioMode !== 'demo' && state.analyser && state.frequencyData]. *)
Definition liveData (st : State) : option (list Z) :=
  if bool_decide (audioMode st = Demo) then None
  else match analyser st with
       | Some _ => frequencyData st
       | None => None
       end.

(** [state.audioContext.sampleRate]; [initAudioContext] creates the
    context together with the analyser. *)
Definition contextSampleRate (st : State) : Q :=
  match audioContext st with
  | Some ctx => sampleRate ctx
  | None => 0
  end.

Definition ofNat (n : nat) : Q := inject_Z (Z.of_nat n).

(** The arguments of the three sines of the demo pattern for band [i]. *)
Definition demoPhases (timestamp : Q) (i : nat) : Q * Q * Q :=
  (timestamp / 400 + ofNat i * 0.4,
   timestamp / 250 + ofNat i * 0.7,
   timestamp / 600 - ofNat i * 0.3).

(** The unsmoothed demo level of band [i]: three sines and the jitter
    [Math.random() * 0.15]. *)
Definition demoBase (h : Host) (timestamp : Q) (i : nat) (draw : Q) : Q :=
  let '(phase1, phase2, phase3) := demoPhases timestamp i in
  let wave1 := sin h phase1 * 0.3 in
  let wave2 := sin h phase2 * 0.2 in
  let wave3 := sin h phase3 * 0.15 in
  let noise := draw * 0.15 in
  0.35 + wave1 + wave2 + wave3 + noise.

Definition liveBand (cfg : Config) (data : list Z) (i : nat)
    (acc : list Q * State) : list Q * State :=
  let '(levels, st) := acc in
  let level := bandLevel cfg (contextSampleRate st) data i in
  let smoothed := smooth (smoothing cfg) (get (smoothedLevels st) i) level in
  (set levels i smoothed,
   with_smoothedLevels (set (smoothedLevels st) i smoothed) st).

Definition demoBand (h : Host) (cfg : Config) (timestamp : Q) (i : nat)
    (acc : list Q * State) : list Q * State :=
  let '(levels, st) := acc in
  let base := demoBase h timestamp i (random h (randomCalls st)) in
  let st := with_randomCalls (S (randomCalls st)) st in
  let smoothed := smooth (smoothing cfg) (get (smoothedLevels st) i) base in
  (set levels i (Qmax 0.05 (Qmin 1 smoothed)),
   with_smoothedLevels (set (smoothedLevels st) i smoothed) st).

(** [snapshot] is the spectrum the analyser holds at this frame. *)
Definition getEQLevels (h : Host) (cfg : Config) (timestamp : Q)
    (snapshot : list Z) (st : State) : list Q * State :=
  let levels := replicate (eqBarCount cfg) 0 in
  match liveData st with
  | Some array =>
    let data := getByteFrequencyData snapshot array in
    let st := with_frequencyData (Some data) st in
    for_range (eqBarCount cfg) (liveBand cfg data) (levels, st)
  | None =>
    for_range (eqBarCount cfg) (demoBand h cfg timestamp) (levels, st)
  end.

(** ** [updateEQBars] *)

Definition litCountOf (cfg : Config) (level : Q) : Z :=
  Qfloor (level * ofNat (eqSegmentCount cfg)).

(** The peak tracker on one band: the new peak level and hold time. *)
Definition trackPeak (cfg : Config) (timestamp level : Q) (p : Q * Q) : Q * Q :=
  let '(peakLevel, holdTime) := p in
  if Qle_bool peakLevel level then (level, timestamp)
  else if Qlt_bool (peakHoldTime cfg) (timestamp - holdTime)
       then (Qmax level (peakLevel - peakDecay cfg), holdTime)
       else (peakLevel, holdTime).

Definition peakSegmentOf (cfg : Config) (peakLevel : Q) : Z :=
  Z.min (Z.of_nat (eqSegmentCount cfg) - 1)
        (Qfloor (peakLevel * ofNat (eqSegmentCount cfg))).

Definition shouldBeLit (litCount : Z) (j : nat) : bool :=
  (Z.of_nat j <? litCount)%Z.

Definition shouldBePeak (litCount peakSegment : Z) (j : nat) : bool :=
  negb (shouldBeLit litCount j)
  && (Z.of_nat j =? peakSegment)%Z
  && (litCount <=? peakSegment)%Z.

Definition isTopLit (litCount : Z) (j : nat) : bool :=
  shouldBeLit litCount j && (Z.of_nat j =? litCount - 1)%Z.

Definition zoneColor (j : nat) : Color :=
  if (10 <=? j)%nat then Red else if (8 <=? j)%nat then Amber else Blue.

Definition targetColor (litCount peakSegment : Z) (j : nat) : option Color :=
  if shouldBeLit litCount j || shouldBePeak litCount peakSegment j
  then Some (zoneColor j)
  else None.

(** The four values a segment is compared against. *)
Definition segTarget (litCount peakSegment : Z) (j : nat) : Segment :=
  {| lit := shouldBeLit litCount j;
     color := targetColor litCount peakSegment j;
     peak := isTopLit litCount j;
     isPeakHold := shouldBePeak litCount peakSegment j |}.

Definition needsUpdate (seg target : Segment) : bool :=
  negb (bool_decide (lit seg = lit target))
  || negb (bool_decide (color seg = color target))
  || negb (bool_decide (peak seg = peak target))
  || negb (bool_decide (isPeakHold seg = isPeakHold target)).

Definition colorOps (i j : nat) (old new : option Color) : list DomOp :=
  match old with Some c => [ClassRemove i j (ClsColor c)] | None => [] end
  ++ match new with Some c => [ClassAdd i j (ClsColor c)] | None => [] end.

(** The body of [if (needsUpdate)]: the segment after it and the
    [classList] calls it makes. *)
Definition applyTarget (i j : nat) (seg target : Segment) : Segment * list DomOp :=
  let ops1 :=
    if bool_decide (lit seg = lit target) then []
    else [ClassToggle i j ClsLit (lit target)] in
  let ops2 :=
    if bool_decide (color seg = color target) then []
    else colorOps i j (color seg) (color target) in
  let ops3 :=
    if bool_decide (peak seg = peak target) then []
    else [ClassToggle i j ClsPeak (peak target)] in
  let ops4 :=
    if bool_decide (isPeakHold seg = isPeakHold target) then []
    else [ClassToggle i j ClsPeakHold (isPeakHold target)] in
  ({| lit := if bool_decide (lit seg = lit target) then lit seg else lit target;
      color := if bool_decide (color seg = color target)
               then color seg else color target;
      peak := if bool_decide (peak seg = peak target) then peak seg else peak target;
      isPeakHold := if bool_decide (isPeakHold seg = isPeakHold target)
                    then isPeakHold seg else isPeakHold target |},
   ops1 ++ ops2 ++ ops3 ++ ops4).

Definition renderSegment (i j : nat) (litCount peakSegment : Z) (seg : Segment)
    : Segment * list DomOp :=
  let target := segTarget litCount peakSegment j in
  if needsUpdate seg target then applyTarget i j seg target else (seg, []).

(** The loop over [j]; a segment that is missing is skipped (JavaScript
    would raise there; [buildEQBars] creates all of them). *)
Definition renderBar (cfg : Config) (i : nat) (litCount peakSegment : Z)
    (barSegments : list Segment) : list Segment * list DomOp :=
  for_range (eqSegmentCount cfg)
    (fun j acc =>
       match acc.1 !! j with
       | Some seg =>
         let r := renderSegment i j litCount peakSegment seg in
         (<[j := r.1]> acc.1, acc.2 ++ r.2)
       | None => acc
       end)
    (barSegments, []).

(** The body of the loop over the bands. *)
Definition updateBar (cfg : Config) (timestamp : Q) (levels : list Q) (i : nat)
    (acc : State * list DomOp) : State * list DomOp :=
  let '(st, ops) := acc in
  let level := get levels i in
  let litCount := litCountOf cfg level in
  let p := trackPeak cfg timestamp level
             (get (peakLevels st) i, get (peakHoldTimes st) i) in
  let st := with_peakLevels (set (peakLevels st) i p.1) st in
  let st := with_peakHoldTimes (set (peakHoldTimes st) i p.2) st in
  let peakSegment := peakSegmentOf cfg (get (peakLevels st) i) in
  let r := renderBar cfg i litCount peakSegment (default [] (segments st !! i)) in
  (with_segments (<[i := r.1]> (segments st)) st, ops ++ r.2).

(** One animation frame: the new state and the [classList] calls made
    (the change-set of the frame). *)
Definition updateEQBars (h : Host) (cfg : Config) (timestamp : Q)
    (snapshot : list Z) (st : State) : State * list DomOp :=
  if Qlt_bool (timestamp - lastEqUpdate st) (eqUpdateInterval cfg)
  then (requestAnimationFrame st, [])
  else
    let st := with_lastEqUpdate timestamp st in
    let '(levels, st) := getEQLevels h cfg timestamp snapshot st in
    let '(st, ops) :=
      for_range (eqBarCount cfg) (updateBar cfg timestamp levels) (st, []) in
    (requestAnimationFrame st, ops).

(** The peak tracker of one band run over a sequence of
    [(timestamp, level)] frames. *)
Definition trackPeaks (cfg : Config) (frames : list (Q * Q)) (p : Q * Q) : Q * Q :=
  foldl (fun p f => trackPeak cfg f.1 f.2 p) p frames.

(** The tuples an accepted frame computes, per band and per segment. *)
Definition targetRow (cfg : Config) (litCount peakSegment : Z) : list Segment :=
  map (segTarget litCount peakSegment) (seq 0 (eqSegmentCount cfg)).

Definition newPeak (cfg : Config) (timestamp : Q) (levels : list Q) (st : State)
    (i : nat) : Q * Q :=
  trackPeak cfg timestamp (get levels i)
    (get (peakLevels st) i, get (peakHoldTimes st) i).

Definition barTarget (cfg : Config) (timestamp : Q) (levels : list Q) (st : State)
    (i : nat) : list Segment :=
  targetRow cfg (litCountOf cfg (get levels i))
    (peakSegmentOf cfg (newPeak cfg timestamp levels st i).1).

Definition frameTargets (h : Host) (cfg : Config) (timestamp : Q)
    (snapshot : list Z) (st : State) : list (list Segment) :=
  let r := getEQLevels h cfg timestamp snapshot (with_lastEqUpdate timestamp st) in
  map (barTarget cfg timestamp r.1 r.2) (seq 0 (eqBarCount cfg)).

(** The shape [buildEQBars] gives to the arrays of the pipeline. *)
Definition shaped (cfg : Config) (st : State) : Prop :=
  length (smoothedLevels st) = eqBarCount cfg
  /\ length (peakLevels st) = eqBarCount cfg
  /\ length (peakHoldTimes st) = eqBarCount cfg
  /\ length (segments st) = eqBarCount cfg
  /\ Forall (fun row => length row = eqSegmentCount cfg) (segments st).

(** The fields [getEQLevels] never writes. *)
Definition untouched (st st' : State) : Prop :=
  output st' = output st
  /\ logs st' = logs st
  /\ eqAnimationId st' = eqAnimationId st
  /\ lastEqUpdate st' = lastEqUpdate st
  /\ audioContext st' = audioContext st
  /\ analyser st' = analyser st
  /\ audioSource st' = audioSource st
  /\ audioElement st' = audioElement st
  /\ micStream st' = micStream st
  /\ audioMode st' = audioMode st
  /\ isPlaying st' = isPlaying st
  /\ peakLevels st' = peakLevels st
  /\ peakHoldTimes st' = peakHoldTimes st
  /\ segments st' = segments st
  /\ frameRequests st' = frameRequests st
  /\ hostOps st' = hostOps st.

(** What holds of the loop over the bands of [updateEQBars] after its
    first [k] iterations, started in [st0] with the calls [ops0]. *)
Definition bandsDone (cfg : Config) (t : Q) (levels : list Q) (st0 : State)
    (ops0 : list DomOp) (k : nat) (acc : State * list DomOp) : Prop :=
  length (peakLevels acc.1) = eqBarCount cfg
  /\ length (peakHoldTimes acc.1) = eqBarCount cfg
  /\ length (segments acc.1) = eqBarCount cfg
  /\ smoothedLevels acc.1 = smoothedLevels st0
  /\ audioMode acc.1 = audioMode st0
  /\ analyser acc.1 = analyser st0
  /\ frequencyData acc.1 = frequencyData st0
  /\ frameRequests acc.1 = frameRequests st0
  /\ (forall i, (i < k)%nat ->
        peakLevels acc.1 !! i = Some (newPeak cfg t levels st0 i).1
        /\ peakHoldTimes acc.1 !! i = Some (newPeak cfg t levels st0 i).2
        /\ segments acc.1 !! i = Some (barTarget cfg t levels st0 i))
  /\ (forall i, (k <= i)%nat ->
        peakLevels acc.1 !! i = peakLevels st0 !! i
        /\ peakHoldTimes acc.1 !! i = peakHoldTimes st0 !! i
        /\ segments acc.1 !! i = segments st0 !! i)
  /\ ((forall i, (i < eqBarCount cfg)%nat ->
         segments st0 !! i = Some (barTarget cfg t levels st0 i)) ->
      acc.2 = ops0).

(** A frame is accepted when the update interval has elapsed. *)
Definition accepted (cfg : Config) (timestamp : Q) (st : State) : Prop :=
  eqUpdateInterval cfg <= timestamp - lastEqUpdate st.

(** Hosts and states on which the pipeline is run in the examples: a
    host whose sine is flat and whose [Math.random] always returns
    [draw], a host that grants the microphone, and the state after
    [init] once the microphone has been switched on. *)
Definition flatHost (draw : Q) : Host :=
  {| sin := fun _ => 0; random := fun _ => draw |}.

Definition grantingHost : MicHost := {|
  newAudioContext := inr {| sampleRate := 48000; suspended := false |};
  resume := None;
  getUserMedia := inr 1%nat;
  createMediaStreamSource := inr 2%nat
|}.

Definition micState : State := toggleMicrophone CONFIG grantingHost (init CONFIG).

Definition denyingHost : MicHost := {|
  newAudioContext := inr {| sampleRate := 48000; suspended := false |};
  resume := None;
  getUserMedia := inl "Permission denied"%string;
  createMediaStreamSource := inr 2%nat
|}.

Definition fileHost : FileHost := {|
  fileAudioContext := inr {| sampleRate := 48000; suspended := false |};
  newAudio := 3%nat;
  createMediaElementSource := inr 4%nat;
  upperCase := asciiUpperCase
|}.

(** The state after [init] once a file has been selected. *)
Definition fileState : State :=
  (handleFileSelect CONFIG fileHost (Some "song.mp3"%string) (init CONFIG)).1.

(** A state of the demo mode before any audio context exists, in which
    the demo pattern has brought every smoothed level to 0.5. *)
Definition warmState : State :=
  with_smoothedLevels (replicate (eqBarCount CONFIG) 0.5) (init CONFIG).

(** The levels [getEQLevels] returns over a sequence of frames, each a
    timestamp and the spectrum the analyser holds. *)
Fixpoint runLevels (h : Host) (cfg : Config) (frames : list (Q * list Z))
    (st : State) : list (list Q) :=
  match frames with
  | [] => []
  | f :: rest =>
    let r := getEQLevels h cfg f.1 f.2 st in
    r.1 :: runLevels h cfg rest r.2
  end.

(** The host calls by which [stopAudioSource] releases what the state
    holds. *)
Definition releaseOps (st : State) : list HostOp :=
  match micStream st with Some stream => [TrackStop stream] | None => [] end
  ++ match audioElement st with
     | Some el => [ElementPause el; ElementClearSrc el]
     | None => []
     end
  ++ match audioSource st with
     | Some source => [SourceDisconnect source]
     | None => []
     end.

(** The smoothed levels a source switch leaves behind: those it found,
    unless it creates the audio context, which sets up the arrays anew. *)
Definition levelsAfterSwitch (cfg : Config) (ctor : string + AudioContext)
    (st : State) : list Q :=
  match audioContext st, ctor with
  | None, inr _ => replicate (eqBarCount cfg) 0
  | _, _ => smoothedLevels st
  end.

(** The band table of scenario C: two bands, [0, 1000) Hz with gain 1
    and [1000, 2000) Hz with gain 2. *)
Definition scenarioC : Config := {|
  eqBarCount := 2;
  eqSegmentCount := eqSegmentCount CONFIG;
  eqUpdateInterval := eqUpdateInterval CONFIG;
  fftSize := fftSize CONFIG;
  smoothing := smoothing CONFIG;
  peakDecay := peakDecay CONFIG;
  peakHoldTime := peakHoldTime CONFIG;
  frequencyBands := [0; 1000; 2000];
  bandGains := [1.0; 2.0]
|}.

(** The bar and the segment a [classList] call is made on. *)
Definition opBar (op : DomOp) : nat :=
  match op with
  | ClassToggle bar _ _ _ | ClassRemove bar _ _ | ClassAdd bar _ _ => bar
  end.

Definition opSeg (op : DomOp) : nat :=
  match op with
  | ClassToggle _ seg _ _ | ClassRemove _ seg _ | ClassAdd _ seg _ => seg
  end.

(** ** Scheduler and playback controls *)

(** [startEQAnimation]: a frame is requested only when none is pending
    (request handles are positive, so a pending handle is truthy). *)
Definition startEQAnimation (st : State) : State :=
  match eqAnimationId st with
  | Some _ => st
  | None => requestAnimationFrame st
  end.

(** [stopEQAnimation]: the second component is the handle passed to
    [cancelAnimationFrame], if any. *)
Definition stopEQAnimation (st : State) : State * option nat :=
  match eqAnimationId st with
  | Some id => (with_eqAnimationId None st, Some id)
  | None => (st, None)
  end.

(** The calls [togglePlayPause] makes on the audio element. *)
Inductive PlayerOp : Type :=
| ElementPlayCall (el : nat)
| ElementPauseCall (el : nat).

(** [togglePlayPause]: [resumed] is what [audioContext.resume()] does
    when the context is suspended, a rejection message or success; a
    rejection leaves the function before it touches the element.  The
    promise [play()] returns is not awaited. *)
Definition togglePlayPause (resumed : option string) (st : State)
    : State * list PlayerOp * option string :=
  match audioElement st with
  | None => (st, [], None)
  | Some el =>
    match (if isSuspended st then resumed else None) with
    | Some err => (st, [], Some err)
    | None =>
      let st := if isSuspended st then resumeContext st else st in
      if isPlaying st
      then (addLog "PAUSED" (with_isPlaying false st), [ElementPauseCall el], None)
      else (addLog "PLAYING" (with_isPlaying true st), [ElementPlayCall el], None)
    end
  end.

(** The listener [handleFileSelect] installs for the [ended] event of
    the audio element. *)
Definition audioEnded (st : State) : State :=
  addLog "PLAYBACK COMPLETE" (with_isPlaying false st).

(** A file is only ever marked as playing while an audio element is
    loaded. *)
Definition playingHasElement (st : State) : Prop :=
  isPlaying st = true -> is_Some (audioElement st).

(** ** Events

    What can happen to the page after [init]: an animation frame, a
    click on the microphone or the play button, a change of the file
    input, the end of the playback, and the calls of the public
    interface ([setOutput], [addLog], [stopAudio], [startEQ],
    [stopEQ]).  Each handler runs to its end before the next event is
    handled.  [handleSubmit] is two [addLog] calls around a [setOutput]
    on strings the host computes. *)
Inductive Event : Type :=
| FrameEvent (h : Host) (t : Q) (snapshot : list Z)
| MicClick (h : MicHost)
| FileChange (h : FileHost) (file : option string)
| PlayPauseClick (resumed : option string)
| EndedEvent
| StopAudioCall
| StartEQCall
| StopEQCall
| SetOutputCall (text : string)
| AddLogCall (message : string).

Definition handle (cfg : Config) (e : Event) (st : State) : State :=
  match e with
  | FrameEvent h t snapshot => (updateEQBars h cfg t snapshot st).1
  | MicClick h => toggleMicrophone cfg h st
  | FileChange h file => (handleFileSelect cfg h file st).1
  | PlayPauseClick resumed => (togglePlayPause resumed st).1.1
  | EndedEvent => audioEnded st
  | StopAudioCall => stopAudioSource st
  | StartEQCall => startEQAnimation st
  | StopEQCall => (stopEQAnimation st).1
  | SetOutputCall text => setOutput text st
  | AddLogCall message => addLog message st
  end.

(** The state after [init] and a sequence of events. *)
Definition run (cfg : Config) (events : list Event) : State :=
  foldl (fun st e => handle cfg e st) (init cfg) events.

(** The mode agrees with the handles held. *)
Definition modeCoherent (st : State) : Prop :=
  (audioMode st = Mic ->
     is_Some (micStream st) /\ is_Some (audioSource st) /\ audioElement st = None)
  /\ (audioMode st = File ->
        is_Some (audioElement st) /\ is_Some (audioSource st) /\ micStream st = None)
  /\ (activeSources st <= 1)%nat
  /\ playingHasElement st.

(** The audio context, the analyser and the magnitude array exist
    together, and they exist whenever a live source is active. *)
Definition engineCoherent (st : State) : Prop :=
  (audioContext st = None -> analyser st = None /\ frequencyData st = None)
  /\ (is_Some (audioContext st) ->
        is_Some (analyser st) /\ is_Some (frequencyData st))
  /\ (audioMode st <> Demo -> is_Some (audioContext st)).

(** What a frame leaves alone: the source handles, the mode, the
    playing flag and the audio engine. *)
Definition sourcesKept (st st' : State) : Prop :=
  audioMode st' = audioMode st
  /\ micStream st' = micStream st
  /\ audioElement st' = audioElement st
  /\ audioSource st' = audioSource st
  /\ isPlaying st' = isPlaying st
  /\ audioContext st' = audioContext st
  /\ analyser st' = analyser st
  /\ (frequencyData st' = None <-> frequencyData st = None).

(** The invariant of the states reached from [init]. *)
Definition coherent (cfg : Config) (st : State) : Prop :=
  shaped cfg st /\ modeCoherent st /\ engineCoherent st.

(** ** [toggleMicrophone] around [await getUserMedia]

    [toggleMicrophone] is an [async] function: it is suspended while the
    host answers [getUserMedia], and other handlers can run before it is
    resumed.  [toggleMicrophoneBegin] is the handler up to that point:
    [inl] when it has ended before, [inr] the state in which it waits.
    [toggleMicrophoneResume] is the rest of the [try] block. *)
Definition toggleMicrophoneBegin (cfg : Config) (h : MicHost) (st : State)
    : State + State :=
  if bool_decide (audioMode st = Mic) then inl (stopMicrophone st)
  else
    let st := stopAudioSource st in
    match initAudioContext cfg (newAudioContext h) st with
    | inl err => inl (micError err st)
    | inr st =>
      match (if isSuspended st then resume h else None) with
      | Some err => inl (micError err st)
      | None => inr (if isSuspended st then resumeContext st else st)
      end
    end.

Definition toggleMicrophoneResume (h : MicHost) (st : State) : State :=
  match getUserMedia h with
  | inl err => micError err st
  | inr stream =>
    let st := with_micStream (Some stream) st in
    match createMediaStreamSource h with
    | inl err => micError err st
    | inr source =>
      let st := with_audioSource (Some source) st in
      let st := hostCall (SourceConnect source) st in
      let st := with_audioMode Mic st in
      addLog "MICROPHONE CONNECTED" (setOutput "MICROPHONE ACTIVE" st)
    end
  end.

(** ** The log panel

    [renderLogs] and [updateLogOpacity]: entry [index] of [total] is
    drawn with opacity [0.6 + (index / total) * 0.4]. *)
Definition logOpacity (index total : nat) : Q :=
  0.6 + (ofNat index / ofNat total) * 0.4.

Definition renderLogs (logs : list string) : list (string * Q) :=
  imap (fun index log => (log, logOpacity index (length logs))) logs.

(** ** The terminal side: uptime counter and mode switch *)

(** [Number.prototype.toString] on an integer. *)
Definition toString (n : Z) : string := NilZero.string_of_int (Z.to_int n).

Fixpoint repeatChar (c : ascii) (n : nat) : string :=
  match n with
  | O => EmptyString
  | S n => String c (repeatChar c n)
  end.

(** [s.padStart(len, c)] for a one-character pad string. *)
Definition padStart (len : nat) (c : ascii) (s : string) : string :=
  (repeatChar c (len - String.length s) ++ s)%string.

(** The three numbers [updateUptime] prints: [Math.floor] of a quotient
    is [Z.div], [%] is [Z.rem]. *)
Definition uptimeParts (elapsed : Z) : Z * Z * Z :=
  ((elapsed / 3600)%Z, (Z.rem elapsed 3600 / 60)%Z, Z.rem elapsed 60).

Definition uptimeText (elapsed : Z) : string :=
  let '(hours, minutes, seconds) := uptimeParts elapsed in
  (padStart 2 "0" (toString hours) ++ ":"
   ++ padStart 2 "0" (toString minutes) ++ ":"
   ++ padStart 2 "0" (toString seconds))%string.

(** The calls made on the host's timers. *)
Inductive TimerOp : Type :=
| SetIntervalCall (id : nat)
| ClearIntervalCall (id : nat).

(** The terminal fields of [state], the text of [elements.uptimeValue],
    and the host's interval counter and timer calls. *)
Record Terminal : Type := {
  currentMode : string;
  terminalStartTime : Z;
  uptimeIntervalId : option nat;
  uptimeValue : string;
  intervalsCreated : nat;
  timerOps : list TimerOp
}.

(** [initTerminal] on the initial [state]; [now] is [Date.now()]. *)
Definition initTerminal (now : Z) : Terminal := {|
  currentMode := "audio";
  terminalStartTime := now;
  uptimeIntervalId := None;
  uptimeValue := EmptyString;
  intervalsCreated := 0;
  timerOps := []
|}.

Definition updateUptime (now : Z) (tm : Terminal) : Terminal := {|
  currentMode := currentMode tm;
  terminalStartTime := terminalStartTime tm;
  uptimeIntervalId := uptimeIntervalId tm;
  uptimeValue := uptimeText ((now - terminalStartTime tm) / 1000);
  intervalsCreated := intervalsCreated tm;
  timerOps := timerOps tm
|}.

Definition startUptimeCounter (now : Z) (tm : Terminal) : Terminal :=
  match uptimeIntervalId tm with
  | Some _ => tm
  | None =>
    let id := S (intervalsCreated tm) in
    updateUptime now {|
      currentMode := currentMode tm;
      terminalStartTime := terminalStartTime tm;
      uptimeIntervalId := Some id;
      uptimeValue := uptimeValue tm;
      intervalsCreated := id;
      timerOps := timerOps tm ++ [SetIntervalCall id]
    |}
  end.

Definition stopUptimeCounter (tm : Terminal) : Terminal :=
  match uptimeIntervalId tm with
  | Some id => {|
      currentMode := currentMode tm;
      terminalStartTime := terminalStartTime tm;
      uptimeIntervalId := None;
      uptimeValue := uptimeValue tm;
      intervalsCreated := intervalsCreated tm;
      timerOps := timerOps tm ++ [ClearIntervalCall id]
    |}
  | None => tm
  end.

Definition switchMode (now : Z) (mode : string) (tm : Terminal) : Terminal :=
  if String.eqb (currentMode tm) mode then tm
  else
    let tm := {|
      currentMode := mode;
      terminalStartTime := terminalStartTime tm;
      uptimeIntervalId := uptimeIntervalId tm;
      uptimeValue := uptimeValue tm;
      intervalsCreated := intervalsCreated tm;
      timerOps := timerOps tm
    |} in
    if String.eqb mode "terminal" then startUptimeCounter now tm
    else stopUptimeCounter tm.

(** The intervals set and not yet cleared. *)
Definition liveIntervals (ops : list TimerOp) : list nat :=
  foldl (fun live op =>
           match op with
           | SetIntervalCall id => live ++ [id]
           | ClearIntervalCall id => filter (fun x => x <> id) live
           end) [] ops.

(** What happens to the terminal after [init]: [switchMode] is called
    (by a mode button or through the public interface, with any
    string), or the interval fires [updateUptime]. *)
Inductive TerminalEvent : Type :=
| SwitchModeCall (now : Z) (mode : string)
| UptimeTick (now : Z).

Definition handleTerminal (e : TerminalEvent) (tm : Terminal) : Terminal :=
  match e with
  | SwitchModeCall now mode => switchMode now mode tm
  | UptimeTick now => updateUptime now tm
  end.

Definition runTerminal (start : Z) (events : list TerminalEvent) : Terminal :=
  foldl (fun tm e => handleTerminal e tm) (initTerminal start) events.

(** The state in which [toggleMicrophone], called after [init] on a
    host that grants the microphone, waits for [getUserMedia]. *)
Definition pendingState : State :=
  match toggleMicrophoneBegin CONFIG grantingHost (init CONFIG) with
  | inl st => st
  | inr st => st
  end.

(** The uptime interval runs exactly in terminal mode, and it is the
    only interval alive. *)
Definition terminalCoherent (tm : Terminal) : Prop :=
  (is_Some (uptimeIntervalId tm) <-> currentMode tm = "terminal"%string)
  /\ liveIntervals (timerOps tm)
     = match uptimeIntervalId tm with
       | Some id => [id]
       | None => []
       end.

(** ** The React component [StereoApp] (src/unnamed/part_000)

    One level computed by the interval callback: [now] is what
    [Date.now()] returns and [draw] what [Math.random()] returns. *)
Definition tickLevel (h : Host) (now draw : Q) (i : nat) : Q :=
  let base := sin h (now / 300 + ofNat i * 0.5) * 0.3 + 0.5 in
  let noise := draw * 0.3 in
  Qmax 0.1 (Qmin 1 (base + noise)).

(** [prev.map((_, i) => ...)]: the clock is read and a number is drawn
    once per bar. *)
Definition tickBars (h : Host) (clock : nat -> Q) (calls : nat) (prev : list Q)
    : list Q :=
  imap (fun i _ => tickLevel h (clock i) (random h (calls + i)) i) prev.

Definition litSegments (level : Q) : Z := Qfloor (level * 12).

(** [EQBar]: per segment [isLit], [isPeak] and the colour of a lit
    segment. *)
Definition eqBarView (level : Q) : list (bool * bool * option Color) :=
  map (fun i =>
         let isLit := (Z.of_nat i <? litSegments level)%Z in
         let isPeak := (Z.of_nat i =? litSegments level - 1)%Z && isLit in
         (isLit, isPeak, if isLit then Some (zoneColor i) else None))
      (seq 0 12).


(** A host that grants the microphone and then fails to connect the
    stream. *)
Definition brokenSourceHost : MicHost := {|
  newAudioContext := inr {| sampleRate := 48000; suspended := false |};
  resume := None;
  getUserMedia := inr 1%nat;
  createMediaStreamSource := inl "InvalidStateError"%string
|}.

(** A host whose [createMediaElementSource] throws. *)
Definition brokenFileHost : FileHost := {|
  fileAudioContext := inr {| sampleRate := 48000; suspended := false |};
  newAudio := 3%nat;
  createMediaElementSource := inl "InvalidStateError"%string;
  upperCase := asciiUpperCase
|}.

(** Comparisons between closed rationals, by computation. *)
Ltac Qclosed := vm_compute; first [reflexivity | discriminate].

(** A list is a prefix of itself extended on the right. *)
Ltac prefix_solve :=
  repeat first [ reflexivity | apply prefix_app_r ].

(** ** Loops and arrays *)

Lemma for_range_S {S : Type} (n : nat) (body : nat -> S -> S) (s : S) :
  for_range (Datatypes.S n) body s = body n (for_range n body s).
Proof.
  unfold for_range. rewrite seq_S, foldl_app. reflexivity.
Qed.

Lemma for_range_inv {S : Type} (P : nat -> S -> Prop) (n : nat)
      (body : nat -> S -> S) (s : S) :
  P 0%nat s ->
  (forall i acc, (i < n)%nat -> P i acc -> P (Datatypes.S i) (body i acc)) ->
  P n (for_range n body s).
Proof.
  intros H0 Hstep.
  assert (forall k, (k <= n)%nat -> P k (for_range k body s)) as Hall.
  { induction k as [|k IH]; intros Hk.
    - exact H0.
    - rewrite for_range_S. apply Hstep; [lia|]. apply IH. lia. }
  apply Hall. lia.
Qed.

(** ** Bin ranges *)

Lemma elem_of_binRange (lo hi bin : Z) :
  bin ∈ binRange lo hi <-> (lo <= bin <= hi)%Z.
Proof.
  unfold binRange. rewrite elem_of_seqZ. lia.
Qed.

Lemma sumBins_fold (data : list Z) (l : list Z) (s c : Z) :
  foldl (fun acc bin => ((acc.1 + default 0 (readByte data bin))%Z, (acc.2 + 1)%Z))
        (s, c) l
  = ((s + foldr Z.add 0 (map (fun bin => default 0 (readByte data bin)) l))%Z,
     (c + Z.of_nat (length l))%Z).
Proof.
  revert s c. induction l as [|b l IH]; intros s c; simpl.
  - f_equal; lia.
  - rewrite IH. simpl. f_equal; lia.
Qed.

Lemma sumBins_count (data : list Z) (lo hi : Z) :
  (sumBins data lo hi).2 = Z.max 0 (hi - lo + 1).
Proof.
  unfold sumBins. rewrite sumBins_fold. simpl.
  unfold binRange. rewrite length_seqZ. lia.
Qed.

Lemma lowBinOf_nonneg (lowFreq nyquist : Q) (binCount : Z) :
  0 <= lowFreq -> 0 < nyquist -> (0 <= binCount)%Z ->
  (0 <= lowBinOf lowFreq nyquist binCount)%Z.
Proof.
  intros Hf Hn Hb. unfold lowBinOf.
  change 0%Z with (Qfloor 0). apply Qfloor_resp_le.
  apply Qmult_le_0_compat.
  - apply Qle_shift_div_l; [exact Hn|]. lra.
  - change 0 with (inject_Z 0). rewrite <- Zle_Qle. exact Hb.
Qed.

Lemma highBinOf_le (highFreq nyquist : Q) (binCount : Z) :
  (highBinOf highFreq nyquist binCount <= binCount - 1)%Z.
Proof. unfold highBinOf. lia. Qed.

Lemma readByte_in_range (data : list Z) (bin : Z) :
  (0 <= bin <= Z.of_nat (length data) - 1)%Z -> is_Some (readByte data bin).
Proof.
  intros [Hlo Hhi]. unfold readByte.
  destruct (bin <? 0)%Z eqn:E; [lia|].
  apply lookup_lt_is_Some. lia.
Qed.

(** ** Smoothing stays in the unit interval *)

Lemma smooth_unit (alpha prev level : Q) :
  0 <= alpha <= 1 -> 0 <= prev <= 1 -> 0 <= level <= 1 ->
  0 <= smooth alpha prev level <= 1.
Proof.
  unfold smooth. intros [Ha0 Ha1] [Hp0 Hp1] [Hl0 Hl1]. split; nra.
Qed.

Lemma smoothRun_unit (alpha : Q) (raws : list Q) :
  0 <= alpha <= 1 ->
  Forall (fun r => 0 <= r <= 1) raws ->
  forall prev, 0 <= prev <= 1 ->
  Forall (fun s => 0 <= s <= 1) (smoothRun alpha prev raws).
Proof.
  intros Ha Hraws. induction Hraws as [|r raws Hr _ IH]; intros prev Hp; simpl.
  - constructor.
  - pose proof (smooth_unit alpha prev r Ha Hp Hr) as Hs.
    constructor; [exact Hs|]. apply IH. exact Hs.
Qed.

(** ** Uniform snapshots *)

Lemma reads_uniform (c : Z) (B : nat) (l : list Z) :
  (forall bin, bin ∈ l -> (0 <= bin <= Z.of_nat B - 1)%Z) ->
  foldr Z.add 0%Z (map (fun bin => default 0%Z (readByte (replicate B c) bin)) l)
  = (c * Z.of_nat (length l))%Z.
Proof.
  induction l as [|b l IH]; intros Hin; simpl.
  - lia.
  - rewrite IH by (intros bin Hb; apply Hin; right; exact Hb).
    assert (0 <= b <= Z.of_nat B - 1)%Z as Hb by (apply Hin; left).
    unfold readByte. destruct (b <? 0)%Z eqn:E; [lia|].
    rewrite lookup_replicate_2 by lia. simpl. lia.
Qed.

Lemma sumBins_uniform (c : Z) (B : nat) (lo hi : Z) :
  (0 <= lo)%Z -> (hi <= Z.of_nat B - 1)%Z -> (lo <= hi)%Z ->
  sumBins (replicate B c) lo hi = ((c * (hi - lo + 1))%Z, (hi - lo + 1)%Z).
Proof.
  intros Hlo Hhi Hle. unfold sumBins. rewrite sumBins_fold.
  rewrite reads_uniform.
  - unfold binRange. rewrite length_seqZ. f_equal; lia.
  - intros bin Hb. apply elem_of_binRange in Hb. lia.
Qed.

Lemma normalise_uniform (c n : Z) :
  (0 < n)%Z -> normalise ((c * n)%Z, n) == inject_Z c / 255.
Proof.
  intros Hn. unfold normalise. simpl.
  destruct (0 <? n)%Z eqn:E; [|lia].
  rewrite inject_Z_mult.
  assert (0 < inject_Z n) as Hq.
  { change 0 with (inject_Z 0). rewrite <- Zlt_Qlt. exact Hn. }
  field. lra.
Qed.

Lemma bandLevel_uniform (cfg : Config) (sr : Q) (c : Z) (B i : nat) :
  let binCount := Z.of_nat B in
  let lo := lowBinOf (get (frequencyBands cfg) i) (sr / 2) binCount in
  let hi := highBinOf (get (frequencyBands cfg) (i + 1)) (sr / 2) binCount in
  (0 <= lo)%Z -> (lo <= hi)%Z ->
  bandLevel cfg sr (replicate B c) i
  == Qmin 1 (inject_Z c / 255 * get (bandGains cfg) i).
Proof.
  intros binCount lo hi Hlo Hle. unfold bandLevel.
  rewrite length_replicate. fold binCount. fold lo. fold hi.
  rewrite sumBins_uniform; [|exact Hlo|apply highBinOf_le|exact Hle].
  rewrite normalise_uniform by lia. reflexivity.
Qed.

Lemma frequencyBands_nonneg (i : nat) : 0 <= get (frequencyBands CONFIG) i.
Proof.
  unfold get. simpl.
  do 17 (destruct i as [|i]; [simpl; unfold Qle; simpl; lia|]).
  simpl. lra.
Qed.

Lemma normalise_empty (sc : Z * Z) : sc.2 = 0%Z -> normalise sc = 0.
Proof. intros H. unfold normalise. rewrite H. reflexivity. Qed.

Lemma nyquist_pos (sr : Q) : 0 < sr -> 0 < sr / 2.
Proof. intros H. apply Qlt_shift_div_l; lra. Qed.

Lemma bin_range_nonempty (lowFreq highFreq nyquist : Q) (binCount : Z) :
  0 < nyquist -> lowFreq <= highFreq -> lowFreq < nyquist -> (1 <= binCount)%Z ->
  (lowBinOf lowFreq nyquist binCount <= highBinOf highFreq nyquist binCount)%Z.
Proof.
  intros Hn Hle Hlt HB. unfold lowBinOf, highBinOf.
  assert (0 < inject_Z binCount) as HBq.
  { change 0 with (inject_Z 0). rewrite <- Zlt_Qlt. lia. }
  set (x := lowFreq / nyquist * inject_Z binCount).
  set (y := highFreq / nyquist * inject_Z binCount).
  assert (x <= y) as Hxy.
  { unfold x, y. apply Qmult_le_compat_r; [|lra].
    unfold Qdiv. apply Qmult_le_compat_r; [exact Hle|].
    apply Qlt_le_weak, Qinv_lt_0_compat, Hn. }
  assert (x < inject_Z binCount) as HxB.
  { unfold x.
    assert (lowFreq / nyquist < 1) as Hq
      by (apply Qlt_shift_div_r; [exact Hn|]; lra).
    nra. }
  apply Z.min_glb.
  - rewrite Zle_Qle.
    pose proof (Qfloor_le x). pose proof (Qle_ceiling y). lra.
  - assert (Qfloor x < binCount)%Z; [|lia].
    rewrite Zlt_Qlt. pose proof (Qfloor_le x). lra.
Qed.

(** ** Levels of the live branch lie in the unit interval *)

Lemma readByte_nonneg (data : list Z) (bin : Z) :
  Forall (fun b => (0 <= b)%Z) data -> (0 <= default 0 (readByte data bin))%Z.
Proof.
  intros Hdata. unfold readByte. destruct (bin <? 0)%Z; simpl; [lia|].
  destruct (data !! Z.to_nat bin) as [b|] eqn:E; simpl; [|lia].
  exact (proj1 (Forall_lookup _ _) Hdata _ _ E).
Qed.

Lemma sumBins_nonneg (data : list Z) (lo hi : Z) :
  Forall (fun b => (0 <= b)%Z) data -> (0 <= (sumBins data lo hi).1)%Z.
Proof.
  intros Hdata. unfold sumBins. rewrite sumBins_fold. simpl.
  induction (binRange lo hi) as [|b l IH]; simpl; [lia|].
  pose proof (readByte_nonneg data b Hdata). lia.
Qed.

Lemma normalise_nonneg (sc : Z * Z) : (0 <= sc.1)%Z -> 0 <= normalise sc.
Proof.
  intros Hsum. unfold normalise. destruct (0 <? sc.2)%Z eqn:E; [|lra].
  apply Z.ltb_lt in E.
  assert (0 <= inject_Z sc.1) as Hs
    by (change 0 with (inject_Z 0); rewrite <- Zle_Qle; exact Hsum).
  assert (0 < inject_Z sc.2) as Hc
    by (change 0 with (inject_Z 0); rewrite <- Zlt_Qlt; exact E).
  apply Qle_shift_div_l; [lra|]. rewrite Qmult_0_l.
  apply Qle_shift_div_l; [exact Hc|]. lra.
Qed.

Lemma bandLevel_unit (cfg : Config) (sr : Q) (data : list Z) (i : nat) :
  Forall (fun b => (0 <= b)%Z) data ->
  0 <= get (bandGains cfg) i ->
  0 <= bandLevel cfg sr data i <= 1.
Proof.
  intros Hdata Hgain. unfold bandLevel. split; [|apply Q.le_min_l].
  apply Q.min_glb; [lra|].
  apply Qmult_le_0_compat; [|exact Hgain].
  apply normalise_nonneg, sumBins_nonneg, Hdata.
Qed.

Lemma get_unit (a : list Q) (i : nat) :
  Forall (fun s => 0 <= s <= 1) a -> 0 <= get a i <= 1.
Proof.
  intros Ha. unfold get. destruct (a !! i) as [v|] eqn:E; simpl; [|lra].
  exact (proj1 (Forall_lookup _ _) Ha _ _ E).
Qed.

Lemma get_nonneg (a : list Q) (i : nat) :
  Forall (fun g => 0 <= g) a -> 0 <= get a i.
Proof.
  intros Ha. unfold get. destruct (a !! i) as [v|] eqn:E; simpl; [|lra].
  exact (proj1 (Forall_lookup _ _) Ha _ _ E).
Qed.

(** A live frame keeps every smoothed level, and every level it returns,
    in [0,1]. *)
Lemma live_frame_unit (h : Host) (cfg : Config) (t : Q) (snapshot array : list Z)
      (st : State) :
  liveData st = Some array ->
  0 <= smoothing cfg <= 1 ->
  Forall (fun g => 0 <= g) (bandGains cfg) ->
  Forall (fun b => (0 <= b)%Z) snapshot ->
  Forall (fun b => (0 <= b)%Z) array ->
  Forall (fun s => 0 <= s <= 1) (smoothedLevels st) ->
  Forall (fun s => 0 <= s <= 1) (smoothedLevels (getEQLevels h cfg t snapshot st).2)
  /\ Forall (fun s => 0 <= s <= 1) (getEQLevels h cfg t snapshot st).1.
Proof.
  intros Hlive Halpha Hgains Hsnap Harr Hsm.
  unfold getEQLevels. rewrite Hlive.
  assert (Forall (fun b => (0 <= b)%Z) (getByteFrequencyData snapshot array)) as Hdata.
  { unfold getByteFrequencyData. apply Forall_app. split.
    - apply Forall_take, Hsnap.
    - apply Forall_drop, Harr. }
  apply (for_range_inv
           (fun _ acc =>
              Forall (fun s => 0 <= s <= 1) (smoothedLevels acc.2)
              /\ Forall (fun s => 0 <= s <= 1) acc.1)).
  - simpl. split; [exact Hsm|]. apply Forall_replicate. lra.
  - intros i [levels sk] _ [Hs Hl]. simpl in *.
    assert (0 <= smooth (smoothing cfg) (get (smoothedLevels sk) i)
                   (bandLevel cfg (contextSampleRate sk)
                      (getByteFrequencyData snapshot array) i) <= 1) as Hnew.
    { apply smooth_unit; [exact Halpha | apply get_unit, Hs |].
      apply bandLevel_unit; [exact Hdata | apply get_nonneg, Hgains]. }
    unfold set. split; apply Forall_insert; assumption.
Qed.

(** ** The claims on the spectrum mapper and the smoother *)

(** C6.  With a smoothing factor in [0,1] and a smoothed value in [0,1],
    feeding any sequence of raw levels in [0,1] through
    [smoothed * alpha + raw * (1 - alpha)] keeps the smoothed level in
    [0,1] after every update. *)
Theorem smoothed_level_stays_in_unit_interval (alpha prev : Q) (raws : list Q) :
  0 <= alpha <= 1 ->
  0 <= prev <= 1 ->
  Forall (fun r => 0 <= r <= 1) raws ->
  Forall (fun s => 0 <= s <= 1) (smoothRun alpha prev raws).
Proof.
  intros Ha Hp Hraws. apply smoothRun_unit; assumption.
Qed.

Lemma smoothed_level_stays_in_unit_interval_witness :
  (0 <= smoothing CONFIG <= 1)
  /\ (0 <= 0 <= 1)
  /\ Forall (fun r => 0 <= r <= 1) [1; 0.5; 0]
  /\ Forall (fun s => 0 <= s <= 1) (smoothRun (smoothing CONFIG) 0 [1; 0.5; 0]).
Proof.
  assert (0 <= smoothing CONFIG <= 1) as Ha by (simpl; split; lra).
  assert (0 <= 0 <= 1) as Hp by (split; lra).
  assert (Forall (fun r => 0 <= r <= 1) [1; 0.5; 0]) as Hr
    by (repeat constructor; lra).
  split; [exact Ha|]. split; [exact Hp|]. split; [exact Hr|].
  exact (smoothed_level_stays_in_unit_interval (smoothing CONFIG) 0 [1; 0.5; 0] Ha Hp Hr).
Defined.

(** C7.  Scenario C: with the band table [(0,1000,1.0); (1000,2000,2.0)],
    sample rate 8000 and every bin at magnitude 128 (for any number of
    bins), the level before smoothing is 128/255 (within 0.001 of 0.502)
    for band 0 and exactly 1 for band 1, whose gain is clamped; both
    levels lie in [0,1]. *)
Theorem scenario_C_band_levels (B : nat) :
  (1 <= B)%nat ->
  bandLevel scenarioC 8000 (replicate B 128%Z) 0 == 128 / 255
  /\ Qabs (bandLevel scenarioC 8000 (replicate B 128%Z) 0 - 0.502) <= 0.001
  /\ bandLevel scenarioC 8000 (replicate B 128%Z) 1 == 1
  /\ (forall i, (i < 2)%nat ->
        0 <= bandLevel scenarioC 8000 (replicate B 128%Z) i <= 1).
Proof.
  intros HB.
  assert (0 < 8000 / 2) as Hnyq by (apply nyquist_pos; lra).
  assert (bandLevel scenarioC 8000 (replicate B 128%Z) 0 == 128 / 255) as H0.
  { rewrite bandLevel_uniform.
    - vm_compute. reflexivity.
    - apply lowBinOf_nonneg; [Qclosed | exact Hnyq | lia].
    - apply bin_range_nonempty; [Qclosed | Qclosed | Qclosed | lia]. }
  assert (bandLevel scenarioC 8000 (replicate B 128%Z) 1 == 1) as H1.
  { rewrite bandLevel_uniform.
    - vm_compute. reflexivity.
    - apply lowBinOf_nonneg; [Qclosed | exact Hnyq | lia].
    - apply bin_range_nonempty; [Qclosed | Qclosed | Qclosed | lia]. }
  split; [exact H0|]. split; [|split; [exact H1|]].
  - rewrite H0. apply Qabs_Qle_condition. split; Qclosed.
  - intros i Hi.
    destruct i as [|[|i]]; [rewrite H0 | rewrite H1 | lia]; split; Qclosed.
Qed.

Lemma scenario_C_band_levels_witness :
  (1 <= 256)%nat
  /\ bandLevel scenarioC 8000 (replicate 256 128%Z) 0 == 128 / 255
  /\ bandLevel scenarioC 8000 (replicate 256 128%Z) 1 == 1.
Proof.
  assert (1 <= 256)%nat as HB by lia.
  split; [exact HB|].
  destruct (scenario_C_band_levels 256 HB) as (H0 & _ & H1 & _).
  split; [exact H0 | exact H1].
Defined.

(** C10.  In the live branch, for a snapshot of [B >= 1] bins and a
    positive sample rate, every bin the averaging loop of a band reads
    lies in [0, B-1] (so the read hits the array), and when the loop
    runs over no bin ([count] is 0) the level of the band is 0. *)
Theorem live_band_reads_in_range (sr : Q) (data : list Z) (i : nat) :
  (1 <= length data)%nat ->
  0 < sr ->
  let binCount := Z.of_nat (length data) in
  let lowBin := lowBinOf (get (frequencyBands CONFIG) i) (sr / 2) binCount in
  let highBin := highBinOf (get (frequencyBands CONFIG) (i + 1)) (sr / 2) binCount in
  (forall bin, bin ∈ binRange lowBin highBin ->
     (0 <= bin <= binCount - 1)%Z /\ is_Some (readByte data bin))
  /\ ((sumBins data lowBin highBin).2 = 0%Z -> bandLevel CONFIG sr data i == 0).
Proof.
  intros HB Hsr binCount lowBin highBin.
  assert (0 <= lowBin)%Z as Hlo.
  { apply lowBinOf_nonneg; [apply frequencyBands_nonneg | apply nyquist_pos, Hsr | lia]. }
  pose proof (highBinOf_le (get (frequencyBands CONFIG) (i + 1)) (sr / 2) binCount) as Hhi.
  fold highBin in Hhi.
  split.
  - intros bin Hbin. apply elem_of_binRange in Hbin.
    assert (0 <= bin <= binCount - 1)%Z as Hrange by lia.
    split; [exact Hrange|]. apply readByte_in_range. exact Hrange.
  - intros Hcount. unfold bandLevel. fold binCount. fold lowBin. fold highBin.
    rewrite (normalise_empty _ Hcount).
    rewrite Qmult_0_l. apply Q.min_r. lra.
Qed.

Lemma live_band_reads_in_range_witness :
  (1 <= length (replicate 256 7%Z))%nat
  /\ 0 < 8000
  /\ (sumBins (replicate 256 7%Z)
        (lowBinOf (get (frequencyBands CONFIG) 15) (8000 / 2) 256)
        (highBinOf (get (frequencyBands CONFIG) 16) (8000 / 2) 256)).2 = 0%Z
  /\ bandLevel CONFIG 8000 (replicate 256 7%Z) 15 == 0.
Proof.
  assert (1 <= length (replicate 256 7%Z))%nat as HB by (rewrite length_replicate; lia).
  assert (0 < 8000) as Hsr by lra.
  assert ((sumBins (replicate 256 7%Z)
        (lowBinOf (get (frequencyBands CONFIG) 15) (8000 / 2) 256)
        (highBinOf (get (frequencyBands CONFIG) 16) (8000 / 2) 256)).2 = 0%Z) as Hc
    by (vm_compute; reflexivity).
  split; [exact HB|]. split; [exact Hsr|]. split; [exact Hc|].
  destruct (live_band_reads_in_range 8000 (replicate 256 7%Z) 15 HB Hsr) as [_ Hz].
  apply Hz. rewrite length_replicate. exact Hc.
Defined.

(** ** The peak tracker *)

Lemma Qlt_bool_iff (x y : Q) : Qlt_bool x y = true <-> x < y.
Proof.
  unfold Qlt_bool. rewrite negb_true_iff.
  destruct (Qle_bool y x) eqn:E.
  - apply Qle_bool_iff in E. split; [discriminate|].
    intros H. exfalso. apply (Qlt_not_le _ _ H E).
  - split; [|reflexivity]. intros _.
    apply Qnot_le_lt. intros H. apply Qle_bool_iff in H. congruence.
Qed.

Lemma trackPeak_rise (cfg : Config) (t level peakLevel holdTime : Q) :
  peakLevel <= level ->
  trackPeak cfg t level (peakLevel, holdTime) = (level, t).
Proof.
  intros H. unfold trackPeak. apply Qle_bool_iff in H. rewrite H. reflexivity.
Qed.

Lemma trackPeak_decay (cfg : Config) (t level peakLevel holdTime : Q) :
  level < peakLevel ->
  peakHoldTime cfg < t - holdTime ->
  trackPeak cfg t level (peakLevel, holdTime)
  = (Qmax level (peakLevel - peakDecay cfg), holdTime).
Proof.
  intros Hlt Hexp. unfold trackPeak.
  destruct (Qle_bool peakLevel level) eqn:E.
  - apply Qle_bool_iff in E. exfalso. apply (Qlt_not_le _ _ Hlt E).
  - apply Qlt_bool_iff in Hexp. rewrite Hexp. reflexivity.
Qed.

Lemma trackPeak_hold (cfg : Config) (t level peakLevel holdTime : Q) :
  level < peakLevel ->
  t - holdTime <= peakHoldTime cfg ->
  trackPeak cfg t level (peakLevel, holdTime) = (peakLevel, holdTime).
Proof.
  intros Hlt Hheld. unfold trackPeak.
  destruct (Qle_bool peakLevel level) eqn:E.
  - apply Qle_bool_iff in E. exfalso. apply (Qlt_not_le _ _ Hlt E).
  - destruct (Qlt_bool (peakHoldTime cfg) (t - holdTime)) eqn:E2; [|reflexivity].
    apply Qlt_bool_iff in E2. exfalso. apply (Qlt_not_le _ _ E2 Hheld).
Qed.

Lemma trackPeak_ge_level (cfg : Config) (t level : Q) (p : Q * Q) :
  level <= (trackPeak cfg t level p).1.
Proof.
  destruct p as [peakLevel holdTime]. unfold trackPeak.
  destruct (Qle_bool peakLevel level) eqn:E; simpl.
  - apply Qle_refl.
  - destruct (Qlt_bool (peakHoldTime cfg) (t - holdTime)); simpl.
    + apply Q.le_max_l.
    + apply Qlt_le_weak, Qnot_le_lt. intros H.
      apply Qle_bool_iff in H. congruence.
Qed.

(** C1 as stated fails: in scenario A the hold time has run out at the
    fourth frame, so the tracker lets the peak fall by one decay step;
    the peak is then 0.98 and not 1. *)
Lemma scenario_A_peak_is_not_held :
  ~ ((trackPeaks CONFIG [(100, 0); (200, 0.5); (300, 1); (900, 0.3)] (0, 0)).1 == 1).
Proof. vm_compute. discriminate. Qed.

(** C1, amended.  With 12 segments, the levels 0, 0.5, 1, 0.3 fed to the
    peak tracker of a band at four frames, the fourth more than the hold
    time after the third: at the fourth frame the peak has fallen by one
    decay step from 1 to [max(0.3, 1 - 0.02) = 0.98], the hold time is
    still that of the third frame, and the peak segment is still 11. *)
Theorem scenario_A_peak_decays_one_step (t1 t2 t3 t4 : Q) :
  peakHoldTime CONFIG < t4 - t3 ->
  let p := trackPeaks CONFIG [(t1, 0); (t2, 0.5); (t3, 1); (t4, 0.3)] (0, 0) in
  p.1 == 0.98 /\ p.2 = t3 /\ peakSegmentOf CONFIG p.1 = 11%Z.
Proof.
  intros Hexp p. subst p.
  change (trackPeaks CONFIG [(t1, 0); (t2, 0.5); (t3, 1); (t4, 0.3)] (0, 0))
    with (trackPeak CONFIG t4 0.3
            (trackPeak CONFIG t3 1
               (trackPeak CONFIG t2 0.5 (trackPeak CONFIG t1 0 (0, 0))))).
  rewrite (trackPeak_rise CONFIG t1 0 0 0) by Qclosed.
  rewrite (trackPeak_rise CONFIG t2 0.5 0 t1) by Qclosed.
  rewrite (trackPeak_rise CONFIG t3 1 0.5 t2) by Qclosed.
  rewrite (trackPeak_decay CONFIG t4 0.3 1 t3) by (first [Qclosed | exact Hexp]).
  simpl. split; [Qclosed|]. split; [reflexivity|]. vm_compute. reflexivity.
Qed.

Lemma scenario_A_peak_decays_one_step_witness :
  peakHoldTime CONFIG < 900 - 300
  /\ (trackPeaks CONFIG [(100, 0); (200, 0.5); (300, 1); (900, 0.3)] (0, 0)).1 == 0.98
  /\ peakSegmentOf CONFIG
       (trackPeaks CONFIG [(100, 0); (200, 0.5); (300, 1); (900, 0.3)] (0, 0)).1
     = 11%Z.
Proof.
  assert (peakHoldTime CONFIG < 900 - 300) as H by Qclosed.
  split; [exact H|].
  destruct (scenario_A_peak_decays_one_step 100 200 300 900 H) as (Hp & _ & Hs).
  split; [exact Hp | exact Hs].
Defined.

(** ** The segment renderer *)

Lemma applyTarget_fst (i j : nat) (seg target : Segment) :
  (applyTarget i j seg target).1 = target.
Proof.
  destruct seg as [l c p k], target as [l' c' p' k'].
  unfold applyTarget. simpl.
  repeat case_bool_decide; subst; reflexivity.
Qed.

Lemma needsUpdate_false (seg target : Segment) :
  needsUpdate seg target = false <-> seg = target.
Proof.
  destruct seg as [l c p k], target as [l' c' p' k'].
  unfold needsUpdate. simpl. split.
  - repeat case_bool_decide; simpl; intros Hnone; try discriminate Hnone.
    subst. reflexivity.
  - intros H. injection H as -> -> -> ->.
    rewrite !bool_decide_eq_true_2 by reflexivity. reflexivity.
Qed.

Lemma renderSegment_fst (i j : nat) (litCount peakSegment : Z) (seg : Segment) :
  (renderSegment i j litCount peakSegment seg).1 = segTarget litCount peakSegment j.
Proof.
  unfold renderSegment.
  destruct (needsUpdate seg (segTarget litCount peakSegment j)) eqn:E.
  - apply applyTarget_fst.
  - apply needsUpdate_false in E. exact E.
Qed.

Lemma renderSegment_same (i j : nat) (litCount peakSegment : Z) :
  renderSegment i j litCount peakSegment (segTarget litCount peakSegment j)
  = (segTarget litCount peakSegment j, []).
Proof.
  unfold renderSegment.
  rewrite (proj2 (needsUpdate_false _ _) eq_refl). reflexivity.
Qed.

Lemma targetRow_lookup (cfg : Config) (litCount peakSegment : Z) (j : nat) :
  (j < eqSegmentCount cfg)%nat ->
  targetRow cfg litCount peakSegment !! j = Some (segTarget litCount peakSegment j).
Proof.
  intros Hj. unfold targetRow.
  rewrite list_lookup_fmap, lookup_seq_lt by exact Hj. reflexivity.
Qed.

Lemma targetRow_length (cfg : Config) (litCount peakSegment : Z) :
  length (targetRow cfg litCount peakSegment) = eqSegmentCount cfg.
Proof. unfold targetRow. rewrite length_map, length_seq. reflexivity. Qed.

(** After the loop over [j] every segment of the bar holds its target. *)
Lemma renderBar_fst (cfg : Config) (i : nat) (litCount peakSegment : Z)
      (barSegments : list Segment) :
  length barSegments = eqSegmentCount cfg ->
  (renderBar cfg i litCount peakSegment barSegments).1
  = targetRow cfg litCount peakSegment.
Proof.
  intros Hlen. unfold renderBar.
  set (body := fun (j : nat) (acc : list Segment * list DomOp) => _).
  assert (length (for_range (eqSegmentCount cfg) body (barSegments, [])).1
            = eqSegmentCount cfg
          /\ forall j, (j < eqSegmentCount cfg)%nat ->
               (for_range (eqSegmentCount cfg) body (barSegments, [])).1 !! j
               = Some (segTarget litCount peakSegment j)) as [Hl Hall].
  { apply (for_range_inv
             (fun k acc => length acc.1 = eqSegmentCount cfg
                           /\ forall j, (j < k)%nat ->
                                acc.1 !! j = Some (segTarget litCount peakSegment j))).
    - split; [exact Hlen|]. intros j Hj. lia.
    - intros k acc Hk [Hl Hdone]. unfold body.
      destruct (acc.1 !! k) as [seg|] eqn:E.
      + simpl. rewrite length_insert. split; [exact Hl|].
        intros j Hj. destruct (decide (j = k)) as [->|Hne].
        * rewrite list_lookup_insert_eq by lia.
          rewrite renderSegment_fst. reflexivity.
        * rewrite list_lookup_insert_ne by congruence. apply Hdone. lia.
      + apply lookup_ge_None in E. lia. }
  apply list_eq. intros j.
  destruct (decide (j < eqSegmentCount cfg)%nat) as [Hj|Hj].
  - rewrite Hall, targetRow_lookup by exact Hj. reflexivity.
  - rewrite !(proj2 (lookup_ge_None _ _)); [reflexivity| |].
    + rewrite targetRow_length. lia.
    + rewrite Hl. lia.
Qed.

(** A bar that already holds its targets is left alone: nothing is
    rewritten and no [classList] call is made. *)
Lemma renderBar_same (cfg : Config) (i : nat) (litCount peakSegment : Z) :
  renderBar cfg i litCount peakSegment (targetRow cfg litCount peakSegment)
  = (targetRow cfg litCount peakSegment, []).
Proof.
  unfold renderBar.
  apply (for_range_inv
           (fun _ acc => acc = (targetRow cfg litCount peakSegment, []))).
  - reflexivity.
  - intros k acc Hk ->. simpl.
    rewrite targetRow_lookup by exact Hk.
    rewrite renderSegment_same. simpl.
    rewrite list_insert_id by (apply targetRow_lookup; exact Hk).
    reflexivity.
Qed.

(** ** Frame conditions of [getEQLevels] *)

Lemma untouched_refl (st : State) : untouched st st.
Proof. unfold untouched. repeat split. Qed.

Lemma untouched_trans (st1 st2 st3 : State) :
  untouched st1 st2 -> untouched st2 st3 -> untouched st1 st3.
Proof.
  unfold untouched. intros H12 H23.
  destruct H12 as (?&?&?&?&?&?&?&?&?&?&?&?&?&?&?&?).
  destruct H23 as (?&?&?&?&?&?&?&?&?&?&?&?&?&?&?&?).
  repeat split; congruence.
Qed.

Lemma liveBand_frame (cfg : Config) (data : list Z) (i : nat) (acc : list Q * State) :
  untouched acc.2 (liveBand cfg data i acc).2
  /\ length (liveBand cfg data i acc).1 = length acc.1
  /\ length (smoothedLevels (liveBand cfg data i acc).2)
     = length (smoothedLevels acc.2)
  /\ frequencyData (liveBand cfg data i acc).2 = frequencyData acc.2
  /\ randomCalls (liveBand cfg data i acc).2 = randomCalls acc.2.
Proof.
  destruct acc as [levels st]. unfold liveBand, set. simpl.
  rewrite !length_insert. unfold untouched. simpl. repeat split.
Qed.

Lemma demoBand_frame (h : Host) (cfg : Config) (t : Q) (i : nat) (acc : list Q * State) :
  untouched acc.2 (demoBand h cfg t i acc).2
  /\ length (demoBand h cfg t i acc).1 = length acc.1
  /\ length (smoothedLevels (demoBand h cfg t i acc).2)
     = length (smoothedLevels acc.2)
  /\ frequencyData (demoBand h cfg t i acc).2 = frequencyData acc.2
  /\ randomCalls (demoBand h cfg t i acc).2 = S (randomCalls acc.2).
Proof.
  destruct acc as [levels st]. unfold demoBand, set. simpl.
  rewrite !length_insert. unfold untouched. simpl. repeat split.
Qed.

Lemma getEQLevels_frame (h : Host) (cfg : Config) (t : Q) (snapshot : list Z)
      (st : State) :
  untouched st (getEQLevels h cfg t snapshot st).2
  /\ length (getEQLevels h cfg t snapshot st).1 = eqBarCount cfg
  /\ length (smoothedLevels (getEQLevels h cfg t snapshot st).2)
     = length (smoothedLevels st).
Proof.
  unfold getEQLevels. destruct (liveData st) as [array|].
  - apply (for_range_inv
             (fun _ acc =>
                untouched st acc.2
                /\ length acc.1 = eqBarCount cfg
                /\ length (smoothedLevels acc.2) = length (smoothedLevels st))).
    + simpl. rewrite length_replicate.
      split; [unfold untouched; simpl; repeat split|]. split; reflexivity.
    + intros i acc _ (Hu & Hl & Hs).
      destruct (liveBand_frame cfg (getByteFrequencyData snapshot array) i acc)
        as (Hu' & Hl' & Hs' & _).
      split; [exact (untouched_trans _ _ _ Hu Hu')|]. split; congruence.
  - apply (for_range_inv
             (fun _ acc =>
                untouched st acc.2
                /\ length acc.1 = eqBarCount cfg
                /\ length (smoothedLevels acc.2) = length (smoothedLevels st))).
    + simpl. rewrite length_replicate.
      split; [apply untouched_refl|]. split; reflexivity.
    + intros i acc _ (Hu & Hl & Hs).
      destruct (demoBand_frame h cfg t i acc) as (Hu' & Hl' & Hs' & _).
      split; [exact (untouched_trans _ _ _ Hu Hu')|]. split; congruence.
Qed.

(** ** The loop over the bands *)

Lemma get_lookup (a : list Q) (i : nat) (v : Q) : a !! i = Some v -> get a i = v.
Proof. intros H. unfold get. rewrite H. reflexivity. Qed.

Lemma get_agree (a b : list Q) (i : nat) : a !! i = b !! i -> get a i = get b i.
Proof. intros H. unfold get. rewrite H. reflexivity. Qed.

Section BandLoop.
Variables (cfg : Config) (t : Q) (levels : list Q) (st0 : State) (ops0 : list DomOp).
Hypothesis peaks_shape : length (peakLevels st0) = eqBarCount cfg.
Hypothesis holds_shape : length (peakHoldTimes st0) = eqBarCount cfg.
Hypothesis segments_shape : length (segments st0) = eqBarCount cfg.
Hypothesis rows_shape :
  Forall (fun row => length row = eqSegmentCount cfg) (segments st0).

Lemma updateBar_step (k : nat) (acc : State * list DomOp) :
  (k < eqBarCount cfg)%nat ->
  bandsDone cfg t levels st0 ops0 k acc ->
  bandsDone cfg t levels st0 ops0 (S k) (updateBar cfg t levels k acc).
Proof.
  intros Hk (Hlp & Hlh & Hls & Hsm & Hmode & Han & Hfd & Hfr & Hdone & Hrest & Hops).
  destruct acc as [st ops]. cbn [fst snd] in *.
  destruct (Hrest k (le_n k)) as (Hpk & Hhk & Hsk).
  assert (trackPeak cfg t (get levels k)
            (get (peakLevels st) k, get (peakHoldTimes st) k)
          = newPeak cfg t levels st0 k) as Hnew.
  { unfold newPeak.
    rewrite (get_agree _ _ _ Hpk), (get_agree _ _ _ Hhk). reflexivity. }
  destruct (lookup_lt_is_Some_2 (segments st0) k ltac:(lia)) as [row Hrow].
  assert (length row = eqSegmentCount cfg) as Hrowlen.
  { eapply (proj1 (Forall_lookup _ _) rows_shape). exact Hrow. }
  unfold updateBar. cbv beta iota zeta. rewrite Hnew.
  assert (get (<[k := (newPeak cfg t levels st0 k).1]> (peakLevels st)) k
          = (newPeak cfg t levels st0 k).1) as Hg
    by (apply get_lookup, list_lookup_insert_eq; lia).
  unfold bandsDone, set. simpl.
  rewrite Hg, Hsk, Hrow. simpl.
  rewrite !length_insert.
  repeat (split; [assumption|]).
  split; [|split].
  - intros i Hi. destruct (decide (i = k)) as [->|Hne].
    + rewrite !list_lookup_insert_eq by lia.
      rewrite renderBar_fst by exact Hrowlen. repeat split.
    + rewrite !list_lookup_insert_ne by congruence. apply Hdone. lia.
  - intros i Hi. rewrite !list_lookup_insert_ne by lia. apply Hrest. lia.
  - intros Hsame. rewrite (Hops Hsame).
    assert (row = barTarget cfg t levels st0 k) as ->.
    { specialize (Hsame k Hk). congruence. }
    unfold barTarget. rewrite renderBar_same. simpl. apply app_nil_r.
Qed.

Lemma updateBars_done :
  bandsDone cfg t levels st0 ops0 (eqBarCount cfg)
    (for_range (eqBarCount cfg) (updateBar cfg t levels) (st0, ops0)).
Proof.
  apply (for_range_inv (bandsDone cfg t levels st0 ops0)).
  - unfold bandsDone. simpl. repeat (split; [assumption || reflexivity|]).
    split; [intros i Hi; lia|]. split; [intros i _; repeat split|]. reflexivity.
  - intros k acc Hk Hinv. apply updateBar_step; assumption.
Qed.
End BandLoop.

(** ** One accepted frame *)

Lemma updateEQBars_accepted (h : Host) (cfg : Config) (t : Q) (snapshot : list Z)
      (st : State) :
  accepted cfg t st ->
  updateEQBars h cfg t snapshot st
  = (requestAnimationFrame
       (for_range (eqBarCount cfg)
          (updateBar cfg t (getEQLevels h cfg t snapshot (with_lastEqUpdate t st)).1)
          ((getEQLevels h cfg t snapshot (with_lastEqUpdate t st)).2, [])).1,
     (for_range (eqBarCount cfg)
        (updateBar cfg t (getEQLevels h cfg t snapshot (with_lastEqUpdate t st)).1)
        ((getEQLevels h cfg t snapshot (with_lastEqUpdate t st)).2, [])).2).
Proof.
  intros Hacc. unfold updateEQBars.
  destruct (Qlt_bool (t - lastEqUpdate st) (eqUpdateInterval cfg)) eqn:E.
  - apply Qlt_bool_iff in E. exfalso. exact (Qlt_not_le _ _ E Hacc).
  - destruct (getEQLevels h cfg t snapshot (with_lastEqUpdate t st)) as [levels st1].
    simpl.
    destruct (for_range (eqBarCount cfg) (updateBar cfg t levels) (st1, []))
      as [st2 ops].
    reflexivity.
Qed.

Lemma updateEQBars_throttled (h : Host) (cfg : Config) (t : Q) (snapshot : list Z)
      (st : State) :
  ~ accepted cfg t st ->
  updateEQBars h cfg t snapshot st = (requestAnimationFrame st, []).
Proof.
  intros Hacc. unfold updateEQBars.
  destruct (Qlt_bool (t - lastEqUpdate st) (eqUpdateInterval cfg)) eqn:E;
    [reflexivity|].
  exfalso. apply Hacc. unfold accepted.
  apply Qnot_lt_le. intros Hlt. apply Qlt_bool_iff in Hlt. congruence.
Qed.

Lemma frameTargets_lookup (h : Host) (cfg : Config) (t : Q) (snapshot : list Z)
      (st : State) (i : nat) :
  (i < eqBarCount cfg)%nat ->
  frameTargets h cfg t snapshot st !! i
  = Some (barTarget cfg t
            (getEQLevels h cfg t snapshot (with_lastEqUpdate t st)).1
            (getEQLevels h cfg t snapshot (with_lastEqUpdate t st)).2 i).
Proof.
  intros Hi. unfold frameTargets.
  rewrite list_lookup_fmap, lookup_seq_lt by exact Hi. reflexivity.
Qed.

Lemma frameTargets_length (h : Host) (cfg : Config) (t : Q) (snapshot : list Z)
      (st : State) :
  length (frameTargets h cfg t snapshot st) = eqBarCount cfg.
Proof. unfold frameTargets. rewrite length_map, length_seq. reflexivity. Qed.

(** The state and the change-set of an accepted frame on a shaped state. *)
Lemma accepted_frame (h : Host) (cfg : Config) (t : Q) (snapshot : list Z)
      (st : State) :
  shaped cfg st ->
  accepted cfg t st ->
  (forall i, (i < eqBarCount cfg)%nat ->
     peakLevels (updateEQBars h cfg t snapshot st).1 !! i
     = Some (newPeak cfg t
               (getEQLevels h cfg t snapshot (with_lastEqUpdate t st)).1
               (getEQLevels h cfg t snapshot (with_lastEqUpdate t st)).2 i).1)
  /\ segments (updateEQBars h cfg t snapshot st).1 = frameTargets h cfg t snapshot st
  /\ shaped cfg (updateEQBars h cfg t snapshot st).1
  /\ (segments st = frameTargets h cfg t snapshot st ->
      (updateEQBars h cfg t snapshot st).2 = []).
Proof.
  intros (Hs & Hp & Hh & Hg & Hrows) Hacc.
  rewrite (updateEQBars_accepted h cfg t snapshot st Hacc).
  destruct (getEQLevels_frame h cfg t snapshot (with_lastEqUpdate t st))
    as (Hu & Hlev & Hsm).
  destruct Hu as (_&_&_&_&_&_&_&_&_&_&_&Hup&Huh&Hus&_&_).
  simpl in Hup, Huh, Hus, Hsm.
  set (r := getEQLevels h cfg t snapshot (with_lastEqUpdate t st)) in *.
  pose proof (updateBars_done cfg t r.1 r.2 []) as Hdone.
  rewrite Hup, Huh, Hus in Hdone.
  specialize (Hdone Hp Hh Hg Hrows).
  destruct Hdone as (Hlp & Hlh & Hls & Hsame & _ & _ & _ & _ & Hall & _ & Hops).
  set (r2 := for_range (eqBarCount cfg) (updateBar cfg t r.1) (r.2, [])) in *.
  assert (segments r2.1 = frameTargets h cfg t snapshot st) as Hseg.
  { apply list_eq. intros i.
    destruct (decide (i < eqBarCount cfg)%nat) as [Hi|Hi].
    - rewrite frameTargets_lookup by exact Hi. apply Hall. exact Hi.
    - rewrite !(proj2 (lookup_ge_None _ _)); [reflexivity| |].
      + rewrite frameTargets_length. lia.
      + rewrite Hls. lia. }
  simpl. split; [|split; [exact Hseg|split]].
  - intros i Hi. apply Hall. exact Hi.
  - unfold shaped. simpl. rewrite Hsame, Hsm, Hseg.
    split; [exact Hs|]. split; [exact Hlp|]. split; [exact Hlh|].
    split; [apply frameTargets_length|].
    apply Forall_lookup. intros i row Hrow.
    assert (i < eqBarCount cfg)%nat as Hi.
    { apply lookup_lt_Some in Hrow. rewrite frameTargets_length in Hrow. exact Hrow. }
    rewrite frameTargets_lookup in Hrow by exact Hi.
    injection Hrow as <-. apply targetRow_length.
  - intros Hst. apply Hops. intros i Hi.
    rewrite Hus, Hst. apply frameTargets_lookup. exact Hi.
Qed.

Lemma shaped_init : shaped CONFIG (init CONFIG).
Proof.
  unfold shaped. vm_compute. repeat split. repeat constructor.
Qed.

Lemma accepted_init : accepted CONFIG 100 (init CONFIG).
Proof. Qclosed. Qed.

Lemma shaped_micState : shaped CONFIG micState.
Proof.
  unfold shaped. vm_compute. repeat split. repeat constructor.
Qed.

(** ** The claims on the peak tracker and the renderer *)

(** C5.  After the peak tracker has run in an accepted frame, the peak of
    every band is at least the level of the band in that frame; in
    particular a decay step sets the peak to
    [max(level, peak - peakDecay)], which is at least the level. *)
Theorem peak_never_below_level (h : Host) (cfg : Config) (t : Q)
        (snapshot : list Z) (st : State) (i : nat) :
  shaped cfg st ->
  accepted cfg t st ->
  (i < eqBarCount cfg)%nat ->
  get (getEQLevels h cfg t snapshot (with_lastEqUpdate t st)).1 i
    <= get (peakLevels (updateEQBars h cfg t snapshot st).1) i
  /\ (forall level peakLevel holdTime,
        level < peakLevel ->
        peakHoldTime cfg < t - holdTime ->
        trackPeak cfg t level (peakLevel, holdTime)
          = (Qmax level (peakLevel - peakDecay cfg), holdTime)
        /\ level <= Qmax level (peakLevel - peakDecay cfg)).
Proof.
  intros Hshape Hacc Hi. split.
  - destruct (accepted_frame h cfg t snapshot st Hshape Hacc) as (Hpeak & _).
    rewrite (get_lookup _ _ _ (Hpeak i Hi)).
    unfold newPeak. apply trackPeak_ge_level.
  - intros level peakLevel holdTime Hlt Hexp.
    split; [apply trackPeak_decay; assumption | apply Q.le_max_l].
Qed.

Lemma peak_never_below_level_witness :
  shaped CONFIG (init CONFIG)
  /\ accepted CONFIG 100 (init CONFIG)
  /\ (3 < eqBarCount CONFIG)%nat
  /\ get (getEQLevels (flatHost 0.5) CONFIG 100 []
            (with_lastEqUpdate 100 (init CONFIG))).1 3
     <= get (peakLevels (updateEQBars (flatHost 0.5) CONFIG 100 [] (init CONFIG)).1) 3.
Proof.
  assert (3 < eqBarCount CONFIG)%nat as Hi by (simpl; lia).
  split; [exact shaped_init|]. split; [exact accepted_init|]. split; [exact Hi|].
  exact (proj1 (peak_never_below_level (flatHost 0.5) CONFIG 100 [] (init CONFIG) 3
                  shaped_init accepted_init Hi)).
Defined.

(** C8.  If a frame computes for every (band, segment) pair the same
    tuple (lit, colour, top-lit, peak marker) as the accepted frame just
    before it, it makes no [classList] call and leaves every stored
    segment as it was: its change-set is empty. *)
Theorem identical_frames_give_empty_change_set (h : Host) (cfg : Config)
        (t1 t2 : Q) (snapshot1 snapshot2 : list Z) (st : State) :
  shaped cfg st ->
  accepted cfg t1 st ->
  frameTargets h cfg t2 snapshot2 (updateEQBars h cfg t1 snapshot1 st).1
    = frameTargets h cfg t1 snapshot1 st ->
  (updateEQBars h cfg t2 snapshot2 (updateEQBars h cfg t1 snapshot1 st).1).2 = []
  /\ segments (updateEQBars h cfg t2 snapshot2 (updateEQBars h cfg t1 snapshot1 st).1).1
     = segments (updateEQBars h cfg t1 snapshot1 st).1.
Proof.
  intros Hshape Hacc1 Hsame.
  destruct (accepted_frame h cfg t1 snapshot1 st Hshape Hacc1)
    as (_ & Hseg1 & Hshape1 & _).
  set (st1 := (updateEQBars h cfg t1 snapshot1 st).1) in *.
  destruct (Qlt_le_dec (t2 - lastEqUpdate st1) (eqUpdateInterval cfg)) as [Hlt|Hacc2].
  - rewrite updateEQBars_throttled
      by (intros Hacc2; exact (Qlt_not_le _ _ Hlt Hacc2)).
    split; reflexivity.
  - destruct (accepted_frame h cfg t2 snapshot2 st1 Hshape1 Hacc2)
      as (_ & Hseg2 & _ & Hops).
    split.
    + apply Hops. rewrite Hseg1, Hsame. reflexivity.
    + rewrite Hseg2, Hsame, Hseg1. reflexivity.
Qed.

Lemma identical_frames_give_empty_change_set_witness :
  shaped CONFIG micState
  /\ accepted CONFIG 100 micState
  /\ frameTargets (flatHost 0) CONFIG 200 (replicate 256 0%Z)
       (updateEQBars (flatHost 0) CONFIG 100 (replicate 256 0%Z) micState).1
     = frameTargets (flatHost 0) CONFIG 100 (replicate 256 0%Z) micState
  /\ (updateEQBars (flatHost 0) CONFIG 200 (replicate 256 0%Z)
        (updateEQBars (flatHost 0) CONFIG 100 (replicate 256 0%Z) micState).1).2 = [].
Proof.
  assert (accepted CONFIG 100 micState) as Hacc by Qclosed.
  assert (frameTargets (flatHost 0) CONFIG 200 (replicate 256 0%Z)
            (updateEQBars (flatHost 0) CONFIG 100 (replicate 256 0%Z) micState).1
          = frameTargets (flatHost 0) CONFIG 100 (replicate 256 0%Z) micState) as Hsame
    by (vm_compute; reflexivity).
  split; [exact shaped_micState|]. split; [exact Hacc|]. split; [exact Hsame|].
  exact (proj1 (identical_frames_give_empty_change_set (flatHost 0) CONFIG 100 200
                  (replicate 256 0%Z) (replicate 256 0%Z) micState
                  shaped_micState Hacc Hsame)).
Defined.

(** C2 as stated fails: the colour of a segment depends on its lit
    state.  Segment 0 of a bar whose peak marker is on segment 5 is blue
    when it is lit and has no colour when it is not. *)
Lemma segment_colour_depends_on_lit_state :
  color (segTarget 1 5 0) <> color (segTarget 0 5 0).
Proof. vm_compute. discriminate. Qed.

(** C2, amended.  After an accepted frame, the colour stored for
    segment [j] of any band is a function of [j] alone whenever the
    segment is lit or is the peak-hold marker: red for [j >= 10], amber
    for [8 <= j < 10], blue below 8 (the thresholds are constants of the
    code); a segment that is neither lit nor the marker has no colour. *)
Theorem segment_colour_by_index (h : Host) (cfg : Config) (t : Q)
        (snapshot : list Z) (st : State) (i j : nat)
        (row : list Segment) (seg : Segment) :
  shaped cfg st ->
  accepted cfg t st ->
  segments (updateEQBars h cfg t snapshot st).1 !! i = Some row ->
  row !! j = Some seg ->
  color seg = (if lit seg || isPeakHold seg then Some (zoneColor j) else None)
  /\ (zoneColor j = Red <-> (10 <= j)%nat)
  /\ (zoneColor j = Amber <-> (8 <= j < 10)%nat)
  /\ (zoneColor j = Blue <-> (j < 8)%nat).
Proof.
  intros Hshape Hacc Hrow Hseg.
  destruct (accepted_frame h cfg t snapshot st Hshape Hacc) as (_ & Hsegs & _).
  rewrite Hsegs in Hrow.
  assert (i < eqBarCount cfg)%nat as Hi.
  { apply lookup_lt_Some in Hrow. rewrite frameTargets_length in Hrow. exact Hrow. }
  rewrite frameTargets_lookup in Hrow by exact Hi. injection Hrow as <-.
  unfold barTarget in Hseg.
  assert (j < eqSegmentCount cfg)%nat as Hj.
  { apply lookup_lt_Some in Hseg. rewrite targetRow_length in Hseg. exact Hseg. }
  rewrite targetRow_lookup in Hseg by exact Hj. injection Hseg as <-.
  split; [reflexivity|].
  unfold zoneColor.
  destruct (Nat.leb_spec 10 j); destruct (Nat.leb_spec 8 j);
    repeat split; intros; try discriminate; try lia; reflexivity.
Qed.

Lemma segment_colour_by_index_witness :
  shaped CONFIG (init CONFIG)
  /\ accepted CONFIG 100 (init CONFIG)
  /\ color (segTarget 2 2 1) = Some Blue.
Proof.
  split; [exact shaped_init|]. split; [exact accepted_init|].
  assert (segments (updateEQBars (flatHost 0.5) CONFIG 100 [] (init CONFIG)).1 !! 0%nat
          = Some (targetRow CONFIG 2 2)) as Hrow by (vm_compute; reflexivity).
  assert (targetRow CONFIG 2 2 !! 1%nat = Some (segTarget 2 2 1)) as Hseg
    by (vm_compute; reflexivity).
  exact (proj1 (segment_colour_by_index (flatHost 0.5) CONFIG 100 [] (init CONFIG)
                  0 1 (targetRow CONFIG 2 2) (segTarget 2 2 1)
                  shaped_init accepted_init Hrow Hseg)).
Defined.

(** ** Audio sources *)

Lemma stopAudioSource_released (st : State) :
  micStream (stopAudioSource st) = None
  /\ audioElement (stopAudioSource st) = None
  /\ audioSource (stopAudioSource st) = None
  /\ audioMode (stopAudioSource st) = Demo
  /\ activeSources (stopAudioSource st) = 0%nat.
Proof.
  unfold stopAudioSource, stopMicStream, stopAudioElement, disconnectSource,
    activeSources.
  destruct (micStream st) eqn:Em, (audioElement st) eqn:Ee,
    (audioSource st) eqn:Es; simpl;
    rewrite ?Em, ?Ee, ?Es; simpl; rewrite ?Em, ?Ee, ?Es; simpl;
    rewrite ?Em, ?Ee, ?Es; repeat split.
Qed.

Lemma stopAudioSource_frame (st : State) :
  smoothedLevels (stopAudioSource st) = smoothedLevels st
  /\ audioContext (stopAudioSource st) = audioContext st
  /\ logs (stopAudioSource st) = logs st
  /\ hostOps (stopAudioSource st) = hostOps st ++ releaseOps st.
Proof.
  unfold stopAudioSource, stopMicStream, stopAudioElement, disconnectSource,
    releaseOps, hostCall.
  destruct (micStream st) eqn:Em, (audioElement st) eqn:Ee,
    (audioSource st) eqn:Es; simpl;
    rewrite ?Em, ?Ee, ?Es; simpl; rewrite ?Em, ?Ee, ?Es; simpl;
    rewrite ?Em, ?Ee, ?Es; simpl; rewrite <- ?app_assoc, ?app_nil_r;
    repeat split.
Qed.

Lemma stopMicrophone_frame (st : State) :
  smoothedLevels (stopMicrophone st) = smoothedLevels st
  /\ audioMode (stopMicrophone st) = Demo.
Proof.
  unfold stopMicrophone, stopMicStream, disconnectSource.
  destruct (micStream st) eqn:Em, (audioSource st) eqn:Es; simpl;
    rewrite ?Em, ?Es; simpl; rewrite ?Em, ?Es; repeat split.
Qed.

Lemma initAudioContext_levels (cfg : Config) (ctor : string + AudioContext)
      (st : State) :
  match initAudioContext cfg ctor st with
  | inl err => audioContext st = None /\ ctor = inl err
  | inr st' =>
    smoothedLevels st' = levelsAfterSwitch cfg ctor st
    /\ audioMode st' = audioMode st
    /\ micStream st' = micStream st
    /\ audioElement st' = audioElement st
    /\ audioSource st' = audioSource st
    /\ hostOps st' = hostOps st
  end.
Proof.
  unfold initAudioContext, levelsAfterSwitch.
  destruct (audioContext st) as [ctx|]; [repeat split|].
  destruct ctor as [err|ctx]; [split; reflexivity|]. simpl. repeat split.
Qed.

(** What a failed activation of the microphone leaves: the exception is
    raised before the source is connected and the mode is set. *)
Lemma activateMicrophone_fails (cfg : Config) (h : MicHost) (st st' : State)
      (err : string) :
  activateMicrophone cfg h st = inl (err, st') ->
  audioMode st' = audioMode st
  /\ audioElement st' = audioElement st
  /\ audioSource st' = audioSource st
  /\ hostOps st' = hostOps st
  /\ (micStream st' = micStream st \/ is_Some (micStream st'))
  /\ (smoothedLevels st' = smoothedLevels st
      \/ smoothedLevels st' = levelsAfterSwitch cfg (newAudioContext h) st).
Proof.
  unfold activateMicrophone.
  pose proof (initAudioContext_levels cfg (newAudioContext h) st) as Hinit.
  destruct (initAudioContext cfg (newAudioContext h) st) as [e|st1].
  - intros H. injection H as <- <-. repeat split; auto.
  - destruct Hinit as (Hsm & Hmode & Hmic & Hel & Hsrc & Hops).
    destruct (isSuspended st1) eqn:Esusp.
    + destruct (resume h) as [e|].
      * intros H. injection H as <- <-. repeat split; auto.
      * destruct (getUserMedia h) as [e|stream].
        -- intros H. injection H as <- <-.
           unfold resumeContext. destruct (audioContext st1); simpl;
             repeat split; auto.
        -- destruct (createMediaStreamSource h) as [e|source]; [|discriminate].
           intros H. injection H as <- <-.
           unfold resumeContext. destruct (audioContext st1); simpl;
             repeat split; eauto.
    + destruct (getUserMedia h) as [e|stream].
      * intros H. injection H as <- <-. repeat split; auto.
      * destruct (createMediaStreamSource h) as [e|source]; [|discriminate].
        intros H. injection H as <- <-. simpl. repeat split; eauto.
Qed.

Lemma levelsAfterSwitch_failed (cfg : Config) (err : string) (st : State) :
  levelsAfterSwitch cfg (inl err) st = smoothedLevels st.
Proof. unfold levelsAfterSwitch. destruct (audioContext st); reflexivity. Qed.

Lemma levelsAfterSwitch_context (cfg : Config) (ctor : string + AudioContext)
      (st : State) :
  is_Some (audioContext st) -> levelsAfterSwitch cfg ctor st = smoothedLevels st.
Proof. intros [ctx H]. unfold levelsAfterSwitch. rewrite H. reflexivity. Qed.

Lemma activateMicrophone_levels (cfg : Config) (h : MicHost) (st : State) :
  smoothedLevels
    match activateMicrophone cfg h st with
    | inl (err, st') => micError err st'
    | inr st' => st'
    end
  = levelsAfterSwitch cfg (newAudioContext h) st.
Proof.
  unfold activateMicrophone.
  pose proof (initAudioContext_levels cfg (newAudioContext h) st) as Hinit.
  destruct (initAudioContext cfg (newAudioContext h) st) as [e|st1].
  - destruct Hinit as [_ ->]. simpl. rewrite levelsAfterSwitch_failed. reflexivity.
  - destruct Hinit as (<- & _).
    assert (smoothedLevels (resumeContext st1) = smoothedLevels st1) as Hres
      by (unfold resumeContext; destruct (audioContext st1); reflexivity).
    destruct (isSuspended st1);
      [destruct (resume h) as [e|]; [reflexivity|]|];
      destruct (getUserMedia h) as [e|stream]; simpl; rewrite ?Hres;
      try reflexivity;
      destruct (createMediaStreamSource h) as [e|source]; simpl; rewrite ?Hres;
      reflexivity.
Qed.

Lemma handleFileSelect_levels (cfg : Config) (h : FileHost) (name : string)
      (st : State) :
  smoothedLevels (handleFileSelect cfg h (Some name) st).1
  = levelsAfterSwitch cfg (fileAudioContext h) (stopAudioSource st).
Proof.
  unfold handleFileSelect.
  pose proof (initAudioContext_levels cfg (fileAudioContext h) (stopAudioSource st))
    as Hinit.
  destruct (initAudioContext cfg (fileAudioContext h) (stopAudioSource st))
    as [e|st1].
  - destruct Hinit as [_ ->]. simpl. rewrite levelsAfterSwitch_failed. reflexivity.
  - destruct Hinit as (<- & _).
    assert (smoothedLevels (stopAudioElement st1) = smoothedLevels st1) as Hel
      by (unfold stopAudioElement; destruct (audioElement st1); reflexivity).
    destruct (createMediaElementSource h) as [e|source]; simpl; exact Hel.
Qed.

Lemma levelsAfterSwitch_stop (cfg : Config) (ctor : string + AudioContext)
      (st : State) :
  levelsAfterSwitch cfg ctor (stopAudioSource st) = levelsAfterSwitch cfg ctor st.
Proof.
  unfold levelsAfterSwitch.
  destruct (stopAudioSource_frame st) as (-> & -> & _). reflexivity.
Qed.

(** ** The claims on the audio sources *)

(** C4 as stated fails: the first switch from the demo to the microphone
    creates the audio context, and [initAudioContext] then sets the
    smoothed levels back to 0. *)
Lemma first_activation_resets_smoothed_levels :
  smoothedLevels (toggleMicrophone CONFIG grantingHost warmState)
  <> smoothedLevels warmState.
Proof. vm_compute. discriminate. Qed.

(** C4, amended.  [stopAudioSource] and [stopMicrophone] never change the
    smoothed levels, and neither does a switch to the microphone or to a
    file once the audio context exists; only the switch that creates the
    audio context (the first activation of a live source) sets every
    smoothed level to 0. *)
Theorem source_switch_smoothed_levels (cfg : Config) (mh : MicHost) (fh : FileHost)
        (name : string) (st : State) :
  smoothedLevels (stopAudioSource st) = smoothedLevels st
  /\ smoothedLevels (stopMicrophone st) = smoothedLevels st
  /\ smoothedLevels (toggleMicrophone cfg mh st)
     = (if bool_decide (audioMode st = Mic) then smoothedLevels st
        else levelsAfterSwitch cfg (newAudioContext mh) st)
  /\ smoothedLevels (handleFileSelect cfg fh (Some name) st).1
     = levelsAfterSwitch cfg (fileAudioContext fh) st
  /\ smoothedLevels (handleFileSelect cfg fh None st).1 = smoothedLevels st
  /\ (forall ctor, is_Some (audioContext st) ->
        levelsAfterSwitch cfg ctor st = smoothedLevels st)
  /\ (forall ctx, audioContext st = None ->
        levelsAfterSwitch cfg (inr ctx) st = replicate (eqBarCount cfg) 0).
Proof.
  split; [apply stopAudioSource_frame|].
  split; [apply stopMicrophone_frame|].
  split; [|split; [|split; [reflexivity|split]]].
  - unfold toggleMicrophone. case_bool_decide.
    + apply stopMicrophone_frame.
    + rewrite activateMicrophone_levels. apply levelsAfterSwitch_stop.
  - rewrite handleFileSelect_levels. apply levelsAfterSwitch_stop.
  - intros ctor Hctx. apply levelsAfterSwitch_context. exact Hctx.
  - intros ctx Hnone. unfold levelsAfterSwitch. rewrite Hnone. reflexivity.
Qed.

Lemma micError_frame (err : string) (st : State) :
  audioMode (micError err st) = audioMode st
  /\ micStream (micError err st) = micStream st
  /\ audioElement (micError err st) = audioElement st
  /\ audioSource (micError err st) = audioSource st
  /\ hostOps (micError err st) = hostOps st
  /\ output (micError err st) = "MIC ACCESS DENIED"%string
  /\ last (logs (micError err st)) = Some ("MIC ERROR: " ++ err)%string.
Proof.
  unfold micError, setOutput, addLog. simpl. repeat split. apply last_snoc.
Qed.

Lemma activeSources_le_1 (st : State) :
  audioElement st = None -> (activeSources st <= 1)%nat.
Proof.
  intros H. unfold activeSources. rewrite H. destruct (micStream st); simpl; lia.
Qed.

Lemma liveData_demo (st : State) : audioMode st = Demo -> liveData st = None.
Proof.
  intros H. unfold liveData. rewrite bool_decide_eq_true_2 by exact H. reflexivity.
Qed.

Lemma updateEQBars_reschedules (h : Host) (cfg : Config) (t : Q) (snapshot : list Z)
      (st : State) :
  is_Some (eqAnimationId (updateEQBars h cfg t snapshot st).1).
Proof.
  unfold updateEQBars.
  destruct (Qlt_bool (t - lastEqUpdate st) (eqUpdateInterval cfg)).
  - simpl. eexists. reflexivity.
  - destruct (getEQLevels h cfg t snapshot (with_lastEqUpdate t st)) as [levels st1].
    destruct (for_range (eqBarCount cfg) (updateBar cfg t levels) (st1, []))
      as [st2 ops].
    simpl. eexists. reflexivity.
Qed.

(** A file selection that raises has released what the state held and
    leaves the demo mode, with at most the new element open. *)
Lemma failed_file_selection_falls_back_to_demo (cfg : Config) (h : FileHost)
      (name err : string) (st : State) :
  (handleFileSelect cfg h (Some name) st).2 = Some err ->
  audioMode (handleFileSelect cfg h (Some name) st).1 = Demo
  /\ micStream (handleFileSelect cfg h (Some name) st).1 = None
  /\ audioSource (handleFileSelect cfg h (Some name) st).1 = None
  /\ hostOps (handleFileSelect cfg h (Some name) st).1 = hostOps st ++ releaseOps st.
Proof.
  unfold handleFileSelect.
  destruct (stopAudioSource_released st) as (Hmic & Hel & Hsrc & Hmode & _).
  destruct (stopAudioSource_frame st) as (_ & _ & _ & Hops).
  pose proof (initAudioContext_levels cfg (fileAudioContext h) (stopAudioSource st))
    as Hinit.
  destruct (initAudioContext cfg (fileAudioContext h) (stopAudioSource st))
    as [e|st1].
  - simpl. intros _. repeat split; assumption.
  - destruct Hinit as (_ & Hmode1 & Hmic1 & Hel1 & Hsrc1 & Hops1).
    destruct (createMediaElementSource h) as [e|source]; [|discriminate].
    simpl. intros _.
    unfold stopAudioElement. rewrite Hel1, Hel.
    repeat split; congruence.
Qed.

(** Run one after the other, the handlers never hold two sources open. *)
Lemma handlers_keep_one_source (cfg : Config) (mh : MicHost) (fh : FileHost)
      (file : option string) (st : State) :
  (activeSources st <= 1)%nat ->
  (activeSources (stopAudioSource st) <= 1)%nat
  /\ (activeSources (stopMicrophone st) <= 1)%nat
  /\ (activeSources (toggleMicrophone cfg mh st) <= 1)%nat
  /\ (activeSources (handleFileSelect cfg fh file st).1 <= 1)%nat.
Proof.
  intros Hone.
  destruct (stopAudioSource_released st) as (Hmic & Hel & Hsrc & Hmode & Hzero).
  assert (activeSources (stopMicrophone st) <= 1)%nat as Hstop.
  { unfold stopMicrophone, stopMicStream, disconnectSource, activeSources in *.
    destruct (micStream st) eqn:Em, (audioSource st) eqn:Es,
      (audioElement st) eqn:Ee; simpl;
      rewrite ?Em, ?Es, ?Ee; simpl; rewrite ?Em, ?Es, ?Ee; simpl;
      rewrite ?Ee; lia. }
  split; [lia|]. split; [exact Hstop|]. split.
  - unfold toggleMicrophone. case_bool_decide; [exact Hstop|].
    apply activeSources_le_1.
    unfold activateMicrophone.
    pose proof (initAudioContext_levels cfg (newAudioContext mh) (stopAudioSource st))
      as Hinit.
    destruct (initAudioContext cfg (newAudioContext mh) (stopAudioSource st))
      as [e|st1]; [exact Hel|].
    destruct Hinit as (_ & _ & _ & Hel1 & _).
    assert (audioElement (resumeContext st1) = None) as Hres
      by (unfold resumeContext; destruct (audioContext st1); simpl; congruence).
    destruct (isSuspended st1);
      [destruct (resume mh) as [e|]; [simpl; congruence|]|];
      destruct (getUserMedia mh) as [e|stream]; simpl; try congruence;
      destruct (createMediaStreamSource mh) as [e|source]; simpl; congruence.
  - destruct file as [name|]; [|exact Hone].
    unfold handleFileSelect.
    pose proof (initAudioContext_levels cfg (fileAudioContext fh) (stopAudioSource st))
      as Hinit.
    destruct (initAudioContext cfg (fileAudioContext fh) (stopAudioSource st))
      as [e|st1]; [simpl; lia|].
    destruct Hinit as (_ & _ & Hmic1 & Hel1 & _).
    assert (micStream (stopAudioElement st1) = None) as Hm
      by (unfold stopAudioElement; destruct (audioElement st1); simpl; congruence).
    destruct (createMediaElementSource fh) as [e|source]; simpl;
      unfold activeSources; simpl; rewrite Hm; simpl; lia.
Qed.

(** Where a failed activation leaves the stream: none is held, unless
    the stream was granted and could not be connected. *)
Lemma activateMicrophone_fails_stream (cfg : Config) (h : MicHost)
      (st st' : State) (err : string) :
  activateMicrophone cfg h st = inl (err, st') ->
  micStream st' = micStream st
  \/ (exists stream, getUserMedia h = inr stream
                     /\ createMediaStreamSource h = inl err
                     /\ micStream st' = Some stream).
Proof.
  unfold activateMicrophone.
  pose proof (initAudioContext_levels cfg (newAudioContext h) st) as Hinit.
  destruct (initAudioContext cfg (newAudioContext h) st) as [e|st1].
  - intros H. injection H as <- <-. left. reflexivity.
  - destruct Hinit as (_ & _ & Hmic & _).
    destruct (isSuspended st1) eqn:Esusp.
    + destruct (resume h) as [e|].
      * intros H. injection H as <- <-. left. exact Hmic.
      * destruct (getUserMedia h) as [e|stream].
        -- intros H. injection H as <- <-. left.
           unfold resumeContext. destruct (audioContext st1); exact Hmic.
        -- destruct (createMediaStreamSource h) as [e|source]; [|discriminate].
           intros H. injection H as <- <-. right. exists stream.
           repeat split.
    + destruct (getUserMedia h) as [e|stream].
      * intros H. injection H as <- <-. left. exact Hmic.
      * destruct (createMediaStreamSource h) as [e|source]; [|discriminate].
        intros H. injection H as <- <-. right. exists stream. repeat split.
Qed.

(** X31.  When no other handler runs while [toggleMicrophone] waits, a
    failed activation of the microphone (the audio context cannot be
    created or resumed, the permission is denied, or the stream cannot
    be connected) has released whatever the state held before, by
    [stopAudioSource]; leaves the demo mode with no file element and no
    connected source; reports the error in the log and on the output
    display; and the next frame takes the demo branch.  No stream is
    held afterwards, except when the stream was granted and
    [createMediaStreamSource] threw: that stream stays open. *)
Theorem failed_microphone_activation_falls_back_to_demo
        (cfg : Config) (mh : MicHost) (st st' : State) (err : string) :
  audioMode st <> Mic ->
  activateMicrophone cfg mh (stopAudioSource st) = inl (err, st') ->
  hostOps (toggleMicrophone cfg mh st) = hostOps st ++ releaseOps st
  /\ (forall stream, micStream st = Some stream ->
        TrackStop stream ∈ hostOps (toggleMicrophone cfg mh st))
  /\ (forall el, audioElement st = Some el ->
        ElementPause el ∈ hostOps (toggleMicrophone cfg mh st))
  /\ (forall source, audioSource st = Some source ->
        SourceDisconnect source ∈ hostOps (toggleMicrophone cfg mh st))
  /\ audioMode (toggleMicrophone cfg mh st) = Demo
  /\ audioElement (toggleMicrophone cfg mh st) = None
  /\ audioSource (toggleMicrophone cfg mh st) = None
  /\ (micStream (toggleMicrophone cfg mh st) = None
      \/ (exists stream,
            getUserMedia mh = inr stream
            /\ createMediaStreamSource mh = inl err
            /\ micStream (toggleMicrophone cfg mh st) = Some stream))
  /\ output (toggleMicrophone cfg mh st) = "MIC ACCESS DENIED"%string
  /\ last (logs (toggleMicrophone cfg mh st)) = Some ("MIC ERROR: " ++ err)%string
  /\ liveData (toggleMicrophone cfg mh st) = None.
Proof.
  intros Hmode Hfail.
  assert (toggleMicrophone cfg mh st = micError err st') as Hfinal.
  { unfold toggleMicrophone. rewrite bool_decide_eq_false_2 by exact Hmode.
    rewrite Hfail. reflexivity. }
  destruct (stopAudioSource_released st) as (Hmic0 & Hel0 & Hsrc0 & Hmode0 & Hact0).
  destruct (stopAudioSource_frame st) as (_ & _ & _ & Hops0).
  destruct (activateMicrophone_fails cfg mh _ _ _ Hfail)
    as (Hmode1 & Hel1 & Hsrc1 & Hops1 & _ & _).
  pose proof (activateMicrophone_fails_stream cfg mh _ _ _ Hfail) as Hstream.
  destruct (micError_frame err st') as (Hmode2 & Hmic2 & Hel2 & Hsrc2 & Hops2 & Hout & Hlog).
  rewrite Hfinal.
  assert (hostOps (micError err st') = hostOps st ++ releaseOps st) as Hops
    by congruence.
  assert (audioMode (micError err st') = Demo) as Hdemo by congruence.
  assert (audioElement (micError err st') = None) as Helem by congruence.
  split; [exact Hops|].
  split; [|split; [|split]].
  - intros stream Hs. rewrite Hops. apply elem_of_app. right.
    unfold releaseOps. rewrite Hs. apply elem_of_app. left. apply list_elem_of_here.
  - intros el He. rewrite Hops. apply elem_of_app. right.
    unfold releaseOps. rewrite He. apply elem_of_app. right.
    apply elem_of_app. left. apply list_elem_of_here.
  - intros source Hs. rewrite Hops. apply elem_of_app. right.
    unfold releaseOps. rewrite Hs. apply elem_of_app. right.
    apply elem_of_app. right. apply list_elem_of_here.
  - split; [exact Hdemo|]. split; [exact Helem|].
    split; [congruence|].
    split; [|split; [exact Hout|split; [exact Hlog|apply liveData_demo; exact Hdemo]]].
    rewrite Hmic2.
    destruct Hstream as [Hsame|(stream & Hg & Hc & Hs)].
    + left. congruence.
    + right. exists stream. auto.
Qed.

Lemma failed_microphone_activation_falls_back_to_demo_witness :
  audioMode fileState <> Mic
  /\ activateMicrophone CONFIG denyingHost (stopAudioSource fileState)
     = inl ("Permission denied"%string, stopAudioSource fileState)
  /\ audioMode (toggleMicrophone CONFIG denyingHost fileState) = Demo
  /\ ElementPause 3 ∈ hostOps (toggleMicrophone CONFIG denyingHost fileState).
Proof.
  assert (audioMode fileState <> Mic) as Hmode by (vm_compute; discriminate).
  assert (activateMicrophone CONFIG denyingHost (stopAudioSource fileState)
          = inl ("Permission denied"%string, stopAudioSource fileState)) as Hfail
    by (vm_compute; reflexivity).
  split; [exact Hmode|]. split; [exact Hfail|].
  destruct (failed_microphone_activation_falls_back_to_demo CONFIG denyingHost
              fileState (stopAudioSource fileState) "Permission denied"%string
              Hmode Hfail)
    as (_ & _ & Hel & _ & Hdemo & _).
  split; [exact Hdemo|]. apply Hel. vm_compute. reflexivity.
Defined.

(** ** Two runs of the demo synthesis *)

Lemma for_range_rel {S T : Type} (R : nat -> S -> T -> Prop) (n : nat)
      (f : nat -> S -> S) (g : nat -> T -> T) (s : S) (u : T) :
  R 0%nat s u ->
  (forall i a b, (i < n)%nat -> R i a b -> R (Datatypes.S i) (f i a) (g i b)) ->
  R n (for_range n f s) (for_range n g u).
Proof.
  intros H0 Hstep.
  assert (forall k, (k <= n)%nat -> R k (for_range k f s) (for_range k g u)) as Hall.
  { induction k as [|k IH]; intros Hk.
    - exact H0.
    - rewrite !for_range_S. apply Hstep; [lia|]. apply IH. lia. }
  apply Hall. lia.
Qed.

Lemma demoBase_ext (hA hB : Host) (t : Q) (i : nat) (dA dB : Q) :
  (forall x, sin hA x = sin hB x) -> dA = dB ->
  demoBase hA t i dA = demoBase hB t i dB.
Proof.
  intros Hsin ->. unfold demoBase. destruct (demoPhases t i) as [[p1 p2] p3].
  rewrite !Hsin. reflexivity.
Qed.

Lemma liveData_demoBand (h : Host) (cfg : Config) (t : Q) (i : nat)
      (acc : list Q * State) :
  liveData (demoBand h cfg t i acc).2 = liveData acc.2.
Proof. destruct acc as [levels st]. reflexivity. Qed.

(** One demo frame of two runs that agree on the smoothed levels, the
    sine and the jitter draws to come. *)
Lemma getEQLevels_demo_agree (hA hB : Host) (cfg : Config) (t : Q)
      (snapshotA snapshotB : list Z) (stA stB : State) :
  liveData stA = None -> liveData stB = None ->
  smoothedLevels stA = smoothedLevels stB ->
  (forall x, sin hA x = sin hB x) ->
  (forall k, random hA (randomCalls stA + k) = random hB (randomCalls stB + k)) ->
  (getEQLevels hA cfg t snapshotA stA).1 = (getEQLevels hB cfg t snapshotB stB).1
  /\ smoothedLevels (getEQLevels hA cfg t snapshotA stA).2
     = smoothedLevels (getEQLevels hB cfg t snapshotB stB).2
  /\ liveData (getEQLevels hA cfg t snapshotA stA).2 = None
  /\ liveData (getEQLevels hB cfg t snapshotB stB).2 = None
  /\ randomCalls (getEQLevels hA cfg t snapshotA stA).2
     = (randomCalls stA + eqBarCount cfg)%nat
  /\ randomCalls (getEQLevels hB cfg t snapshotB stB).2
     = (randomCalls stB + eqBarCount cfg)%nat.
Proof.
  intros HliveA HliveB Hsm Hsin Hdraws.
  unfold getEQLevels. rewrite HliveA, HliveB.
  apply (for_range_rel
           (fun k a b =>
              a.1 = b.1
              /\ smoothedLevels a.2 = smoothedLevels b.2
              /\ liveData a.2 = None
              /\ liveData b.2 = None
              /\ randomCalls a.2 = (randomCalls stA + k)%nat
              /\ randomCalls b.2 = (randomCalls stB + k)%nat)).
  - simpl. rewrite !Nat.add_0_r. repeat split; assumption.
  - intros i a b Hi (Hl & Hs & HlA & HlB & HrA & HrB).
    rewrite !liveData_demoBand.
    destruct a as [levelsA sA], b as [levelsB sB]. simpl in *.
    rewrite HrA, HrB, Hs, Hl.
    rewrite (demoBase_ext hA hB t i _ _ Hsin (Hdraws i)).
    repeat split; try assumption; lia.
Qed.




(** The level of band [i] in a demo frame. *)
Lemma getEQLevels_demo_lookup (h : Host) (cfg : Config) (t : Q)
      (snapshot : list Z) (st : State) (i : nat) :
  liveData st = None ->
  length (smoothedLevels st) = eqBarCount cfg ->
  (i < eqBarCount cfg)%nat ->
  (getEQLevels h cfg t snapshot st).1 !! i
  = Some (Qmax 0.05
            (Qmin 1
               (smooth (smoothing cfg) (get (smoothedLevels st) i)
                  (demoBase h t i (random h (randomCalls st + i)))))).
Proof.
  intros Hlive Hlen Hi. unfold getEQLevels. rewrite Hlive.
  assert (forall k acc,
            acc = for_range k (demoBand h cfg t) (replicate (eqBarCount cfg) 0, st) ->
            (k <= eqBarCount cfg)%nat ->
            length acc.1 = eqBarCount cfg
            /\ length (smoothedLevels acc.2) = eqBarCount cfg
            /\ randomCalls acc.2 = (randomCalls st + k)%nat
            /\ (forall j, (j < k)%nat ->
                  acc.1 !! j
                  = Some (Qmax 0.05
                            (Qmin 1
                               (smooth (smoothing cfg) (get (smoothedLevels st) j)
                                  (demoBase h t j (random h (randomCalls st + j)))))))
            /\ (forall j, (k <= j)%nat ->
                  smoothedLevels acc.2 !! j = smoothedLevels st !! j)) as Hinv.
  { induction k as [|k IH]; intros acc -> Hk.
    - simpl. rewrite length_replicate, Nat.add_0_r.
      repeat split; try assumption; try reflexivity. intros j Hj. lia.
    - rewrite for_range_S.
      destruct (IH _ eq_refl ltac:(lia)) as (Hl & Hs & Hr & Hdone & Hrest).
      destruct (for_range k (demoBand h cfg t) (replicate (eqBarCount cfg) 0, st))
        as [levels sk].
      simpl in *. unfold set. rewrite !length_insert.
      split; [exact Hl|]. split; [exact Hs|]. split; [lia|]. split.
      + intros j Hj. destruct (decide (j = k)) as [->|Hne].
        * rewrite list_lookup_insert_eq by lia.
          rewrite Hr, (get_agree _ _ _ (Hrest k (le_n k))). reflexivity.
        * rewrite list_lookup_insert_ne by congruence. apply Hdone. lia.
      + intros j Hj. rewrite list_lookup_insert_ne by lia. apply Hrest. lia. }
  destruct (Hinv (eqBarCount cfg) _ eq_refl (le_n _)) as (_ & _ & _ & Hall & _).
  apply Hall. exact Hi.
Qed.

(** Whatever the sine of the host (with values in [-1,1]), a different
    jitter draw gives a different demo level to a band whose smoothed
    level lies between 0.3 and 0.9, where no clamp is active. *)
Lemma jitter_shows_in_demo_level (hA hB : Host) (t : Q) (snapshot : list Z)
      (st : State) (i : nat) :
  (forall x, sin hA x = sin hB x) ->
  (forall x, -1 <= sin hA x <= 1) ->
  liveData st = None ->
  length (smoothedLevels st) = eqBarCount CONFIG ->
  (i < eqBarCount CONFIG)%nat ->
  0.3 <= get (smoothedLevels st) i <= 0.9 ->
  0 <= random hA (randomCalls st + i) < 1 ->
  0 <= random hB (randomCalls st + i) < 1 ->
  ~ random hA (randomCalls st + i) == random hB (randomCalls st + i) ->
  ~ get (getEQLevels hA CONFIG t snapshot st).1 i
    == get (getEQLevels hB CONFIG t snapshot st).1 i.
Proof.
  intros Hsin Hbound Hlive Hlen Hi Hprev HdA HdB Hdiff.
  rewrite (get_lookup _ _ _ (getEQLevels_demo_lookup hA CONFIG t snapshot st i Hlive Hlen Hi)).
  rewrite (get_lookup _ _ _ (getEQLevels_demo_lookup hB CONFIG t snapshot st i Hlive Hlen Hi)).
  unfold demoBase. destruct (demoPhases t i) as [[p1 p2] p3].
  rewrite <- !Hsin.
  pose proof (Hbound p1) as H1. pose proof (Hbound p2) as H2.
  pose proof (Hbound p3) as H3.
  set (s1 := sin hA p1) in *. set (s2 := sin hA p2) in *. set (s3 := sin hA p3) in *.
  set (dA := random hA (randomCalls st + i)) in *.
  set (dB := random hB (randomCalls st + i)) in *.
  set (prev := get (smoothedLevels st) i) in *.
  clearbody s1 s2 s3 dA dB prev.
  unfold smooth. simpl.
  rewrite !Q.min_r by lra. rewrite !Q.max_r by lra.
  intros Heq. apply Hdiff. lra.
Qed.

(** ** The claim on the demo synthesis *)




(** ** Reachable states are shaped *)

Lemma buildEQBars_shaped (cfg : Config) (st : State) : shaped cfg (buildEQBars cfg st).
Proof.
  unfold buildEQBars.
  set (row := for_range (eqSegmentCount cfg)
                (fun (_ : nat) (bs : list Segment) => bs ++ [newSegment]) []).
  assert (length row = eqSegmentCount cfg) as Hrow.
  { unfold row.
    apply (for_range_inv (fun k (bs : list Segment) => length bs = k)).
    - reflexivity.
    - intros k bs _ Hk. rewrite length_app. simpl. lia. }
  assert (forall k s,
            s = for_range k
                  (fun (_ : nat) (s : State) => with_segments (segments s ++ [row]) s)
                  (with_peakHoldTimes (replicate (eqBarCount cfg) 0)
                     (with_peakLevels (replicate (eqBarCount cfg) 0)
                        (with_smoothedLevels (replicate (eqBarCount cfg) 0)
                           (with_segments [] st)))) ->
            length (smoothedLevels s) = eqBarCount cfg
            /\ length (peakLevels s) = eqBarCount cfg
            /\ length (peakHoldTimes s) = eqBarCount cfg
            /\ length (segments s) = k
            /\ Forall (fun r => length r = eqSegmentCount cfg) (segments s)) as Hinv.
  { induction k as [|k IH]; intros s ->.
    - simpl. rewrite !length_replicate. repeat split. constructor.
    - rewrite for_range_S.
      destruct (IH _ eq_refl) as (Hs & Hp & Hh & Hlen & Hrows).
      simpl. rewrite length_app. simpl.
      split; [exact Hs|]. split; [exact Hp|]. split; [exact Hh|].
      split; [lia|]. apply Forall_app. split; [exact Hrows|].
      constructor; [exact Hrow|constructor]. }
  exact (Hinv (eqBarCount cfg) _ eq_refl).
Qed.

Lemma requestAnimationFrame_shaped (cfg : Config) (st : State) :
  shaped cfg st -> shaped cfg (requestAnimationFrame st).
Proof. intros H. exact H. Qed.

Lemma init_shaped (cfg : Config) : shaped cfg (init cfg).
Proof. apply requestAnimationFrame_shaped, buildEQBars_shaped. Qed.

Lemma updateEQBars_shaped (h : Host) (cfg : Config) (t : Q) (snapshot : list Z)
      (st : State) :
  shaped cfg st -> shaped cfg (updateEQBars h cfg t snapshot st).1.
Proof.
  intros Hshape.
  destruct (Qlt_le_dec (t - lastEqUpdate st) (eqUpdateInterval cfg)) as [Hlt|Hacc].
  - rewrite updateEQBars_throttled
      by (intros Hacc; exact (Qlt_not_le _ _ Hlt Hacc)).
    exact Hshape.
  - apply accepted_frame; assumption.
Qed.

Lemma stopAudioSource_shaped (cfg : Config) (st : State) :
  shaped cfg st -> shaped cfg (stopAudioSource st).
Proof.
  intros H. unfold shaped, stopAudioSource, stopMicStream, stopAudioElement,
    disconnectSource in *.
  destruct (micStream st) eqn:Em, (audioElement st) eqn:Ee,
    (audioSource st) eqn:Es; simpl;
    rewrite ?Em, ?Ee, ?Es; simpl; rewrite ?Em, ?Ee, ?Es; simpl;
    rewrite ?Em, ?Ee, ?Es; exact H.
Qed.

Lemma initAudioContext_shaped (cfg : Config) (ctor : string + AudioContext)
      (st st' : State) :
  shaped cfg st -> initAudioContext cfg ctor st = inr st' -> shaped cfg st'.
Proof.
  intros H. unfold initAudioContext.
  destruct (audioContext st); [intros E; injection E as <-; exact H|].
  destruct ctor as [err|ctx]; [discriminate|].
  intros E. injection E as <-.
  destruct H as (_ & _ & _ & Hseg & Hrows).
  unfold shaped. simpl. rewrite !length_replicate. repeat split; assumption.
Qed.

Lemma toggleMicrophone_shaped (cfg : Config) (mh : MicHost) (st : State) :
  shaped cfg st -> shaped cfg (toggleMicrophone cfg mh st).
Proof.
  intros Hst. unfold toggleMicrophone. case_bool_decide.
  - unfold shaped, stopMicrophone, stopMicStream, disconnectSource in *.
    destruct (micStream st) eqn:Em, (audioSource st) eqn:Es; simpl;
      rewrite ?Em, ?Es; simpl; rewrite ?Em, ?Es; exact Hst.
  - pose proof (stopAudioSource_shaped cfg st Hst) as Hstop.
    unfold activateMicrophone.
    destruct (initAudioContext cfg (newAudioContext mh) (stopAudioSource st))
      as [e|st1] eqn:Einit; [exact Hstop|].
    pose proof (initAudioContext_shaped cfg _ _ _ Hstop Einit) as Hinit.
    assert (shaped cfg (resumeContext st1)) as Hres
      by (unfold resumeContext; destruct (audioContext st1); exact Hinit).
    destruct (isSuspended st1);
      [destruct (resume mh) as [e|]; [exact Hinit|]|];
      destruct (getUserMedia mh) as [e|stream]; try assumption;
      destruct (createMediaStreamSource mh) as [e|source]; assumption.
Qed.

(** ** Further properties of the level mapper and the smoother *)

Lemma Qfloor_ofNat (n : nat) : Qfloor (ofNat n) = Z.of_nat n.
Proof. unfold ofNat. apply Qfloor_Z. Qed.

Lemma ofNat_nonneg (n : nat) : 0 <= ofNat n.
Proof.
  unfold ofNat. change 0 with (inject_Z 0). rewrite <- Zle_Qle. lia.
Qed.

(** X1.  The number of lit segments of a bar is [floor(level * M)]: for
    a level in [0,1] it lies between 0 and the segment count [M]; it is 0
    for level 0 and [M] for level 1. *)
Theorem litCount_within_bar (cfg : Config) (level : Q) :
  0 <= level <= 1 ->
  (0 <= litCountOf cfg level <= Z.of_nat (eqSegmentCount cfg))%Z
  /\ (level == 0 -> litCountOf cfg level = 0%Z)
  /\ (level == 1 -> litCountOf cfg level = Z.of_nat (eqSegmentCount cfg)).
Proof.
  intros [H0 H1]. unfold litCountOf.
  pose proof (ofNat_nonneg (eqSegmentCount cfg)) as HM.
  split; [split|split].
  - change 0%Z with (Qfloor 0). apply Qfloor_resp_le. nra.
  - rewrite <- Qfloor_ofNat. apply Qfloor_resp_le. nra.
  - intros E. rewrite E, Qmult_0_l. reflexivity.
  - intros E. rewrite E, Qmult_1_l. apply Qfloor_ofNat.
Qed.

Lemma litCount_within_bar_witness :
  0 <= 0.5 <= 1 /\ (0 <= litCountOf CONFIG 0.5 <= 12)%Z.
Proof.
  assert (0 <= 0.5 <= 1) as H by (split; Qclosed).
  split; [exact H|]. exact (proj1 (litCount_within_bar CONFIG 0.5 H)).
Defined.

(** X2.  The peak segment [min(M - 1, floor(peak * M))] is a segment of
    the bar whenever the peak is not negative and the bar has a segment;
    a peak of 1 or more sits on the top segment. *)
Theorem peakSegment_within_bar (cfg : Config) (peakLevel : Q) :
  (1 <= eqSegmentCount cfg)%nat ->
  0 <= peakLevel ->
  (0 <= peakSegmentOf cfg peakLevel <= Z.of_nat (eqSegmentCount cfg) - 1)%Z
  /\ (1 <= peakLevel ->
      peakSegmentOf cfg peakLevel = (Z.of_nat (eqSegmentCount cfg) - 1)%Z).
Proof.
  intros HM Hp. unfold peakSegmentOf.
  pose proof (ofNat_nonneg (eqSegmentCount cfg)) as HMq.
  assert (0 <= Qfloor (peakLevel * ofNat (eqSegmentCount cfg)))%Z as Hfl.
  { change 0%Z with (Qfloor 0). apply Qfloor_resp_le. nra. }
  split; [lia|].
  intros H1.
  assert (Z.of_nat (eqSegmentCount cfg)
          <= Qfloor (peakLevel * ofNat (eqSegmentCount cfg)))%Z.
  { rewrite <- Qfloor_ofNat at 1. apply Qfloor_resp_le. nra. }
  lia.
Qed.

Lemma peakSegment_within_bar_witness :
  (1 <= eqSegmentCount CONFIG)%nat /\ 0 <= 0.98
  /\ (0 <= peakSegmentOf CONFIG 0.98 <= 11)%Z.
Proof.
  assert (1 <= eqSegmentCount CONFIG)%nat as HM by (simpl; lia).
  assert (0 <= 0.98) as Hp by Qclosed.
  split; [exact HM|]. split; [exact Hp|].
  exact (proj1 (peakSegment_within_bar CONFIG 0.98 HM Hp)).
Defined.

(** X3.  A band whose lower edge is at or above the Nyquist frequency
    reads no bin and gets level 0, whatever the spectrum and the gain. *)
Theorem band_above_nyquist_is_silent (cfg : Config) (sr : Q) (data : list Z)
        (i : nat) :
  0 < sr ->
  (1 <= length data)%nat ->
  sr / 2 <= get (frequencyBands cfg) i ->
  binRange (lowBinOf (get (frequencyBands cfg) i) (sr / 2) (Z.of_nat (length data)))
           (highBinOf (get (frequencyBands cfg) (i + 1)) (sr / 2)
              (Z.of_nat (length data))) = []
  /\ bandLevel cfg sr data i == 0.
Proof.
  intros Hsr HB Habove.
  pose proof (nyquist_pos sr Hsr) as Hnyq.
  set (B := Z.of_nat (length data)).
  set (lo := lowBinOf (get (frequencyBands cfg) i) (sr / 2) B).
  set (hi := highBinOf (get (frequencyBands cfg) (i + 1)) (sr / 2) B).
  assert (B <= lo)%Z as Hlo.
  { unfold lo, lowBinOf. rewrite <- (Qfloor_Z B) at 1. apply Qfloor_resp_le.
    assert (0 < inject_Z B) as HBq
      by (change 0 with (inject_Z 0); rewrite <- Zlt_Qlt; unfold B; lia).
    assert (1 <= get (frequencyBands cfg) i / (sr / 2)) as Hq
      by (apply Qle_shift_div_l; [exact Hnyq|]; lra).
    nra. }
  pose proof (highBinOf_le (get (frequencyBands cfg) (i + 1)) (sr / 2) B) as Hhi.
  fold hi in Hhi.
  split.
  - unfold binRange. apply seqZ_nil. lia.
  - unfold bandLevel. fold B. fold lo. fold hi.
    rewrite (normalise_empty (sumBins data lo hi))
      by (rewrite sumBins_count; lia).
    rewrite Qmult_0_l. apply Q.min_r. lra.
Qed.

Lemma band_above_nyquist_is_silent_witness :
  0 < 8000 /\ (1 <= length (replicate 256 200%Z))%nat
  /\ 8000 / 2 <= get (frequencyBands CONFIG) 15
  /\ bandLevel CONFIG 8000 (replicate 256 200%Z) 15 == 0.
Proof.
  assert (0 < 8000) as Hsr by Qclosed.
  assert (1 <= length (replicate 256 200%Z))%nat as HB
    by (rewrite length_replicate; lia).
  assert (8000 / 2 <= get (frequencyBands CONFIG) 15) as Ha by Qclosed.
  split; [exact Hsr|]. split; [exact HB|]. split; [exact Ha|].
  exact (proj2 (band_above_nyquist_is_silent CONFIG 8000 (replicate 256 200%Z) 15
                  Hsr HB Ha)).
Defined.

Lemma liveData_liveBand (cfg : Config) (data : list Z) (i : nat)
      (acc : list Q * State) :
  liveData (liveBand cfg data i acc).2 = liveData acc.2.
Proof. destruct acc as [levels st]. reflexivity. Qed.

Lemma live_frame_liveData (h : Host) (cfg : Config) (t : Q)
      (snapshot array : list Z) (st : State) :
  liveData st = Some array ->
  liveData (getEQLevels h cfg t snapshot st).2
  = Some (getByteFrequencyData snapshot array).
Proof.
  intros Hlive. unfold getEQLevels. rewrite Hlive.
  apply (for_range_inv
           (fun _ acc => liveData acc.2
                         = Some (getByteFrequencyData snapshot array))).
  - simpl. unfold liveData in *. simpl.
    destruct (bool_decide (audioMode st = Demo)); [discriminate|].
    destruct (analyser st); [reflexivity|discriminate].
  - intros i acc _ H. rewrite liveData_liveBand. exact H.
Qed.

(** X4.  In live mode, with a smoothing factor in [0,1] and gains that
    are not negative, every level [getEQLevels] returns stays in [0,1]
    over any sequence of frames, as long as the smoothed levels start in
    [0,1]. *)
Theorem live_levels_stay_in_unit_interval (h : Host) (cfg : Config)
        (frames : list (Q * list Z)) (st : State) (array : list Z) :
  liveData st = Some array ->
  0 <= smoothing cfg <= 1 ->
  Forall (fun g => 0 <= g) (bandGains cfg) ->
  Forall (fun f => Forall (fun b => (0 <= b)%Z) f.2) frames ->
  Forall (fun b => (0 <= b)%Z) array ->
  Forall (fun s => 0 <= s <= 1) (smoothedLevels st) ->
  Forall (Forall (fun l => 0 <= l <= 1)) (runLevels h cfg frames st).
Proof.
  intros Hlive Halpha Hgains Hframes. revert st array Hlive.
  induction Hframes as [|[t snapshot] frames Hsnap _ IH];
    intros st array Hlive Harr Hsm; simpl.
  - constructor.
  - simpl in Hsnap.
    destruct (live_frame_unit h cfg t snapshot array st
                Hlive Halpha Hgains Hsnap Harr Hsm) as [Hsm' Hlev].
    constructor; [exact Hlev|].
    apply (IH _ (getByteFrequencyData snapshot array)).
    + apply live_frame_liveData. exact Hlive.
    + unfold getByteFrequencyData. apply Forall_app. split.
      * apply Forall_take, Hsnap.
      * apply Forall_drop, Harr.
    + exact Hsm'.
Qed.

Lemma live_levels_stay_in_unit_interval_witness :
  liveData micState = Some (replicate 256 0%Z)
  /\ Forall (Forall (fun l => 0 <= l <= 1))
       (runLevels (flatHost 0) CONFIG
          [(100, replicate 256 255%Z); (160, replicate 256 17%Z)] micState).
Proof.
  assert (liveData micState = Some (replicate 256 0%Z)) as Hlive
    by (vm_compute; reflexivity).
  assert (0 <= smoothing CONFIG <= 1) as Halpha by (split; Qclosed).
  assert (Forall (fun g => 0 <= g) (bandGains CONFIG)) as Hgains
    by (simpl; repeat constructor; Qclosed).
  assert (Forall (fun f : Q * list Z => Forall (fun b => (0 <= b)%Z) f.2)
            [(100, replicate 256 255%Z); (160, replicate 256 17%Z)]) as Hframes
    by (constructor; [cbn [snd]; apply Forall_replicate; lia|];
        constructor; [cbn [snd]; apply Forall_replicate; lia|]; constructor).
  assert (Forall (fun b => (0 <= b)%Z) (replicate 256 0%Z)) as Harr
    by (apply Forall_replicate; lia).
  assert (Forall (fun s => 0 <= s <= 1) (smoothedLevels micState)) as Hsm
    by (vm_compute; repeat constructor; discriminate).
  split; [exact Hlive|].
  exact (live_levels_stay_in_unit_interval (flatHost 0) CONFIG _ micState _
           Hlive Halpha Hgains Hframes Harr Hsm).
Defined.

Lemma demo_clamp_range (x : Q) : 0.05 <= Qmax 0.05 (Qmin 1 x) <= 1.
Proof.
  split; [apply Q.le_max_l|].
  apply Q.max_lub; [Qclosed | apply Q.le_min_l].
Qed.

Lemma demo_frame_clamped (h : Host) (cfg : Config) (t : Q) (snapshot : list Z)
      (st : State) :
  liveData st = None ->
  Forall (fun l => 0.05 <= l <= 1) (getEQLevels h cfg t snapshot st).1.
Proof.
  intros Hlive. unfold getEQLevels. rewrite Hlive.
  assert (length (for_range (eqBarCount cfg) (demoBand h cfg t)
                    (replicate (eqBarCount cfg) 0, st)).1 = eqBarCount cfg
          /\ forall j v, (j < eqBarCount cfg)%nat ->
               (for_range (eqBarCount cfg) (demoBand h cfg t)
                  (replicate (eqBarCount cfg) 0, st)).1 !! j = Some v ->
               0.05 <= v <= 1) as [Hlen Hall].
  { apply (for_range_inv
             (fun k acc => length acc.1 = eqBarCount cfg
                           /\ forall j v, (j < k)%nat -> acc.1 !! j = Some v ->
                                0.05 <= v <= 1)).
    - simpl. rewrite length_replicate. split; [reflexivity|]. intros j v Hj. lia.
    - intros k [levels sk] Hk [Hl Hdone]. simpl in *. unfold set.
      rewrite length_insert. split; [exact Hl|].
      intros j v Hj Hv. destruct (decide (j = k)) as [->|Hne].
      + rewrite list_lookup_insert_eq in Hv by lia. injection Hv as <-.
        apply demo_clamp_range.
      + rewrite list_lookup_insert_ne in Hv by congruence.
        apply (Hdone j v); [lia | exact Hv]. }
  apply Forall_lookup. intros j v Hv.
  apply (Hall j v); [|exact Hv].
  apply lookup_lt_Some in Hv. lia.
Qed.

(** X5.  In demo mode every level [getEQLevels] returns lies in
    [0.05, 1], over any sequence of frames, whatever the sine and the
    jitter the host supplies and whatever the smoothed levels are. *)
Theorem demo_levels_are_clamped (h : Host) (cfg : Config)
        (frames : list (Q * list Z)) (st : State) :
  liveData st = None ->
  Forall (Forall (fun l => 0.05 <= l <= 1)) (runLevels h cfg frames st).
Proof.
  revert st. induction frames as [|[t snapshot] frames IH]; intros st Hlive; simpl.
  - constructor.
  - constructor; [apply demo_frame_clamped; exact Hlive|].
    apply IH.
    destruct (getEQLevels_demo_agree h h cfg t snapshot snapshot st st
                Hlive Hlive eq_refl (fun x => eq_refl) (fun k => eq_refl))
      as (_ & _ & Hlive' & _).
    exact Hlive'.
Qed.

Lemma demo_levels_are_clamped_witness :
  liveData (init CONFIG) = None
  /\ Forall (Forall (fun l => 0.05 <= l <= 1))
       (runLevels (flatHost 0.5) CONFIG [(100, []); (160, [])] (init CONFIG)).
Proof.
  assert (liveData (init CONFIG) = None) as Hlive by (vm_compute; reflexivity).
  split; [exact Hlive|].
  exact (demo_levels_are_clamped (flatHost 0.5) CONFIG [(100, []); (160, [])]
           (init CONFIG) Hlive).
Defined.

(** ** Further properties of the peak tracker *)

Lemma trackPeak_step_bounds (cfg : Config) (t level : Q) (p : Q * Q) :
  0 <= peakDecay cfg ->
  p.1 - peakDecay cfg <= (trackPeak cfg t level p).1 <= Qmax p.1 level.
Proof.
  intros Hd. destruct p as [peakLevel holdTime]. unfold trackPeak. simpl.
  destruct (Qle_bool peakLevel level) eqn:E; simpl.
  - apply Qle_bool_iff in E. rewrite Q.max_r by exact E. split; lra.
  - assert (level < peakLevel) as Hlt
      by (apply Qnot_le_lt; intros H; apply Qle_bool_iff in H; congruence).
    rewrite (Q.max_l peakLevel level) by lra.
    destruct (Qlt_bool (peakHoldTime cfg) (t - holdTime)); simpl.
    + split; [apply Q.le_max_r|]. apply Q.max_lub; lra.
    + split; lra.
Qed.

(** X8.  With a decay step that is not negative, one frame of the peak
    tracker lowers the peak by at most one decay step and raises it at
    most to the level; so over any sequence of frames with levels in
    [0,1] a peak that starts in [0,1] stays in [0,1]. *)
Theorem peak_changes_are_bounded (cfg : Config) (frames : list (Q * Q))
        (p : Q * Q) :
  0 <= peakDecay cfg ->
  Forall (fun f => 0 <= f.2 <= 1) frames ->
  0 <= p.1 <= 1 ->
  0 <= (trackPeaks cfg frames p).1 <= 1
  /\ (forall t level,
        p.1 - peakDecay cfg <= (trackPeak cfg t level p).1 <= Qmax p.1 level).
Proof.
  intros Hd Hframes Hp. split.
  - revert p Hp. induction Hframes as [|[t level] frames Hlev _ IH]; intros p Hp.
    + exact Hp.
    + change (trackPeaks cfg ((t, level) :: frames) p)
        with (trackPeaks cfg frames (trackPeak cfg t level p)).
      apply IH. simpl in Hlev.
      pose proof (trackPeak_step_bounds cfg t level p Hd) as [_ Hup].
      pose proof (trackPeak_ge_level cfg t level p) as Hlow.
      split; [lra|].
      eapply Qle_trans; [exact Hup|]. apply Q.max_lub; lra.
  - intros t level. apply trackPeak_step_bounds. exact Hd.
Qed.

Lemma peak_changes_are_bounded_witness :
  0 <= peakDecay CONFIG
  /\ Forall (fun f : Q * Q => 0 <= f.2 <= 1) [(100, 0.8); (700, 0.1)]
  /\ 0 <= 0 <= 1
  /\ 0 <= (trackPeaks CONFIG [(100, 0.8); (700, 0.1)] (0, 0)).1 <= 1.
Proof.
  assert (0 <= peakDecay CONFIG) as Hd by Qclosed.
  assert (Forall (fun f : Q * Q => 0 <= f.2 <= 1) [(100, 0.8); (700, 0.1)]) as Hf
    by (constructor; [split; Qclosed|]; constructor; [split; Qclosed|]; constructor).
  assert (0 <= 0 <= 1) as Hp by (split; Qclosed).
  split; [exact Hd|]. split; [exact Hf|]. split; [exact Hp|].
  exact (proj1 (peak_changes_are_bounded CONFIG [(100, 0.8); (700, 0.1)] (0, 0)
                  Hd Hf Hp)).
Defined.

(** ** Further properties of the segment renderer *)

Lemma accepted_frame_segment (h : Host) (cfg : Config) (t : Q) (snapshot : list Z)
      (st : State) (i j : nat) (row : list Segment) (seg : Segment) :
  shaped cfg st ->
  accepted cfg t st ->
  segments (updateEQBars h cfg t snapshot st).1 !! i = Some row ->
  row !! j = Some seg ->
  (i < eqBarCount cfg)%nat /\ (j < eqSegmentCount cfg)%nat
  /\ seg = segTarget
             (litCountOf cfg
                (get (getEQLevels h cfg t snapshot (with_lastEqUpdate t st)).1 i))
             (peakSegmentOf cfg
                (newPeak cfg t
                   (getEQLevels h cfg t snapshot (with_lastEqUpdate t st)).1
                   (getEQLevels h cfg t snapshot (with_lastEqUpdate t st)).2 i).1)
             j.
Proof.
  intros Hshape Hacc Hrow Hseg.
  destruct (accepted_frame h cfg t snapshot st Hshape Hacc) as (_ & Hsegs & _).
  rewrite Hsegs in Hrow.
  assert (i < eqBarCount cfg)%nat as Hi.
  { apply lookup_lt_Some in Hrow. rewrite frameTargets_length in Hrow. exact Hrow. }
  rewrite frameTargets_lookup in Hrow by exact Hi. injection Hrow as <-.
  unfold barTarget in Hseg.
  assert (j < eqSegmentCount cfg)%nat as Hj.
  { apply lookup_lt_Some in Hseg. rewrite targetRow_length in Hseg. exact Hseg. }
  rewrite targetRow_lookup in Hseg by exact Hj. injection Hseg as <-.
  repeat split; assumption.
Qed.

(** X10.  After an accepted frame every bar is laid out as a column: the
    lit segments are a run from the bottom; the top-lit flag sits on a
    lit segment with nothing lit above it; a peak-hold marker sits on an
    unlit segment, above every lit one, and is the only marker of its
    bar. *)
Theorem bar_layout_after_frame (h : Host) (cfg : Config) (t : Q)
        (snapshot : list Z) (st : State) (i j k : nat)
        (row : list Segment) (sj sk : Segment) :
  shaped cfg st ->
  accepted cfg t st ->
  segments (updateEQBars h cfg t snapshot st).1 !! i = Some row ->
  row !! j = Some sj ->
  row !! k = Some sk ->
  (lit sj = true -> (k <= j)%nat -> lit sk = true)
  /\ (peak sj = true -> lit sj = true /\ ((j < k)%nat -> lit sk = false))
  /\ (isPeakHold sj = true ->
      lit sj = false
      /\ (lit sk = true -> (k < j)%nat)
      /\ (isPeakHold sk = true -> k = j)).
Proof.
  intros Hshape Hacc Hrow Hj Hk.
  destruct (accepted_frame_segment h cfg t snapshot st i j row sj
              Hshape Hacc Hrow Hj) as (_ & _ & ->).
  destruct (accepted_frame_segment h cfg t snapshot st i k row sk
              Hshape Hacc Hrow Hk) as (_ & _ & ->).
  set (lc := litCountOf cfg _). set (ps := peakSegmentOf cfg _).
  clearbody lc ps. simpl.
  unfold isTopLit, shouldBePeak, shouldBeLit.
  repeat split.
  - intros H Hle. apply Z.ltb_lt in H. apply Z.ltb_lt. lia.
  - apply andb_true_iff in H. tauto.
  - intros Hlt. apply andb_true_iff in H. destruct H as [_ H].
    apply Z.eqb_eq in H. apply Z.ltb_ge. lia.
  - apply andb_true_iff in H. destruct H as [H _].
    apply andb_true_iff in H. destruct H as [H _].
    apply negb_true_iff in H. exact H.
  - intros Hlit. apply Z.ltb_lt in Hlit.
    apply andb_true_iff in H. destruct H as [H H3].
    apply andb_true_iff in H. destruct H as [_ H2].
    apply Z.eqb_eq in H2. apply Z.leb_le in H3. lia.
  - intros Hm.
    apply andb_true_iff in H. destruct H as [H _].
    apply andb_true_iff in H. destruct H as [_ H2].
    apply andb_true_iff in Hm. destruct Hm as [Hm _].
    apply andb_true_iff in Hm. destruct Hm as [_ Hm2].
    apply Z.eqb_eq in H2. apply Z.eqb_eq in Hm2. lia.
Qed.

Lemma bar_layout_after_frame_witness :
  shaped CONFIG (init CONFIG)
  /\ accepted CONFIG 100 (init CONFIG)
  /\ isPeakHold (segTarget 2 2 2) = true
  /\ lit (segTarget 2 2 2) = false.
Proof.
  assert (segments (updateEQBars (flatHost 0.5) CONFIG 100 [] (init CONFIG)).1 !! 0%nat
          = Some (targetRow CONFIG 2 2)) as Hrow by (vm_compute; reflexivity).
  assert (targetRow CONFIG 2 2 !! 2%nat = Some (segTarget 2 2 2)) as Hj
    by (vm_compute; reflexivity).
  assert (targetRow CONFIG 2 2 !! 0%nat = Some (segTarget 2 2 0)) as Hk
    by (vm_compute; reflexivity).
  assert (isPeakHold (segTarget 2 2 2) = true) as Hm by reflexivity.
  split; [exact shaped_init|]. split; [exact accepted_init|]. split; [exact Hm|].
  destruct (bar_layout_after_frame (flatHost 0.5) CONFIG 100 [] (init CONFIG)
              0 2 0 _ _ _ shaped_init accepted_init Hrow Hj Hk)
    as (_ & _ & Hmarker).
  exact (proj1 (Hmarker Hm)).
Defined.

Lemma peakSegment_range_aux (cfg : Config) (peakLevel : Q) :
  (1 <= eqSegmentCount cfg)%nat ->
  0 <= peakLevel ->
  (0 <= peakSegmentOf cfg peakLevel)%Z
  /\ (peakSegmentOf cfg peakLevel <= Z.of_nat (eqSegmentCount cfg) - 1)%Z.
Proof.
  intros HM Hp. unfold peakSegmentOf.
  pose proof (ofNat_nonneg (eqSegmentCount cfg)) as HMq.
  assert (0 <= Qfloor (peakLevel * ofNat (eqSegmentCount cfg)))%Z as Hfl.
  { change 0%Z with (Qfloor 0). apply Qfloor_resp_le. nra. }
  lia.
Qed.

(** X11.  After an accepted frame a bar whose level is not negative shows
    its peak-hold marker exactly when it is not full: if fewer than all
    segments are lit, the segment [peakSegment], at or above the first
    unlit one, carries the marker; if all are lit no segment does. *)
Theorem peak_marker_shown_unless_bar_full (h : Host) (cfg : Config) (t : Q)
        (snapshot : list Z) (st : State) (i : nat) (row : list Segment) :
  shaped cfg st ->
  accepted cfg t st ->
  (1 <= eqSegmentCount cfg)%nat ->
  segments (updateEQBars h cfg t snapshot st).1 !! i = Some row ->
  0 <= get (getEQLevels h cfg t snapshot (with_lastEqUpdate t st)).1 i ->
  let litCount :=
    litCountOf cfg (get (getEQLevels h cfg t snapshot (with_lastEqUpdate t st)).1 i) in
  ((litCount < Z.of_nat (eqSegmentCount cfg))%Z ->
     exists j seg, row !! j = Some seg /\ isPeakHold seg = true
                   /\ (litCount <= Z.of_nat j)%Z)
  /\ ((Z.of_nat (eqSegmentCount cfg) <= litCount)%Z ->
      forall j seg, row !! j = Some seg -> isPeakHold seg = false).
Proof.
  intros Hshape Hacc HM Hrow Hlevel litCount.
  set (r := getEQLevels h cfg t snapshot (with_lastEqUpdate t st)) in *.
  set (level := get r.1 i) in *.
  set (p := (newPeak cfg t r.1 r.2 i).1).
  assert (level <= p) as Hpeak by (apply trackPeak_ge_level).
  pose proof (ofNat_nonneg (eqSegmentCount cfg)) as HMq.
  assert (litCount <= Qfloor (p * ofNat (eqSegmentCount cfg)))%Z as Hfloor.
  { unfold litCount, litCountOf. apply Qfloor_resp_le. nra. }
  assert (0 <= p) as Hp0 by lra.
  destruct (peakSegment_range_aux cfg p HM Hp0) as [Hps0 Hps1].
  split.
  - intros Hnotfull.
    set (ps := peakSegmentOf cfg p) in *.
    assert (litCount <= ps)%Z as Hle by (unfold ps, peakSegmentOf; lia).
    destruct (lookup_lt_is_Some_2 row (Z.to_nat ps)) as [seg Hseg].
    { destruct (accepted_frame h cfg t snapshot st Hshape Hacc) as (_ & Hsegs & _).
      rewrite Hsegs in Hrow.
      assert (i < eqBarCount cfg)%nat as Hi.
      { apply lookup_lt_Some in Hrow. rewrite frameTargets_length in Hrow.
        exact Hrow. }
      rewrite frameTargets_lookup in Hrow by exact Hi. injection Hrow as <-.
      unfold barTarget. rewrite targetRow_length. lia. }
    exists (Z.to_nat ps), seg.
    destruct (accepted_frame_segment h cfg t snapshot st i (Z.to_nat ps) row seg
                Hshape Hacc Hrow Hseg) as (_ & _ & ->).
    split; [exact Hseg|]. split; [|lia].
    fold r. fold level. fold litCount. fold p. fold ps. simpl.
    unfold shouldBePeak, shouldBeLit.
    rewrite Z2Nat.id by lia.
    rewrite (proj2 (Z.ltb_ge ps litCount) Hle), Z.eqb_refl.
    rewrite (proj2 (Z.leb_le litCount ps) Hle). reflexivity.
  - intros Hfull j seg Hseg.
    destruct (accepted_frame_segment h cfg t snapshot st i j row seg
                Hshape Hacc Hrow Hseg) as (_ & _ & ->).
    fold r. fold level. fold litCount. fold p. simpl.
    unfold shouldBePeak.
    rewrite (proj2 (Z.leb_gt litCount (peakSegmentOf cfg p))) by lia.
    apply andb_false_r.
Qed.

Lemma peak_marker_shown_unless_bar_full_witness :
  shaped CONFIG (init CONFIG)
  /\ accepted CONFIG 100 (init CONFIG)
  /\ (1 <= eqSegmentCount CONFIG)%nat
  /\ 0 <= get (getEQLevels (flatHost 0.5) CONFIG 100 []
                 (with_lastEqUpdate 100 (init CONFIG))).1 0
  /\ exists j seg,
       targetRow CONFIG 2 2 !! j = Some seg /\ isPeakHold seg = true
       /\ (litCountOf CONFIG
             (get (getEQLevels (flatHost 0.5) CONFIG 100 []
                     (with_lastEqUpdate 100 (init CONFIG))).1 0) <= Z.of_nat j)%Z.
Proof.
  assert (1 <= eqSegmentCount CONFIG)%nat as HM by (simpl; lia).
  assert (segments (updateEQBars (flatHost 0.5) CONFIG 100 [] (init CONFIG)).1 !! 0%nat
          = Some (targetRow CONFIG 2 2)) as Hrow by (vm_compute; reflexivity).
  assert (0 <= get (getEQLevels (flatHost 0.5) CONFIG 100 []
                      (with_lastEqUpdate 100 (init CONFIG))).1 0) as Hlevel
    by Qclosed.
  assert (litCountOf CONFIG
            (get (getEQLevels (flatHost 0.5) CONFIG 100 []
                    (with_lastEqUpdate 100 (init CONFIG))).1 0)
          < Z.of_nat (eqSegmentCount CONFIG))%Z as Hnotfull
    by (vm_compute; reflexivity).
  split; [exact shaped_init|]. split; [exact accepted_init|].
  split; [exact HM|]. split; [exact Hlevel|].
  exact (proj1 (peak_marker_shown_unless_bar_full (flatHost 0.5) CONFIG 100 []
                  (init CONFIG) 0 (targetRow CONFIG 2 2)
                  shaped_init accepted_init HM Hrow Hlevel) Hnotfull).
Defined.

(** ** The change-set of a frame *)

Lemma needsUpdate_true_ops (i j : nat) (seg target : Segment) :
  needsUpdate seg target = true -> (applyTarget i j seg target).2 <> [].
Proof.
  destruct seg as [l c p k], target as [l' c' p' k'].
  unfold needsUpdate, applyTarget, colorOps. simpl.
  repeat case_bool_decide; simpl; try discriminate;
    destruct c, c'; simpl; try discriminate; try congruence;
    destruct l', p', k'; discriminate.
Qed.

Lemma renderSegment_quiet (i j : nat) (litCount peakSegment : Z) (seg : Segment) :
  (renderSegment i j litCount peakSegment seg).2 = [] ->
  seg = segTarget litCount peakSegment j.
Proof.
  unfold renderSegment.
  destruct (needsUpdate seg (segTarget litCount peakSegment j)) eqn:E.
  - intros H. exfalso. exact (needsUpdate_true_ops i j _ _ E H).
  - intros _. apply needsUpdate_false. exact E.
Qed.

Lemma renderSegment_ops_place (i j : nat) (litCount peakSegment : Z) (seg : Segment) :
  Forall (fun op => opBar op = i /\ opSeg op = j)
         (renderSegment i j litCount peakSegment seg).2.
Proof.
  unfold renderSegment.
  destruct (needsUpdate seg (segTarget litCount peakSegment j)); [|constructor].
  unfold applyTarget, colorOps. simpl.
  repeat apply Forall_app_2; repeat case_bool_decide;
    try destruct (color seg); try destruct (targetColor litCount peakSegment j);
    simpl; repeat constructor.
Qed.

(** The loop over the segments of a bar: its calls are made on segments
    of the bar, and if it makes none the bar already held its targets. *)
Lemma renderBar_ops (cfg : Config) (i : nat) (litCount peakSegment : Z)
      (barSegments : list Segment) :
  Forall (fun op => opBar op = i /\ (opSeg op < eqSegmentCount cfg)%nat)
         (renderBar cfg i litCount peakSegment barSegments).2
  /\ (length barSegments = eqSegmentCount cfg ->
      (renderBar cfg i litCount peakSegment barSegments).2 = [] ->
      barSegments = targetRow cfg litCount peakSegment).
Proof.
  unfold renderBar.
  set (body := fun (j : nat) (acc : list Segment * list DomOp) => _).
  assert (Forall (fun op => opBar op = i /\ (opSeg op < eqSegmentCount cfg)%nat)
                 (for_range (eqSegmentCount cfg) body (barSegments, [])).2
          /\ ((for_range (eqSegmentCount cfg) body (barSegments, [])).2 = [] ->
              (for_range (eqSegmentCount cfg) body (barSegments, [])).1 = barSegments
              /\ forall j seg, (j < eqSegmentCount cfg)%nat ->
                   barSegments !! j = Some seg ->
                   seg = segTarget litCount peakSegment j)) as [Hplace Hquiet].
  { apply (for_range_inv
             (fun k acc =>
                Forall (fun op => opBar op = i /\ (opSeg op < eqSegmentCount cfg)%nat)
                       acc.2
                /\ (acc.2 = [] ->
                    acc.1 = barSegments
                    /\ forall j seg, (j < k)%nat -> barSegments !! j = Some seg ->
                         seg = segTarget litCount peakSegment j))).
    - simpl. split; [constructor|]. intros _. split; [reflexivity|].
      intros j seg Hj. lia.
    - intros k acc Hk [Hpl Hq]. unfold body.
      destruct (acc.1 !! k) as [seg|] eqn:E; simpl.
      + split.
        * apply Forall_app_2; [exact Hpl|].
          eapply Forall_impl; [apply renderSegment_ops_place|].
          simpl. intros op [Hb Hs]. split; [exact Hb|lia].
        * intros Hnil. apply app_eq_nil in Hnil. destruct Hnil as [Hnil1 Hnil2].
          destruct (Hq Hnil1) as [Hsame Hdone].
          pose proof (renderSegment_quiet i k litCount peakSegment seg Hnil2) as Hseg.
          rewrite Hsame in E.
          split.
          -- rewrite renderSegment_fst, <- Hseg, Hsame.
             apply list_insert_id. exact E.
          -- intros j seg' Hj Hl. destruct (decide (j = k)) as [->|Hne].
             ++ congruence.
             ++ apply (Hdone j seg'); [lia|exact Hl].
      + split; [exact Hpl|]. intros Hnil. destruct (Hq Hnil) as [Hsame Hdone].
        split; [exact Hsame|]. intros j seg' Hj Hl.
        destruct (decide (j = k)) as [->|Hne].
        * rewrite Hsame in E. congruence.
        * apply (Hdone j seg'); [lia|exact Hl]. }
  split; [exact Hplace|].
  intros Hlen Hnil. destruct (Hquiet Hnil) as [_ Hall].
  apply list_eq. intros j.
  destruct (decide (j < eqSegmentCount cfg)%nat) as [Hj|Hj].
  - rewrite targetRow_lookup by exact Hj.
    destruct (lookup_lt_is_Some_2 barSegments j ltac:(lia)) as [seg Hseg].
    rewrite Hseg. f_equal. apply (Hall j seg Hj Hseg).
  - rewrite !(proj2 (lookup_ge_None _ _)); [reflexivity| |].
    + rewrite targetRow_length. lia.
    + lia.
Qed.

Lemma updateBar_ops_place (cfg : Config) (t : Q) (levels : list Q) (k : nat)
      (acc : State * list DomOp) :
  (k < eqBarCount cfg)%nat ->
  Forall (fun op => (opBar op < eqBarCount cfg)%nat
                    /\ (opSeg op < eqSegmentCount cfg)%nat) acc.2 ->
  Forall (fun op => (opBar op < eqBarCount cfg)%nat
                    /\ (opSeg op < eqSegmentCount cfg)%nat)
         (updateBar cfg t levels k acc).2.
Proof.
  intros Hk Hacc. destruct acc as [st ops]. unfold updateBar. simpl.
  apply Forall_app_2; [exact Hacc|].
  eapply Forall_impl; [apply renderBar_ops|].
  simpl. intros op [Hb Hs]. split; [lia|exact Hs].
Qed.

(** X12.  Every [classList] call of a frame is made on a segment of the
    grid: on a bar below the bar count and a segment below the segment
    count. *)
Theorem frame_changes_stay_in_grid (h : Host) (cfg : Config) (t : Q)
        (snapshot : list Z) (st : State) :
  Forall (fun op => (opBar op < eqBarCount cfg)%nat
                    /\ (opSeg op < eqSegmentCount cfg)%nat)
         (updateEQBars h cfg t snapshot st).2.
Proof.
  unfold updateEQBars.
  destruct (Qlt_bool (t - lastEqUpdate st) (eqUpdateInterval cfg)); [constructor|].
  destruct (getEQLevels h cfg t snapshot (with_lastEqUpdate t st)) as [levels st1].
  pose proof (for_range_inv
                (fun (_ : nat) (acc : State * list DomOp) =>
                   Forall (fun op => (opBar op < eqBarCount cfg)%nat
                                     /\ (opSeg op < eqSegmentCount cfg)%nat) acc.2)
                (eqBarCount cfg) (updateBar cfg t levels) (st1, [])) as Hinv.
  destruct (for_range (eqBarCount cfg) (updateBar cfg t levels) (st1, []))
    as [st2 ops].
  simpl. apply Hinv.
  - constructor.
  - intros k acc Hk Hacc. apply updateBar_ops_place; assumption.
Qed.

Section QuietFrame.
Variables (cfg : Config) (t : Q) (levels : list Q) (st0 : State).
Hypothesis peaks_shape : length (peakLevels st0) = eqBarCount cfg.
Hypothesis holds_shape : length (peakHoldTimes st0) = eqBarCount cfg.
Hypothesis segments_shape : length (segments st0) = eqBarCount cfg.
Hypothesis rows_shape :
  Forall (fun row => length row = eqSegmentCount cfg) (segments st0).

Lemma updateBars_quiet :
  (for_range (eqBarCount cfg) (updateBar cfg t levels) (st0, [])).2 = [] ->
  forall i, (i < eqBarCount cfg)%nat ->
    segments st0 !! i = Some (barTarget cfg t levels st0 i).
Proof.
  assert (bandsDone cfg t levels st0 [] (eqBarCount cfg)
            (for_range (eqBarCount cfg) (updateBar cfg t levels) (st0, []))
          /\ ((for_range (eqBarCount cfg) (updateBar cfg t levels) (st0, [])).2 = [] ->
              forall i, (i < eqBarCount cfg)%nat ->
                segments st0 !! i = Some (barTarget cfg t levels st0 i))) as [_ H];
    [|exact H].
  apply (for_range_inv
           (fun k acc =>
              bandsDone cfg t levels st0 [] k acc
              /\ (acc.2 = [] ->
                  forall i, (i < k)%nat ->
                    segments st0 !! i = Some (barTarget cfg t levels st0 i)))).
  - split.
    + unfold bandsDone. simpl. repeat (split; [assumption || reflexivity|]).
      split; [intros i Hi; lia|]. split; [intros i _; repeat split|]. reflexivity.
    + intros _ i Hi. lia.
  - intros k acc Hk [Hdone Hquiet].
    split; [apply updateBar_step; assumption|].
    destruct Hdone as (Hlp & _ & _ & _ & _ & _ & _ & _ & _ & Hrest & _).
    destruct acc as [st ops]. cbn [fst snd] in *.
    destruct (Hrest k (le_n k)) as (Hpk & Hhk & Hsk).
    assert (trackPeak cfg t (get levels k)
              (get (peakLevels st) k, get (peakHoldTimes st) k)
            = newPeak cfg t levels st0 k) as Hnew.
    { unfold newPeak.
      rewrite (get_agree _ _ _ Hpk), (get_agree _ _ _ Hhk). reflexivity. }
    destruct (lookup_lt_is_Some_2 (segments st0) k ltac:(lia)) as [row Hrow].
    assert (length row = eqSegmentCount cfg) as Hrowlen.
    { eapply (proj1 (Forall_lookup _ _) rows_shape). exact Hrow. }
    assert (get (<[k := (newPeak cfg t levels st0 k).1]> (peakLevels st)) k
            = (newPeak cfg t levels st0 k).1) as Hg
      by (apply get_lookup, list_lookup_insert_eq; lia).
    unfold updateBar. cbv beta iota zeta. rewrite Hnew.
    unfold set. simpl. rewrite Hg, Hsk, Hrow. simpl.
    intros Hnil. apply app_eq_nil in Hnil. destruct Hnil as [Hnil1 Hnil2].
    intros i Hi. destruct (decide (i = k)) as [->|Hne].
    + rewrite Hrow. f_equal. unfold barTarget.
      exact (proj2 (renderBar_ops cfg k _ _ row) Hrowlen Hnil2).
    + apply (Hquiet Hnil1). lia.
Qed.
End QuietFrame.

(** X13.  An accepted frame makes no [classList] call exactly when it
    leaves every stored segment as it was: a segment whose lit, colour,
    top-lit or peak-hold value changes always gets a call. *)
Theorem change_set_empty_iff_segments_unchanged (h : Host) (cfg : Config) (t : Q)
        (snapshot : list Z) (st : State) :
  shaped cfg st ->
  accepted cfg t st ->
  (updateEQBars h cfg t snapshot st).2 = []
  <-> segments (updateEQBars h cfg t snapshot st).1 = segments st.
Proof.
  intros Hshape Hacc.
  destruct (accepted_frame h cfg t snapshot st Hshape Hacc)
    as (_ & Hsegs & _ & Hops).
  split.
  - intros Hnil. rewrite Hsegs. symmetry.
    destruct Hshape as (Hs & Hp & Hh & Hg & Hrows).
    rewrite (updateEQBars_accepted h cfg t snapshot st Hacc) in Hnil.
    simpl in Hnil.
    destruct (getEQLevels_frame h cfg t snapshot (with_lastEqUpdate t st))
      as (Hu & _ & _).
    destruct Hu as (_&_&_&_&_&_&_&_&_&_&_&Hup&Huh&Hus&_&_).
    simpl in Hup, Huh, Hus.
    set (r := getEQLevels h cfg t snapshot (with_lastEqUpdate t st)) in *.
    pose proof (updateBars_quiet cfg t r.1 r.2) as Hq.
    rewrite Hup, Huh, Hus in Hq.
    specialize (Hq Hp Hh Hg Hrows Hnil).
    apply list_eq. intros i.
    destruct (decide (i < eqBarCount cfg)%nat) as [Hi|Hi].
    + rewrite frameTargets_lookup by exact Hi. apply Hq. exact Hi.
    + rewrite !(proj2 (lookup_ge_None _ _)); [reflexivity| |].
      * rewrite frameTargets_length. lia.
      * rewrite Hg. lia.
  - intros Hsame. apply Hops. rewrite <- Hsame. exact Hsegs.
Qed.

Lemma change_set_empty_iff_segments_unchanged_witness :
  shaped CONFIG micState
  /\ accepted CONFIG 100 micState
  /\ (updateEQBars (flatHost 0) CONFIG 100 (replicate 256 255%Z) micState).2 <> [].
Proof.
  assert (accepted CONFIG 100 micState) as Hacc by Qclosed.
  split; [exact shaped_micState|]. split; [exact Hacc|].
  intros Hnil.
  pose proof (proj1 (change_set_empty_iff_segments_unchanged (flatHost 0) CONFIG 100
                       (replicate 256 255%Z) micState shaped_micState Hacc) Hnil)
    as Hsame.
  vm_compute in Hsame. discriminate Hsame.
Defined.

(** ** The throttle and the scheduler *)

Lemma updateBar_lastEqUpdate (cfg : Config) (t : Q) (levels : list Q) (k : nat)
      (acc : State * list DomOp) :
  lastEqUpdate (updateBar cfg t levels k acc).1 = lastEqUpdate acc.1.
Proof. destruct acc as [st ops]. reflexivity. Qed.

Lemma accepted_frame_lastEqUpdate (h : Host) (cfg : Config) (t : Q)
      (snapshot : list Z) (st : State) :
  accepted cfg t st ->
  lastEqUpdate (updateEQBars h cfg t snapshot st).1 = t.
Proof.
  intros Hacc. rewrite (updateEQBars_accepted h cfg t snapshot st Hacc). simpl.
  destruct (getEQLevels_frame h cfg t snapshot (with_lastEqUpdate t st))
    as (Hu & _ & _).
  destruct Hu as (_&_&_&Hlast&_). simpl in Hlast.
  apply (for_range_inv
           (fun (_ : nat) (acc : State * list DomOp) => lastEqUpdate acc.1 = t)).
  - exact Hlast.
  - intros k acc _ H. rewrite updateBar_lastEqUpdate. exact H.
Qed.

(** X14.  A frame callback that arrives less than [eqUpdateInterval]
    after the last accepted frame runs no pipeline pass: it only requests
    the next frame, makes no [classList] call and draws no jitter. *)
Theorem frames_closer_than_interval_are_skipped (h : Host) (cfg : Config)
        (t1 t2 : Q) (snapshot1 snapshot2 : list Z) (st : State) :
  accepted cfg t1 st ->
  t2 - t1 < eqUpdateInterval cfg ->
  updateEQBars h cfg t2 snapshot2 (updateEQBars h cfg t1 snapshot1 st).1
  = (requestAnimationFrame (updateEQBars h cfg t1 snapshot1 st).1, []).
Proof.
  intros Hacc Hclose. apply updateEQBars_throttled.
  unfold accepted. rewrite (accepted_frame_lastEqUpdate h cfg t1 snapshot1 st Hacc).
  intros Hle. exact (Qlt_not_le _ _ Hclose Hle).
Qed.

Lemma frames_closer_than_interval_are_skipped_witness :
  accepted CONFIG 100 (init CONFIG)
  /\ 130 - 100 < eqUpdateInterval CONFIG
  /\ (updateEQBars (flatHost 0.5) CONFIG 130 []
        (updateEQBars (flatHost 0.5) CONFIG 100 [] (init CONFIG)).1).2 = [].
Proof.
  assert (130 - 100 < eqUpdateInterval CONFIG) as Hclose by Qclosed.
  split; [exact accepted_init|]. split; [exact Hclose|].
  rewrite (frames_closer_than_interval_are_skipped (flatHost 0.5) CONFIG 100 130
             [] [] (init CONFIG) accepted_init Hclose).
  reflexivity.
Defined.

(** X15.  [startEQAnimation] never starts a second loop: calling it
    again, or calling it after [init] or after any frame of the running
    loop, requests nothing. *)
Theorem start_never_doubles_the_loop (h : Host) (cfg : Config) (t : Q)
        (snapshot : list Z) (st : State) :
  startEQAnimation (startEQAnimation st) = startEQAnimation st
  /\ startEQAnimation (init cfg) = init cfg
  /\ startEQAnimation (updateEQBars h cfg t snapshot st).1
     = (updateEQBars h cfg t snapshot st).1
  /\ (frameRequests (startEQAnimation st) <= S (frameRequests st))%nat.
Proof.
  split; [|split; [|split]].
  - unfold startEQAnimation. destruct (eqAnimationId st) eqn:E.
    + rewrite E. reflexivity.
    + reflexivity.
  - reflexivity.
  - destruct (updateEQBars_reschedules h cfg t snapshot st) as [id Hid].
    unfold startEQAnimation. rewrite Hid. reflexivity.
  - unfold startEQAnimation. destruct (eqAnimationId st); simpl; lia.
Qed.

(** X16.  [stopEQAnimation] cancels the pending request, if there is
    one, and then has nothing left to cancel; a loop started again after
    a stop gets a handle that differs from the cancelled one, provided
    handles so far do not exceed the request count. *)
Theorem stop_cancels_the_pending_frame (st : State) (id : nat) :
  eqAnimationId st = Some id ->
  (id <= frameRequests st)%nat ->
  (stopEQAnimation st).2 = Some id
  /\ eqAnimationId (stopEQAnimation st).1 = None
  /\ stopEQAnimation (stopEQAnimation st).1 = ((stopEQAnimation st).1, None)
  /\ (exists id', eqAnimationId (startEQAnimation (stopEQAnimation st).1) = Some id'
                  /\ (id < id')%nat)
  /\ smoothedLevels (stopEQAnimation st).1 = smoothedLevels st
  /\ peakLevels (stopEQAnimation st).1 = peakLevels st
  /\ segments (stopEQAnimation st).1 = segments st.
Proof.
  intros Hid Hle. unfold stopEQAnimation, startEQAnimation. rewrite Hid. simpl.
  repeat split.
  exists (S (frameRequests st)). split; [reflexivity|lia].
Qed.

Lemma stop_cancels_the_pending_frame_witness :
  eqAnimationId (init CONFIG) = Some 1%nat
  /\ (1 <= frameRequests (init CONFIG))%nat
  /\ (stopEQAnimation (init CONFIG)).2 = Some 1%nat.
Proof.
  assert (eqAnimationId (init CONFIG) = Some 1%nat) as Hid by (vm_compute; reflexivity).
  assert (1 <= frameRequests (init CONFIG))%nat as Hle by (vm_compute; lia).
  split; [exact Hid|]. split; [exact Hle|].
  exact (proj1 (stop_cancels_the_pending_frame (init CONFIG) 1 Hid Hle)).
Defined.

(** ** Further properties of the audio sources *)

Lemma stopAudioSource_nothing_held (st : State) :
  micStream st = None -> audioElement st = None -> audioSource st = None ->
  audioMode st = Demo -> isPlaying st = false ->
  stopAudioSource st = st.
Proof.
  destruct st. simpl. intros -> -> -> -> ->. reflexivity.
Qed.

(** X17.  [stopAudioSource] releases everything the state holds, with
    exactly one stop, pause or disconnect per handle held, and leaves the
    demo mode with nothing playing; calling it again changes nothing and
    makes no further call. *)
Theorem stopAudioSource_releases_once (st : State) :
  stopAudioSource (stopAudioSource st) = stopAudioSource st
  /\ hostOps (stopAudioSource st) = hostOps st ++ releaseOps st
  /\ releaseOps (stopAudioSource st) = []
  /\ micStream (stopAudioSource st) = None
  /\ audioElement (stopAudioSource st) = None
  /\ audioSource (stopAudioSource st) = None
  /\ audioMode (stopAudioSource st) = Demo
  /\ isPlaying (stopAudioSource st) = false.
Proof.
  destruct (stopAudioSource_released st) as (Hmic & Hel & Hsrc & Hmode & _).
  destruct (stopAudioSource_frame st) as (_ & _ & _ & Hops).
  split; [|split; [exact Hops|split; [|repeat split; assumption || reflexivity]]].
  - apply stopAudioSource_nothing_held; assumption || reflexivity.
  - unfold releaseOps. rewrite Hmic, Hel, Hsrc. reflexivity.
Qed.

Lemma resumeContext_frame (st : State) :
  audioMode (resumeContext st) = audioMode st
  /\ micStream (resumeContext st) = micStream st
  /\ audioElement (resumeContext st) = audioElement st
  /\ audioSource (resumeContext st) = audioSource st
  /\ isPlaying (resumeContext st) = isPlaying st
  /\ hostOps (resumeContext st) = hostOps st
  /\ logs (resumeContext st) = logs st
  /\ smoothedLevels (resumeContext st) = smoothedLevels st.
Proof.
  unfold resumeContext. destruct (audioContext st); repeat split.
Qed.

(** What a successful activation of the microphone leaves. *)
Lemma activateMicrophone_succeeds (cfg : Config) (h : MicHost) (st st' : State) :
  activateMicrophone cfg h st = inr st' ->
  exists stream source,
    getUserMedia h = inr stream
    /\ createMediaStreamSource h = inr source
    /\ audioMode st' = Mic
    /\ micStream st' = Some stream
    /\ audioSource st' = Some source
    /\ audioElement st' = audioElement st
    /\ hostOps st' = hostOps st ++ [SourceConnect source]
    /\ output st' = "MICROPHONE ACTIVE"%string.
Proof.
  unfold activateMicrophone.
  pose proof (initAudioContext_levels cfg (newAudioContext h) st) as Hinit.
  destruct (initAudioContext cfg (newAudioContext h) st) as [e|st1];
    [discriminate|].
  destruct Hinit as (_ & _ & _ & Hel & _ & Hops).
  destruct (resumeContext_frame st1) as (_ & _ & Hel' & _ & _ & Hops' & _).
  destruct (isSuspended st1);
    [destruct (resume h) as [e|]; [discriminate|]|];
    (destruct (getUserMedia h) as [e|stream]; [discriminate|]);
    (destruct (createMediaStreamSource h) as [e|source]; [discriminate|]);
    intros H; injection H as <-; exists stream, source; simpl;
    repeat split; congruence.
Qed.

(** X18.  Switching the microphone on and then off again: the first
    toggle, if it succeeds, puts the state in mic mode holding the stream
    and the connected source; the second toggle stops that stream,
    disconnects that source and returns to the demo mode with no source
    open. *)
Theorem microphone_on_then_off (cfg : Config) (mh mh' : MicHost) (st st1 : State) :
  audioMode st <> Mic ->
  activateMicrophone cfg mh (stopAudioSource st) = inr st1 ->
  exists stream source,
    getUserMedia mh = inr stream
    /\ createMediaStreamSource mh = inr source
    /\ toggleMicrophone cfg mh st = st1
    /\ audioMode st1 = Mic
    /\ micStream st1 = Some stream
    /\ audioSource st1 = Some source
    /\ activeSources st1 = 1%nat
    /\ audioMode (toggleMicrophone cfg mh' st1) = Demo
    /\ micStream (toggleMicrophone cfg mh' st1) = None
    /\ audioSource (toggleMicrophone cfg mh' st1) = None
    /\ activeSources (toggleMicrophone cfg mh' st1) = 0%nat
    /\ hostOps (toggleMicrophone cfg mh' st1)
       = hostOps st ++ releaseOps st
         ++ [SourceConnect source; TrackStop stream; SourceDisconnect source]
    /\ smoothedLevels (toggleMicrophone cfg mh' st1) = smoothedLevels st1.
Proof.
  intros Hmode Hok.
  destruct (activateMicrophone_succeeds cfg mh _ _ Hok)
    as (stream & source & Hgum & Hsrc & Hmic & Hstream & Hsource & Hel & Hops & _).
  destruct (stopAudioSource_released st) as (_ & Hel0 & _).
  destruct (stopAudioSource_frame st) as (_ & _ & _ & Hops0).
  exists stream, source.
  assert (toggleMicrophone cfg mh st = st1) as Hfirst.
  { unfold toggleMicrophone. rewrite bool_decide_eq_false_2 by exact Hmode.
    rewrite Hok. reflexivity. }
  assert (toggleMicrophone cfg mh' st1 = stopMicrophone st1) as Hsecond.
  { unfold toggleMicrophone. rewrite bool_decide_eq_true_2 by exact Hmic.
    reflexivity. }
  rewrite Hsecond.
  split; [exact Hgum|]. split; [exact Hsrc|]. split; [exact Hfirst|].
  split; [exact Hmic|]. split; [exact Hstream|]. split; [exact Hsource|].
  split; [unfold activeSources; rewrite Hstream, Hel, Hel0; reflexivity|].
  unfold stopMicrophone, stopMicStream, disconnectSource, activeSources, hostCall.
  rewrite Hstream. simpl. rewrite Hsource. simpl. rewrite Hel, Hel0.
  repeat split.
  rewrite Hops, Hops0, <- !app_assoc. reflexivity.
Qed.

Lemma microphone_on_then_off_witness :
  audioMode fileState <> Mic
  /\ activateMicrophone CONFIG grantingHost (stopAudioSource fileState)
     = inr (toggleMicrophone CONFIG grantingHost fileState)
  /\ exists stream source,
       getUserMedia grantingHost = inr stream
       /\ createMediaStreamSource grantingHost = inr source
       /\ audioMode (toggleMicrophone CONFIG denyingHost
                       (toggleMicrophone CONFIG grantingHost fileState)) = Demo.
Proof.
  assert (audioMode fileState <> Mic) as Hmode by (vm_compute; discriminate).
  assert (activateMicrophone CONFIG grantingHost (stopAudioSource fileState)
          = inr (toggleMicrophone CONFIG grantingHost fileState)) as Hok
    by (vm_compute; reflexivity).
  split; [exact Hmode|]. split; [exact Hok|].
  destruct (microphone_on_then_off CONFIG grantingHost denyingHost fileState _
              Hmode Hok)
    as (stream & source & Hgum & Hsrc & _ & _ & _ & _ & _ & Hdemo & _).
  exists stream, source. split; [exact Hgum|]. split; [exact Hsrc|]. exact Hdemo.
Defined.

Lemma length_append (a b : string) :
  String.length (a ++ b)%string = (String.length a + String.length b)%nat.
Proof. induction a as [|c a IH]; simpl; [reflexivity|]. rewrite IH. reflexivity. Qed.










(** What a file selection that does not raise leaves. *)
Lemma handleFileSelect_succeeds (cfg : Config) (h : FileHost) (name : string)
      (st : State) :
  (handleFileSelect cfg h (Some name) st).2 = None ->
  exists source,
    createMediaElementSource h = inr source
    /\ audioMode (handleFileSelect cfg h (Some name) st).1 = File
    /\ isPlaying (handleFileSelect cfg h (Some name) st).1 = false
    /\ micStream (handleFileSelect cfg h (Some name) st).1 = None
    /\ audioElement (handleFileSelect cfg h (Some name) st).1 = Some (newAudio h)
    /\ audioSource (handleFileSelect cfg h (Some name) st).1 = Some source
    /\ hostOps (handleFileSelect cfg h (Some name) st).1
       = hostOps st ++ releaseOps st ++ [SourceConnect source; AnalyserToDestination]
    /\ output (handleFileSelect cfg h (Some name) st).1
       = upperCase h (displayName name)
    /\ last (logs (handleFileSelect cfg h (Some name) st).1)
       = Some ("LOADED: " ++ name)%string.
Proof.
  unfold handleFileSelect.
  destruct (stopAudioSource_released st) as (Hmic & Hel & Hsrc & Hmode & _).
  destruct (stopAudioSource_frame st) as (_ & _ & _ & Hops).
  pose proof (initAudioContext_levels cfg (fileAudioContext h) (stopAudioSource st))
    as Hinit.
  destruct (initAudioContext cfg (fileAudioContext h) (stopAudioSource st))
    as [e|st1]; [discriminate|].
  destruct Hinit as (_ & Hmode1 & Hmic1 & Hel1 & Hsrc1 & Hops1).
  destruct (createMediaElementSource h) as [e|source]; [discriminate|].
  intros _. exists source. simpl.
  unfold stopAudioElement. rewrite Hel1, Hel. simpl.
  split; [reflexivity|]. split; [reflexivity|]. split; [reflexivity|].
  split; [congruence|]. split; [reflexivity|]. split; [reflexivity|].
  split; [|split; [reflexivity|apply last_snoc]].
  unfold hostCall. simpl. rewrite Hops1, Hops, <- !app_assoc. reflexivity.
Qed.

(** X20.  Selecting a file first releases whatever source was open (a
    running microphone is stopped), then loads the file without playing
    it: the state is left in file mode, not playing, holding the new
    element and its connected source, showing what the host's
    [toUpperCase] makes of the display name; cancelling the file dialog
    changes nothing. *)
Theorem file_selection_replaces_the_source (cfg : Config) (h : FileHost)
        (name : string) (st : State) :
  (handleFileSelect cfg h (Some name) st).2 = None ->
  handleFileSelect cfg h None st = (st, None)
  /\ audioMode (handleFileSelect cfg h (Some name) st).1 = File
  /\ isPlaying (handleFileSelect cfg h (Some name) st).1 = false
  /\ micStream (handleFileSelect cfg h (Some name) st).1 = None
  /\ audioElement (handleFileSelect cfg h (Some name) st).1 = Some (newAudio h)
  /\ activeSources (handleFileSelect cfg h (Some name) st).1 = 1%nat
  /\ (forall stream, micStream st = Some stream ->
        TrackStop stream ∈ hostOps (handleFileSelect cfg h (Some name) st).1)
  /\ (forall el, audioElement st = Some el ->
        ElementPause el ∈ hostOps (handleFileSelect cfg h (Some name) st).1)
  /\ (forall source, audioSource st = Some source ->
        SourceDisconnect source
          ∈ hostOps (handleFileSelect cfg h (Some name) st).1)
  /\ output (handleFileSelect cfg h (Some name) st).1
     = upperCase h (displayName name).
Proof.
  intros Hok.
  destruct (handleFileSelect_succeeds cfg h name st Hok)
    as (source & _ & Hmode & Hplay & Hmic & Hel & _ & Hops & Hout & _).
  split; [reflexivity|]. split; [exact Hmode|]. split; [exact Hplay|].
  split; [exact Hmic|]. split; [exact Hel|].
  split; [unfold activeSources; rewrite Hmic, Hel; reflexivity|].
  rewrite Hops, Hout.
  split; [|split; [|split; [|reflexivity]]].
  - intros stream Hs. apply elem_of_app. right. apply elem_of_app. left.
    unfold releaseOps. rewrite Hs. apply elem_of_app. left. apply list_elem_of_here.
  - intros el He. apply elem_of_app. right. apply elem_of_app. left.
    unfold releaseOps. rewrite He. apply elem_of_app. right.
    apply elem_of_app. left. apply list_elem_of_here.
  - intros src Hs. apply elem_of_app. right. apply elem_of_app. left.
    unfold releaseOps. rewrite Hs. apply elem_of_app. right.
    apply elem_of_app. right. apply list_elem_of_here.
Qed.

Lemma file_selection_replaces_the_source_witness :
  (handleFileSelect CONFIG fileHost (Some "a-long-recording-of-the-band.mp3"%string)
     micState).2 = None
  /\ TrackStop 1
       ∈ hostOps (handleFileSelect CONFIG fileHost
                    (Some "a-long-recording-of-the-band.mp3"%string) micState).1
  /\ output (handleFileSelect CONFIG fileHost
               (Some "a-long-recording-of-the-band.mp3"%string) micState).1
     = "A-LONG-RECORDING-..."%string.
Proof.
  assert ((handleFileSelect CONFIG fileHost
             (Some "a-long-recording-of-the-band.mp3"%string) micState).2 = None)
    as Hok by (vm_compute; reflexivity).
  split; [exact Hok|].
  destruct (file_selection_replaces_the_source CONFIG fileHost
              "a-long-recording-of-the-band.mp3"%string micState Hok)
    as (_ & _ & _ & _ & _ & _ & Hstop & _ & _ & Hout).
  split.
  - apply Hstop. vm_compute. reflexivity.
  - rewrite Hout. vm_compute. reflexivity.
Defined.

(** ** States reached from [init] *)

Lemma stopAudioSource_engine (st : State) :
  audioContext (stopAudioSource st) = audioContext st
  /\ analyser (stopAudioSource st) = analyser st
  /\ frequencyData (stopAudioSource st) = frequencyData st.
Proof.
  unfold stopAudioSource, stopMicStream, stopAudioElement, disconnectSource.
  destruct (micStream st) eqn:Em, (audioElement st) eqn:Ee,
    (audioSource st) eqn:Es; simpl;
    rewrite ?Em, ?Ee, ?Es; simpl; rewrite ?Em, ?Ee, ?Es; simpl;
    rewrite ?Em, ?Ee, ?Es; repeat split.
Qed.

Lemma engineCoherent_cases (st : State) :
  engineCoherent st <->
  (is_Some (audioContext st) /\ is_Some (analyser st) /\ is_Some (frequencyData st))
  \/ (audioContext st = None /\ analyser st = None /\ frequencyData st = None
      /\ audioMode st = Demo).
Proof.
  unfold engineCoherent. split.
  - intros (Hnone & Hsome & Hmode).
    destruct (audioContext st) as [ctx|] eqn:E.
    + left. split; [eauto|]. apply Hsome. eauto.
    + right. destruct (Hnone eq_refl) as [-> ->].
      repeat split.
      destruct (decide (audioMode st = Demo)) as [Hd|Hd]; [exact Hd|].
      destruct (Hmode Hd) as [ctx Hctx]. discriminate.
  - intros [(Hc & Ha & Hf)|(Hc & Ha & Hf & Hm)].
    + split; [|split].
      * intros Hn. destruct Hc as [ctx Hctx]. congruence.
      * intros _. split; assumption.
      * intros _. exact Hc.
    + split; [|split].
      * intros _. split; assumption.
      * intros [ctx Hctx]. congruence.
      * intros Hne. contradiction.
Qed.

Lemma initAudioContext_engine (cfg : Config) (ctor : string + AudioContext)
      (st : State) :
  engineCoherent st ->
  match initAudioContext cfg ctor st with
  | inl _ => True
  | inr st' =>
    is_Some (audioContext st') /\ is_Some (analyser st')
    /\ is_Some (frequencyData st') /\ isPlaying st' = isPlaying st
  end.
Proof.
  intros Hcoh. unfold initAudioContext.
  destruct (audioContext st) as [ctx|] eqn:E.
  - apply engineCoherent_cases in Hcoh.
    destruct Hcoh as [(Hc & Ha & Hf)|(Hc & _)]; [|congruence].
    split; [rewrite E; eauto|]. split; [exact Ha|]. split; [exact Hf|reflexivity].
  - destruct ctor as [err|ctx]; [exact I|]. simpl.
    split; [eauto|]. split; [eauto|]. split; [eauto|reflexivity].
Qed.

Lemma resumeContext_engine (st : State) :
  is_Some (audioContext st) ->
  is_Some (audioContext (resumeContext st))
  /\ analyser (resumeContext st) = analyser st
  /\ frequencyData (resumeContext st) = frequencyData st.
Proof.
  intros [ctx Hctx]. unfold resumeContext. rewrite Hctx. simpl.
  repeat split. eauto.
Qed.

(** The state [toggleMicrophone] leaves when it tries to activate. *)
Lemma toggleMicrophone_activation (cfg : Config) (mh : MicHost) (st : State) :
  audioMode st <> Mic ->
  engineCoherent st ->
  audioElement (toggleMicrophone cfg mh st) = None
  /\ isPlaying (toggleMicrophone cfg mh st) = false
  /\ engineCoherent (toggleMicrophone cfg mh st)
  /\ (audioMode (toggleMicrophone cfg mh st) = Demo
      \/ (audioMode (toggleMicrophone cfg mh st) = Mic
          /\ is_Some (micStream (toggleMicrophone cfg mh st))
          /\ is_Some (audioSource (toggleMicrophone cfg mh st)))).
Proof.
  intros Hmode Hcoh.
  unfold toggleMicrophone. rewrite bool_decide_eq_false_2 by exact Hmode.
  destruct (stopAudioSource_released st) as (Hmic & Hel & Hsrc & Hdemo & _).
  destruct (stopAudioSource_engine st) as (Hc & Ha & Hf).
  assert (isPlaying (stopAudioSource st) = false) as Hplay by reflexivity.
  assert (engineCoherent (stopAudioSource st)) as Hcoh0.
  { apply engineCoherent_cases. apply engineCoherent_cases in Hcoh.
    rewrite Hc, Ha, Hf, Hdemo.
    destruct Hcoh as [H|(H1 & H2 & H3 & _)]; [left; exact H | right; auto]. }
  unfold activateMicrophone.
  pose proof (initAudioContext_levels cfg (newAudioContext mh) (stopAudioSource st))
    as Hinit.
  pose proof (initAudioContext_engine cfg (newAudioContext mh) (stopAudioSource st)
                Hcoh0) as Heng.
  destruct (initAudioContext cfg (newAudioContext mh) (stopAudioSource st))
    as [e|st1].
  - simpl. split; [exact Hel|]. split; [exact Hplay|].
    split; [|left; exact Hdemo].
    apply engineCoherent_cases. apply engineCoherent_cases in Hcoh0. exact Hcoh0.
  - destruct Hinit as (_ & Hmode1 & Hmic1 & Hel1 & Hsrc1 & _).
    destruct Heng as (Hc1 & Ha1 & Hf1 & Hplay1).
    destruct (resumeContext_frame st1) as (Hm2 & _ & Hel2 & _ & Hplay2 & _).
    destruct (resumeContext_engine st1 Hc1) as (Hc2 & Ha2 & Hf2).
    assert (forall s : State,
              is_Some (audioContext s) -> is_Some (analyser s) ->
              is_Some (frequencyData s) -> engineCoherent s) as Hready.
    { intros s H1 H2 H3. apply engineCoherent_cases. left. auto. }
    destruct (isSuspended st1);
      [destruct (resume mh) as [e|]|];
      try (destruct (getUserMedia mh) as [e|stream]);
      try (destruct (createMediaStreamSource mh) as [e|source]);
      simpl;
      (split; [congruence|]); (split; [congruence|]);
      (split; [apply Hready; simpl; congruence|]);
      first [left; congruence | right; repeat split; eauto].
Qed.

Lemma stopMicrophone_fields (st : State) :
  audioMode (stopMicrophone st) = Demo
  /\ micStream (stopMicrophone st) = None
  /\ audioSource (stopMicrophone st) = None
  /\ audioElement (stopMicrophone st) = audioElement st
  /\ isPlaying (stopMicrophone st) = isPlaying st
  /\ audioContext (stopMicrophone st) = audioContext st
  /\ analyser (stopMicrophone st) = analyser st
  /\ frequencyData (stopMicrophone st) = frequencyData st.
Proof.
  unfold stopMicrophone, stopMicStream, disconnectSource.
  destruct (micStream st) eqn:Em, (audioSource st) eqn:Es; simpl;
    rewrite ?Em, ?Es; simpl; rewrite ?Em, ?Es; repeat split.
Qed.

(** The state [handleFileSelect] leaves when a file was chosen. *)
Lemma handleFileSelect_selection (cfg : Config) (h : FileHost) (name : string)
      (st : State) :
  engineCoherent st ->
  micStream (handleFileSelect cfg h (Some name) st).1 = None
  /\ isPlaying (handleFileSelect cfg h (Some name) st).1 = false
  /\ engineCoherent (handleFileSelect cfg h (Some name) st).1
  /\ (audioMode (handleFileSelect cfg h (Some name) st).1 = Demo
      \/ (audioMode (handleFileSelect cfg h (Some name) st).1 = File
          /\ is_Some (audioElement (handleFileSelect cfg h (Some name) st).1)
          /\ is_Some (audioSource (handleFileSelect cfg h (Some name) st).1))).
Proof.
  intros Hcoh. unfold handleFileSelect.
  destruct (stopAudioSource_released st) as (Hmic & Hel & Hsrc & Hdemo & _).
  destruct (stopAudioSource_engine st) as (Hc & Ha & Hf).
  assert (isPlaying (stopAudioSource st) = false) as Hplay by reflexivity.
  assert (engineCoherent (stopAudioSource st)) as Hcoh0.
  { apply engineCoherent_cases. apply engineCoherent_cases in Hcoh.
    rewrite Hc, Ha, Hf, Hdemo.
    destruct Hcoh as [H|(H1 & H2 & H3 & _)]; [left; exact H | right; auto]. }
  pose proof (initAudioContext_levels cfg (fileAudioContext h) (stopAudioSource st))
    as Hinit.
  pose proof (initAudioContext_engine cfg (fileAudioContext h) (stopAudioSource st)
                Hcoh0) as Heng.
  destruct (initAudioContext cfg (fileAudioContext h) (stopAudioSource st))
    as [e|st1].
  - simpl. split; [exact Hmic|]. split; [exact Hplay|].
    split; [exact Hcoh0|left; exact Hdemo].
  - destruct Hinit as (_ & Hmode1 & Hmic1 & Hel1 & Hsrc1 & _).
    destruct Heng as (Hc1 & Ha1 & Hf1 & Hplay1).
    assert (stopAudioElement st1 = st1) as Hsame
      by (unfold stopAudioElement; rewrite Hel1, Hel; reflexivity).
    rewrite Hsame.
    assert (forall s : State,
              is_Some (audioContext s) -> is_Some (analyser s) ->
              is_Some (frequencyData s) -> engineCoherent s) as Hready.
    { intros s H1 H2 H3. apply engineCoherent_cases. left. auto. }
    destruct (createMediaElementSource h) as [e|source]; simpl;
      (split; [congruence|]); (split; [congruence|]);
      (split; [apply Hready; simpl; assumption|]);
      first [left; congruence | right; repeat split; eauto].
Qed.

Lemma togglePlayPause_fields (resumed : option string) (st : State) :
  audioMode (togglePlayPause resumed st).1.1 = audioMode st
  /\ micStream (togglePlayPause resumed st).1.1 = micStream st
  /\ audioElement (togglePlayPause resumed st).1.1 = audioElement st
  /\ audioSource (togglePlayPause resumed st).1.1 = audioSource st
  /\ (isPlaying (togglePlayPause resumed st).1.1 = true ->
      isPlaying st = true \/ is_Some (audioElement st))
  /\ (audioContext (togglePlayPause resumed st).1.1 = None <-> audioContext st = None)
  /\ analyser (togglePlayPause resumed st).1.1 = analyser st
  /\ frequencyData (togglePlayPause resumed st).1.1 = frequencyData st
  /\ smoothedLevels (togglePlayPause resumed st).1.1 = smoothedLevels st
  /\ peakLevels (togglePlayPause resumed st).1.1 = peakLevels st
  /\ peakHoldTimes (togglePlayPause resumed st).1.1 = peakHoldTimes st
  /\ segments (togglePlayPause resumed st).1.1 = segments st.
Proof.
  unfold togglePlayPause.
  destruct (audioElement st) as [el|] eqn:Eel;
    [|simpl; rewrite ?Eel; repeat split; auto].
  unfold isSuspended, resumeContext.
  destruct (audioContext st) as [ctx|] eqn:Ectx;
    [destruct (suspended ctx) eqn:Esusp; [destruct resumed as [err|]|]|];
    simpl; rewrite ?Ectx, ?Esusp; simpl;
    try (destruct (isPlaying st) eqn:Eplay); simpl;
    rewrite ?Eel, ?Ectx, ?Eplay;
    repeat split; eauto; discriminate.
Qed.

Lemma sourcesKept_refl (st : State) : sourcesKept st st.
Proof. unfold sourcesKept. tauto. Qed.

Lemma sourcesKept_trans (a b c : State) :
  sourcesKept a b -> sourcesKept b c -> sourcesKept a c.
Proof.
  unfold sourcesKept.
  intros (H1 & H2 & H3 & H4 & H5 & H6 & H7 & H8)
         (K1 & K2 & K3 & K4 & K5 & K6 & K7 & K8).
  rewrite K1, K2, K3, K4, K5, K6, K7, K8. tauto.
Qed.

Lemma getEQLevels_sources (h : Host) (cfg : Config) (t : Q) (snapshot : list Z)
      (st : State) :
  sourcesKept st (getEQLevels h cfg t snapshot st).2.
Proof.
  destruct (getEQLevels_frame h cfg t snapshot st) as (Hu & _ & _).
  destruct Hu as (_ & _ & _ & _ & Hc & Ha & Hs & He & Hm & Hmode & Hp & _).
  unfold sourcesKept. repeat (split; [assumption|]).
  unfold getEQLevels. unfold liveData.
  case_bool_decide as Hdemo.
  - assert (frequencyData
              (for_range (eqBarCount cfg) (demoBand h cfg t)
                 (replicate (eqBarCount cfg) 0, st)).2 = frequencyData st) as ->;
      [|tauto].
    apply (for_range_inv (fun _ acc => frequencyData acc.2 = frequencyData st));
      [reflexivity|].
    intros i acc _ IH.
    destruct (demoBand_frame h cfg t i acc) as (_ & _ & _ & Hf & _). congruence.
  - destruct (analyser st) as [an|].
    + destruct (frequencyData st) as [array|] eqn:Efd.
      * assert (frequencyData
                  (for_range (eqBarCount cfg)
                     (liveBand cfg (getByteFrequencyData snapshot array))
                     (replicate (eqBarCount cfg) 0,
                      with_frequencyData
                        (Some (getByteFrequencyData snapshot array)) st)).2
                = Some (getByteFrequencyData snapshot array)) as ->;
          [|split; discriminate].
        apply (for_range_inv
                 (fun _ acc => frequencyData acc.2
                               = Some (getByteFrequencyData snapshot array)));
          [reflexivity|].
        intros i acc _ IH.
        destruct (liveBand_frame cfg (getByteFrequencyData snapshot array) i acc)
          as (_ & _ & _ & Hf & _). congruence.
      * assert (frequencyData
                  (for_range (eqBarCount cfg) (demoBand h cfg t)
                     (replicate (eqBarCount cfg) 0, st)).2 = frequencyData st) as ->;
          [|rewrite Efd; tauto].
        apply (for_range_inv (fun _ acc => frequencyData acc.2 = frequencyData st));
          [reflexivity|].
        intros i acc _ IH.
        destruct (demoBand_frame h cfg t i acc) as (_ & _ & _ & Hf & _). congruence.
    + assert (frequencyData
                (for_range (eqBarCount cfg) (demoBand h cfg t)
                   (replicate (eqBarCount cfg) 0, st)).2 = frequencyData st) as ->;
        [|tauto].
      apply (for_range_inv (fun _ acc => frequencyData acc.2 = frequencyData st));
        [reflexivity|].
      intros i acc _ IH.
      destruct (demoBand_frame h cfg t i acc) as (_ & _ & _ & Hf & _). congruence.
Qed.

Lemma updateBar_sources (cfg : Config) (t : Q) (levels : list Q) (k : nat)
      (acc : State * list DomOp) :
  sourcesKept acc.1 (updateBar cfg t levels k acc).1.
Proof. destruct acc as [st ops]. unfold sourcesKept. simpl. tauto. Qed.

(** A frame, drawn or skipped, keeps the sources and the engine. *)
Lemma updateEQBars_sources (h : Host) (cfg : Config) (t : Q) (snapshot : list Z)
      (st : State) :
  sourcesKept st (updateEQBars h cfg t snapshot st).1.
Proof.
  destruct (Qlt_le_dec (t - lastEqUpdate st) (eqUpdateInterval cfg)) as [Hlt|Hacc].
  - rewrite updateEQBars_throttled
      by (intros Hacc; exact (Qlt_not_le _ _ Hlt Hacc)).
    unfold sourcesKept. simpl. tauto.
  - rewrite (updateEQBars_accepted h cfg t snapshot st Hacc).
    cbn [fst].
    apply (sourcesKept_trans _
             (for_range (eqBarCount cfg)
                (updateBar cfg t
                   (getEQLevels h cfg t snapshot (with_lastEqUpdate t st)).1)
                ((getEQLevels h cfg t snapshot (with_lastEqUpdate t st)).2, [])).1);
      [|unfold sourcesKept; simpl; tauto].
    apply (sourcesKept_trans _
             (getEQLevels h cfg t snapshot (with_lastEqUpdate t st)).2).
    + apply (sourcesKept_trans _ (with_lastEqUpdate t st));
        [unfold sourcesKept; simpl; tauto|apply getEQLevels_sources].
    + apply (for_range_inv
               (fun _ acc =>
                  sourcesKept
                    (getEQLevels h cfg t snapshot (with_lastEqUpdate t st)).2
                    acc.1)); [apply sourcesKept_refl|].
      intros i acc _ IH.
      exact (sourcesKept_trans _ _ _ IH (updateBar_sources cfg t _ i acc)).
Qed.

Lemma shaped_arrays (cfg : Config) (st st' : State) :
  smoothedLevels st' = smoothedLevels st ->
  peakLevels st' = peakLevels st ->
  peakHoldTimes st' = peakHoldTimes st ->
  segments st' = segments st ->
  shaped cfg st -> shaped cfg st'.
Proof. unfold shaped. intros -> -> -> ->. tauto. Qed.

Lemma handleFileSelect_shaped (cfg : Config) (h : FileHost) (file : option string)
      (st : State) :
  shaped cfg st -> shaped cfg (handleFileSelect cfg h file st).1.
Proof.
  intros Hst. unfold handleFileSelect. destruct file as [name|]; [|exact Hst].
  pose proof (stopAudioSource_shaped cfg st Hst) as H0.
  destruct (initAudioContext cfg (fileAudioContext h) (stopAudioSource st))
    as [e|st1] eqn:E; [exact H0|].
  pose proof (initAudioContext_shaped cfg _ _ _ H0 E) as H1.
  assert (shaped cfg (stopAudioElement st1)) as H2.
  { unfold stopAudioElement. destruct (audioElement st1); exact H1. }
  destruct (createMediaElementSource h) as [e|source]; exact H2.
Qed.

Lemma modeCoherent_kept (st st' : State) :
  sourcesKept st st' -> modeCoherent st -> modeCoherent st'.
Proof.
  unfold sourcesKept, modeCoherent, playingHasElement, activeSources.
  intros (-> & -> & -> & -> & -> & _). tauto.
Qed.

Lemma engineCoherent_kept (st st' : State) :
  sourcesKept st st' -> engineCoherent st -> engineCoherent st'.
Proof.
  intros (Hm & _ & _ & _ & _ & Hc & Ha & Hf) Hcoh.
  apply engineCoherent_cases. apply engineCoherent_cases in Hcoh.
  rewrite Hm, Hc, Ha.
  destruct Hcoh as [(H1 & H2 & H3)|(H1 & H2 & H3 & H4)].
  - left. split; [exact H1|]. split; [exact H2|].
    destruct (frequencyData st') eqn:E; [eauto|].
    destruct Hf as [Hf _]. rewrite (Hf eq_refl) in H3.
    destruct H3 as [x Hx]. discriminate.
  - right. repeat split; try assumption. apply Hf. exact H3.
Qed.

(** Every handler keeps the invariant. *)
Lemma handle_coherent (cfg : Config) (e : Event) (st : State) :
  coherent cfg st -> coherent cfg (handle cfg e st).
Proof.
  intros (Hshape & Hmode & Heng).
  destruct e as [h t snapshot|mh|fh file|resumed| | | | |text|message]; simpl.
  - (* a frame *)
    pose proof (updateEQBars_sources h cfg t snapshot st) as Hk.
    split; [apply updateEQBars_shaped; exact Hshape|].
    split; [exact (modeCoherent_kept _ _ Hk Hmode)
           |exact (engineCoherent_kept _ _ Hk Heng)].
  - (* the microphone button *)
    split; [apply toggleMicrophone_shaped; exact Hshape|].
    destruct (decide (audioMode st = Mic)) as [Hmic|Hmic].
    + unfold toggleMicrophone. rewrite bool_decide_eq_true_2 by exact Hmic.
      destruct (stopMicrophone_fields st)
        as (Hd & Hs & Hsrc & Hel & Hp & Hc & Ha & Hf).
      destruct Hmode as (Hm1 & _ & _ & Hplay).
      destruct (Hm1 Hmic) as (_ & _ & Hnone).
      split.
      * unfold modeCoherent, playingHasElement, activeSources.
        rewrite Hd, Hs, Hel, Hp, Hnone.
        split; [discriminate|]. split; [discriminate|]. split; [simpl; lia|].
        intros Htrue. apply Hplay in Htrue. rewrite Hnone in Htrue. exact Htrue.
      * apply engineCoherent_cases. apply engineCoherent_cases in Heng.
        rewrite Hc, Ha, Hf, Hd.
        destruct Heng as [H|(H1 & H2 & H3 & _)]; [left; exact H|right; auto].
    + destruct (toggleMicrophone_activation cfg mh st Hmic Heng)
        as (Hel & Hp & Heng' & Hcases).
      split; [|exact Heng'].
      unfold modeCoherent, playingHasElement.
      split; [|split; [|split]].
      * intros Hm. destruct Hcases as [Hd|(_ & H1 & H2)]; [congruence|auto].
      * intros Hm. destruct Hcases as [Hd|(Hd & _)]; congruence.
      * apply activeSources_le_1. exact Hel.
      * rewrite Hp. discriminate.
  - (* a file is chosen *)
    split; [apply handleFileSelect_shaped; exact Hshape|].
    destruct file as [name|]; [|split; assumption].
    destruct (handleFileSelect_selection cfg fh name st Heng)
      as (Hs & Hp & Heng' & Hcases).
    split; [|exact Heng'].
    unfold modeCoherent, playingHasElement, activeSources.
    rewrite Hs, Hp.
    split; [|split; [|split]].
    * intros Hm. destruct Hcases as [Hd|(Hd & _)]; congruence.
    * intros Hm. destruct Hcases as [Hd|(_ & H1 & H2)]; [congruence|auto].
    * destruct (audioElement _); simpl; lia.
    * discriminate.
  - (* the play button *)
    destruct (togglePlayPause_fields resumed st)
      as (Hm & Hs & Hel & Hsrc & Hp & Hc & Ha & Hf & Hsm & Hpk & Hh & Hsg).
    split; [exact (shaped_arrays cfg _ _ Hsm Hpk Hh Hsg Hshape)|].
    split.
    + destruct Hmode as (Hm1 & Hm2 & Hone & Hplay).
      unfold modeCoherent, playingHasElement, activeSources in *.
      rewrite Hm, Hs, Hel, Hsrc.
      split; [exact Hm1|]. split; [exact Hm2|]. split; [exact Hone|].
      intros Htrue. destruct (Hp Htrue) as [H|H]; auto.
    + apply engineCoherent_cases. apply engineCoherent_cases in Heng.
      rewrite Hm, Ha, Hf.
      destruct Heng as [(H1 & H2 & H3)|(H1 & H2 & H3 & H4)].
      * left. split; [|auto].
        destruct (audioContext (togglePlayPause resumed st).1.1) eqn:E; [eauto|].
        destruct Hc as [Hc _]. rewrite (Hc eq_refl) in H1.
        destruct H1 as [x Hx]. discriminate.
      * right. repeat split; try assumption. apply Hc. exact H1.
  - (* playback reaches the end *)
    split; [exact Hshape|]. split; [|exact Heng].
    destruct Hmode as (Hm1 & Hm2 & Hone & _).
    unfold modeCoherent, playingHasElement, audioEnded. simpl.
    split; [exact Hm1|]. split; [exact Hm2|]. split; [exact Hone|discriminate].
  - (* stopAudioSource *)
    split; [apply stopAudioSource_shaped; exact Hshape|].
    destruct (stopAudioSource_released st) as (Hs & Hel & Hsrc & Hd & Hzero).
    destruct (stopAudioSource_engine st) as (Hc & Ha & Hf).
    assert (isPlaying (stopAudioSource st) = false) as Hp by reflexivity.
    split.
    + unfold modeCoherent, playingHasElement.
      rewrite Hd, Hp, Hzero.
      split; [discriminate|]. split; [discriminate|]. split; [lia|discriminate].
    + apply engineCoherent_cases. apply engineCoherent_cases in Heng.
      rewrite Hc, Ha, Hf, Hd.
      destruct Heng as [H|(H1 & H2 & H3 & _)]; [left; exact H|right; auto].
  - (* startEQAnimation *)
    unfold startEQAnimation. destruct (eqAnimationId st);
      split; try assumption; split; assumption.
  - (* stopEQAnimation *)
    unfold stopEQAnimation. destruct (eqAnimationId st);
      split; try assumption; split; assumption.
  - (* setOutput *)
    split; [exact Hshape|]. split; [exact Hmode|exact Heng].
  - (* addLog *)
    split; [exact Hshape|]. split; [exact Hmode|exact Heng].
Qed.

Lemma init_coherent (cfg : Config) : coherent cfg (init cfg).
Proof.
  split; [apply init_shaped|].
  assert (sourcesKept state0 (init cfg)) as Hk.
  { unfold init.
    apply (sourcesKept_trans _ (buildEQBars cfg state0));
      [|unfold sourcesKept; simpl; tauto].
    unfold buildEQBars.
    apply (for_range_inv (fun _ acc => sourcesKept state0 acc));
      [unfold sourcesKept; simpl; tauto|].
    intros i acc _ IH. apply (sourcesKept_trans _ _ _ IH).
    unfold sourcesKept. simpl. tauto. }
  assert (modeCoherent state0) as Hm.
  { unfold modeCoherent, playingHasElement, activeSources. simpl.
    split; [discriminate|]. split; [discriminate|]. split; [lia|discriminate]. }
  assert (engineCoherent state0) as He.
  { apply engineCoherent_cases. right. simpl. auto. }
  split; [exact (modeCoherent_kept _ _ Hk Hm)|exact (engineCoherent_kept _ _ Hk He)].
Qed.

Lemma run_snoc (cfg : Config) (events : list Event) (e : Event) :
  run cfg (events ++ [e]) = handle cfg e (run cfg events).
Proof. unfold run. rewrite foldl_app. reflexivity. Qed.

Lemma run_coherent (cfg : Config) (events : list Event) :
  coherent cfg (run cfg events).
Proof.
  induction events as [|e events IH] using rev_ind.
  - apply init_coherent.
  - rewrite run_snoc. apply handle_coherent. exact IH.
Qed.

(** X21.  Along every sequence of events after [init], each handler
    running to its end before the next: at most one input source is
    open; in microphone mode the stream and its source node are held and
    no audio element is; in file mode the audio element and its source
    node are held and no stream is; and the playing flag is only set
    while an audio element is loaded. *)
Theorem sources_and_mode_agree_along_every_run (cfg : Config)
        (events : list Event) :
  modeCoherent (run cfg events).
Proof. destruct (run_coherent cfg events) as (_ & H & _). exact H. Qed.

(** X22.  Along every sequence of events after [init], a frame reads
    the analyser exactly when the mode is not the demo mode: the checks
    of [state.analyser] and [state.frequencyData] in [getEQLevels] never
    fail once a source is active. *)
Theorem spectrum_is_read_iff_a_source_is_active (cfg : Config)
        (events : list Event) :
  liveData (run cfg events) = None <-> audioMode (run cfg events) = Demo.
Proof.
  destruct (run_coherent cfg events) as (_ & _ & Heng).
  split; [|apply liveData_demo].
  intros Hnone.
  destruct (decide (audioMode (run cfg events) = Demo)) as [Hd|Hd]; [exact Hd|].
  exfalso. destruct Heng as (_ & Hsome & Hmode).
  destruct (Hsome (Hmode Hd)) as ([an Han] & [fd Hfd]).
  unfold liveData in Hnone.
  rewrite bool_decide_eq_false_2, Han, Hfd in Hnone by exact Hd. discriminate.
Qed.

(** X23.  Along every sequence of events after [init], the smoothed
    levels, the peak levels, the hold times and the segment grid keep
    one entry per bar, and every bar keeps [eqSegmentCount] segments. *)
Theorem arrays_keep_their_shape_along_every_run (cfg : Config)
        (events : list Event) :
  shaped cfg (run cfg events).
Proof. destruct (run_coherent cfg events) as (H & _). exact H. Qed.

(** X24.  With an audio element loaded and no failure of
    [audioContext.resume], [togglePlayPause] flips the playing flag,
    makes exactly one call on the element ([pause] if it was playing,
    [play] otherwise), leaves the context running, and a second click
    restores the flag. *)
Theorem play_pause_toggles_playback (resumed again : option string)
        (st : State) (el : nat) :
  audioElement st = Some el ->
  (isSuspended st = true -> resumed = None) ->
  isPlaying (togglePlayPause resumed st).1.1 = negb (isPlaying st)
  /\ (togglePlayPause resumed st).1.2
     = [if isPlaying st then ElementPauseCall el else ElementPlayCall el]
  /\ (togglePlayPause resumed st).2 = None
  /\ isSuspended (togglePlayPause resumed st).1.1 = false
  /\ isPlaying (togglePlayPause again (togglePlayPause resumed st).1.1).1.1
     = isPlaying st.
Proof.
  intros Hel Hres.
  assert (forall r s,
            audioElement s = Some el -> (isSuspended s = true -> r = None) ->
            isPlaying (togglePlayPause r s).1.1 = negb (isPlaying s)
            /\ (togglePlayPause r s).1.2
               = [if isPlaying s then ElementPauseCall el else ElementPlayCall el]
            /\ (togglePlayPause r s).2 = None
            /\ isSuspended (togglePlayPause r s).1.1 = false
            /\ audioElement (togglePlayPause r s).1.1 = Some el) as Hone.
  { intros r s Hs Hr. unfold togglePlayPause. rewrite Hs.
    unfold isSuspended in *. unfold resumeContext.
    destruct (audioContext s) as [ctx|] eqn:Ectx.
    - destruct (suspended ctx) eqn:Esusp.
      + rewrite (Hr eq_refl). simpl.
        destruct (isPlaying s) eqn:Eplay; simpl; rewrite ?Hs; repeat split.
      + destruct (isPlaying s) eqn:Eplay; simpl; rewrite ?Ectx, ?Esusp, ?Hs;
          repeat split.
    - destruct (isPlaying s) eqn:Eplay; simpl; rewrite ?Ectx, ?Hs; repeat split. }
  destruct (Hone resumed st Hel Hres) as (H1 & H2 & H3 & H4 & H5).
  repeat (split; [assumption|]).
  destruct (Hone again (togglePlayPause resumed st).1.1 H5) as (K1 & _).
  { rewrite H4. discriminate. }
  rewrite K1, H1. apply negb_involutive.
Qed.

Lemma play_pause_toggles_playback_witness :
  isPlaying (togglePlayPause None fileState).1.1 = negb (isPlaying fileState)
  /\ (togglePlayPause None fileState).1.2
     = [if isPlaying fileState then ElementPauseCall 3 else ElementPlayCall 3]
  /\ (togglePlayPause None fileState).2 = None
  /\ isSuspended (togglePlayPause None fileState).1.1 = false
  /\ isPlaying (togglePlayPause None (togglePlayPause None fileState).1.1).1.1
     = isPlaying fileState.
Proof.
  assert (audioElement fileState = Some 3%nat) as H1 by (vm_compute; reflexivity).
  assert (isSuspended fileState = true -> @None string = None) as H2
      by (intros _; reflexivity).
  exact (play_pause_toggles_playback None None fileState 3 H1 H2).
Defined.

(** [toggleMicrophone] is its first part followed, if the handler is
    still waiting, by its second part. *)
Lemma toggleMicrophone_split (cfg : Config) (h : MicHost) (st : State) :
  toggleMicrophone cfg h st
  = match toggleMicrophoneBegin cfg h st with
    | inl st' => st'
    | inr pending => toggleMicrophoneResume h pending
    end.
Proof.
  unfold toggleMicrophone, toggleMicrophoneBegin, toggleMicrophoneResume,
    activateMicrophone.
  case_bool_decide; [reflexivity|].
  destruct (initAudioContext cfg (newAudioContext h) (stopAudioSource st))
    as [err|st1]; [reflexivity|].
  destruct (isSuspended st1); [destruct (resume h) as [err|]|];
    try reflexivity;
    destruct (getUserMedia h) as [err|stream]; try reflexivity;
    destruct (createMediaStreamSource h) as [err|source]; reflexivity.
Qed.

(** The state in which [toggleMicrophone] waits holds no source. *)
Lemma toggleMicrophoneBegin_pending (cfg : Config) (h : MicHost)
      (st pending : State) :
  toggleMicrophoneBegin cfg h st = inr pending ->
  micStream pending = None /\ audioElement pending = None
  /\ audioSource pending = None /\ audioMode pending = Demo
  /\ isPlaying pending = false
  /\ is_Some (audioContext pending).
Proof.
  unfold toggleMicrophoneBegin. case_bool_decide; [discriminate|].
  destruct (stopAudioSource_released st) as (Hmic & Hel & Hsrc & Hdemo & _).
  pose proof (initAudioContext_levels cfg (newAudioContext h) (stopAudioSource st))
    as Hinit.
  assert (match initAudioContext cfg (newAudioContext h) (stopAudioSource st) with
          | inl _ => True
          | inr st' => is_Some (audioContext st') /\ isPlaying st' = false
          end) as Hctx.
  { unfold initAudioContext.
    destruct (audioContext (stopAudioSource st)) eqn:E; [rewrite E; eauto|].
    destruct (newAudioContext h); [exact I|simpl; eauto]. }
  destruct (initAudioContext cfg (newAudioContext h) (stopAudioSource st))
    as [err|st1]; [discriminate|].
  destruct Hinit as (_ & Hm1 & Hs1 & He1 & Hsrc1 & _).
  destruct Hctx as [Hctx Hplay].
  destruct (resumeContext_frame st1) as (Hm2 & Hs2 & He2 & Hsrc2 & Hplay2 & _).
  assert (is_Some (audioContext (resumeContext st1))) as Hctx2.
  { unfold resumeContext. destruct (audioContext st1) eqn:E; [simpl; eauto|].
    rewrite E. exact Hctx. }
  destruct (isSuspended st1); [destruct (resume h) as [err|]|];
    try discriminate; intros Heq; injection Heq as <-;
    repeat split; try congruence; assumption.
Qed.

(** X25.  If a file is chosen while [toggleMicrophone] waits for
    [getUserMedia], and the microphone is then granted, both sources end
    up open: the mode is the microphone mode, the audio element is still
    loaded, and its source node, connected by [handleFileSelect], is
    never disconnected. *)
Theorem file_chosen_while_microphone_is_pending (cfg : Config) (mh : MicHost)
        (fh : FileHost) (name : string) (st pending : State)
        (stream source fileSource : nat) :
  toggleMicrophoneBegin cfg mh st = inr pending ->
  getUserMedia mh = inr stream ->
  createMediaStreamSource mh = inr source ->
  createMediaElementSource fh = inr fileSource ->
  audioMode (toggleMicrophoneResume mh
               (handleFileSelect cfg fh (Some name) pending).1) = Mic
  /\ micStream (toggleMicrophoneResume mh
                  (handleFileSelect cfg fh (Some name) pending).1) = Some stream
  /\ audioElement (toggleMicrophoneResume mh
                     (handleFileSelect cfg fh (Some name) pending).1)
     = Some (newAudio fh)
  /\ audioSource (toggleMicrophoneResume mh
                    (handleFileSelect cfg fh (Some name) pending).1) = Some source
  /\ activeSources (toggleMicrophoneResume mh
                      (handleFileSelect cfg fh (Some name) pending).1) = 2%nat
  /\ hostOps (toggleMicrophoneResume mh
                (handleFileSelect cfg fh (Some name) pending).1)
     = hostOps pending
       ++ [SourceConnect fileSource; AnalyserToDestination; SourceConnect source].
Proof.
  intros Hbegin Hmedia Hsource Hfile.
  destruct (toggleMicrophoneBegin_pending cfg mh st pending Hbegin)
    as (Hmic & Hel & Hsrc & Hdemo & Hplay & [ctx Hctx]).
  assert (stopAudioSource pending = pending) as Hstop.
  { unfold stopAudioSource, stopMicStream, stopAudioElement, disconnectSource.
    rewrite Hmic. simpl. rewrite Hel. simpl. rewrite Hsrc.
    destruct pending. simpl in *. subst. reflexivity. }
  unfold toggleMicrophoneResume, handleFileSelect.
  rewrite Hstop, Hmedia, Hsource, Hfile.
  unfold initAudioContext. rewrite Hctx.
  unfold stopAudioElement. rewrite Hel.
  unfold activeSources. simpl.
  rewrite <- !app_assoc. simpl. repeat split.
Qed.

Lemma file_chosen_while_microphone_is_pending_witness :
  audioMode (toggleMicrophoneResume grantingHost
               (handleFileSelect CONFIG fileHost (Some "song.mp3"%string)
                  pendingState).1) = Mic
  /\ micStream (toggleMicrophoneResume grantingHost
                  (handleFileSelect CONFIG fileHost (Some "song.mp3"%string)
                     pendingState).1) = Some 1%nat
  /\ audioElement (toggleMicrophoneResume grantingHost
                     (handleFileSelect CONFIG fileHost (Some "song.mp3"%string)
                        pendingState).1)
     = Some (newAudio fileHost)
  /\ audioSource (toggleMicrophoneResume grantingHost
                    (handleFileSelect CONFIG fileHost (Some "song.mp3"%string)
                       pendingState).1) = Some 2%nat
  /\ activeSources (toggleMicrophoneResume grantingHost
                      (handleFileSelect CONFIG fileHost (Some "song.mp3"%string)
                         pendingState).1) = 2%nat
  /\ hostOps (toggleMicrophoneResume grantingHost
                (handleFileSelect CONFIG fileHost (Some "song.mp3"%string)
                   pendingState).1)
     = hostOps pendingState
       ++ [SourceConnect 4; AnalyserToDestination; SourceConnect 2].
Proof.
  assert (toggleMicrophoneBegin CONFIG grantingHost (init CONFIG)
          = inr pendingState) as H1.
  { vm_compute. reflexivity. }
  exact (file_chosen_while_microphone_is_pending CONFIG grantingHost fileHost
           "song.mp3" (init CONFIG) pendingState 1 2 4
           H1 eq_refl eq_refl eq_refl).
Defined.

Lemma toggleMicrophoneBegin_hostOps (cfg : Config) (h : MicHost)
      (st pending : State) :
  toggleMicrophoneBegin cfg h st = inr pending ->
  audioMode st <> Mic /\ hostOps pending = hostOps st ++ releaseOps st.
Proof.
  unfold toggleMicrophoneBegin. case_bool_decide as Hmode; [discriminate|].
  destruct (stopAudioSource_frame st) as (_ & _ & _ & Hops).
  pose proof (initAudioContext_levels cfg (newAudioContext h) (stopAudioSource st))
    as Hinit.
  destruct (initAudioContext cfg (newAudioContext h) (stopAudioSource st))
    as [e|st1]; [discriminate|].
  destruct Hinit as (_ & _ & _ & _ & _ & Hops1).
  destruct (resumeContext_frame st1) as (_ & _ & _ & _ & _ & Hops2 & _).
  destruct (isSuspended st1); [destruct (resume h) as [e|]|];
    try discriminate; intros Heq; injection Heq as <-;
    (split; [exact Hmode|congruence]).
Qed.

(** What the rest of [toggleMicrophone] does when the request is
    rejected, or when the granted stream cannot be connected: the
    [catch] block writes the log and the output and nothing else. *)
Lemma toggleMicrophoneResume_fails (h : MicHost) (err : string) (st : State) :
  (getUserMedia h = inl err -> toggleMicrophoneResume h st = micError err st)
  /\ (forall stream,
        getUserMedia h = inr stream ->
        createMediaStreamSource h = inl err ->
        toggleMicrophoneResume h st
        = micError err (with_micStream (Some stream) st)).
Proof.
  unfold toggleMicrophoneResume. split.
  - intros ->. reflexivity.
  - intros stream -> ->. reflexivity.
Qed.

(** An exception raised in [handleFileSelect] is written neither to the
    log nor to the output display. *)
Lemma handleFileSelect_raises (cfg : Config) (h : FileHost) (name err : string)
      (st : State) :
  (handleFileSelect cfg h (Some name) st).2 = Some err ->
  output (handleFileSelect cfg h (Some name) st).1 = output st
  /\ (forall m, m ∈ logs (handleFileSelect cfg h (Some name) st).1 ->
        m ∈ logs st \/ m = "AUDIO ENGINE INITIALIZED"%string).
Proof.
  unfold handleFileSelect.
  assert (output (stopAudioSource st) = output st
          /\ logs (stopAudioSource st) = logs st) as [Hout Hlogs].
  { unfold stopAudioSource, stopMicStream, stopAudioElement, disconnectSource.
    destruct (micStream st) eqn:Em, (audioElement st) eqn:Ee,
      (audioSource st) eqn:Es; simpl;
      rewrite ?Em, ?Ee, ?Es; simpl; rewrite ?Em, ?Ee, ?Es; simpl;
      rewrite ?Em, ?Ee, ?Es; split; reflexivity. }
  revert Hout Hlogs. generalize (stopAudioSource st). intros s0 Hout Hlogs.
  assert (match initAudioContext cfg (fileAudioContext h) s0 with
          | inl _ => True
          | inr st1 =>
            output st1 = output s0
            /\ (logs st1 = logs s0
                \/ logs st1 = logs s0 ++ ["AUDIO ENGINE INITIALIZED"%string])
          end) as Hinit.
  { unfold initAudioContext. destruct (audioContext s0); [auto|].
    destruct (fileAudioContext h); [exact I|]. simpl. auto. }
  destruct (initAudioContext cfg (fileAudioContext h) s0) as [e|st1].
  - intros _. simpl. rewrite Hout, Hlogs. auto.
  - destruct Hinit as [Hout1 Hlogs1].
    assert (output (stopAudioElement st1) = output st1
            /\ logs (stopAudioElement st1) = logs st1) as [Hout2 Hlogs2]
      by (unfold stopAudioElement; destruct (audioElement st1); split; reflexivity).
    revert Hout2 Hlogs2. generalize (stopAudioElement st1). intros s2 Hout2 Hlogs2.
    destruct (createMediaElementSource h) as [e|source]; [|discriminate].
    intros _. simpl. rewrite Hout2, Hout1, Hout, Hlogs2.
    split; [reflexivity|]. intros m Hm.
    destruct Hlogs1 as [Hsame|Hmore].
    + left. rewrite <- Hlogs, <- Hsame. exact Hm.
    + rewrite Hmore, Hlogs in Hm. apply elem_of_app in Hm.
      destruct Hm as [Hm|Hm]; [left; exact Hm|].
      right. apply list_elem_of_singleton in Hm. exact Hm.
Qed.

(** C9.  The code breaks the claim.  [toggleMicrophone] releases the
    previous source and then waits for [getUserMedia]; its [catch] block
    only writes the log and the output.  If a file is chosen while it
    waits and the activation then fails (the request is rejected, or the
    granted stream cannot be connected), the mode stays the file mode
    instead of the demo mode, with the audio element and its source
    still held and nothing released; when the stream had been granted,
    it stays open beside the audio element, two sources at once.  Even
    with no file chosen in between, a granted stream that cannot be
    connected stays open in the demo mode: nothing stops it.  And an
    exception raised in [handleFileSelect], which has no [catch] block,
    is written neither to the log nor to the output display. *)
Theorem failed_microphone_activation_after_file_choice
        (cfg : Config) (mh : MicHost) (fh : FileHost) (name err : string)
        (st pending : State) (fileSource : nat) :
  toggleMicrophoneBegin cfg mh st = inr pending ->
  createMediaElementSource fh = inr fileSource ->
  (getUserMedia mh = inl err
   \/ exists stream,
        getUserMedia mh = inr stream /\ createMediaStreamSource mh = inl err) ->
  audioMode (toggleMicrophoneResume mh
               (handleFileSelect cfg fh (Some name) pending).1) = File
  /\ audioElement (toggleMicrophoneResume mh
                     (handleFileSelect cfg fh (Some name) pending).1)
     = Some (newAudio fh)
  /\ audioSource (toggleMicrophoneResume mh
                    (handleFileSelect cfg fh (Some name) pending).1)
     = Some fileSource
  /\ output (toggleMicrophoneResume mh
               (handleFileSelect cfg fh (Some name) pending).1)
     = "MIC ACCESS DENIED"%string
  /\ last (logs (toggleMicrophoneResume mh
                   (handleFileSelect cfg fh (Some name) pending).1))
     = Some ("MIC ERROR: " ++ err)%string
  /\ hostOps (toggleMicrophoneResume mh
                (handleFileSelect cfg fh (Some name) pending).1)
     = hostOps pending ++ [SourceConnect fileSource; AnalyserToDestination]
  /\ (forall stream,
        getUserMedia mh = inr stream ->
        micStream (toggleMicrophoneResume mh
                     (handleFileSelect cfg fh (Some name) pending).1)
        = Some stream
        /\ activeSources (toggleMicrophoneResume mh
                            (handleFileSelect cfg fh (Some name) pending).1)
           = 2%nat
        /\ micStream (toggleMicrophone cfg mh st) = Some stream
        /\ audioMode (toggleMicrophone cfg mh st) = Demo
        /\ hostOps (toggleMicrophone cfg mh st) = hostOps st ++ releaseOps st)
  /\ (forall (fh' : FileHost) (name' err' : string) (s : State),
        (handleFileSelect cfg fh' (Some name') s).2 = Some err' ->
        output (handleFileSelect cfg fh' (Some name') s).1 = output s
        /\ (forall m, m ∈ logs (handleFileSelect cfg fh' (Some name') s).1 ->
              m ∈ logs s \/ m = "AUDIO ENGINE INITIALIZED"%string)).
Proof.
  intros Hbegin Hfile Hfail.
  destruct (toggleMicrophoneBegin_pending cfg mh st pending Hbegin)
    as (Hmic & Hel & Hsrc & Hdemo & Hplay & [ctx Hctx]).
  destruct (toggleMicrophoneBegin_hostOps cfg mh st pending Hbegin)
    as (Hmode & Hops).
  assert ((handleFileSelect cfg fh (Some name) pending).2 = None) as Hok.
  { unfold handleFileSelect, initAudioContext.
    assert (audioContext (stopAudioSource pending) = Some ctx) as ->
      by (destruct (stopAudioSource_engine pending) as (-> & _); exact Hctx).
    rewrite Hfile. reflexivity. }
  destruct (handleFileSelect_succeeds cfg fh name pending Hok)
    as (source & Hsource & Hm1 & _ & Hs1 & He1 & Hsrc1 & Hops1 & _).
  assert (source = fileSource) as -> by congruence.
  assert (releaseOps pending = []) as Hnone
    by (unfold releaseOps; rewrite Hmic, Hel, Hsrc; reflexivity).
  rewrite Hnone, app_nil_l in Hops1.
  revert Hm1 Hs1 He1 Hsrc1 Hops1.
  generalize (handleFileSelect cfg fh (Some name) pending).1.
  intros loaded Hm1 Hs1 He1 Hsrc1 Hops1.
  destruct (toggleMicrophoneResume_fails mh err loaded) as [Hdenied Hbroken].
  destruct (toggleMicrophoneResume_fails mh err pending) as [_ Hbroken0].
  assert (exists s, toggleMicrophoneResume mh loaded = micError err s
                    /\ audioMode s = File
                    /\ audioElement s = Some (newAudio fh)
                    /\ audioSource s = Some fileSource
                    /\ hostOps s
                       = hostOps pending
                         ++ [SourceConnect fileSource; AnalyserToDestination]
                    /\ (forall stream, getUserMedia mh = inr stream ->
                          micStream s = Some stream)) as (s & Hres & A1 & A2 & A3 & A4 & A5).
  { destruct Hfail as [Hd|(stream & Hg & Hc)].
    - exists loaded. split; [exact (Hdenied Hd)|].
      split; [exact Hm1|]. split; [exact He1|]. split; [exact Hsrc1|].
      split; [exact Hops1|]. intros stream Hg. congruence.
    - exists (with_micStream (Some stream) loaded).
      split; [exact (Hbroken stream Hg Hc)|].
      split; [exact Hm1|]. split; [exact He1|]. split; [exact Hsrc1|].
      split; [exact Hops1|]. intros stream' Hg'.
      simpl. congruence. }
  rewrite Hres.
  destruct (micError_frame err s) as (B1 & B2 & B3 & B4 & B5 & B6 & B7).
  split; [congruence|]. split; [congruence|]. split; [congruence|].
  split; [exact B6|]. split; [exact B7|]. split; [congruence|].
  split; [|intros fh' name' err' s'; apply handleFileSelect_raises].
  intros stream Hg.
  destruct Hfail as [Hd|(stream' & Hg' & Hc)]; [congruence|].
  assert (stream' = stream) as -> by congruence.
  split; [rewrite B2; exact (A5 stream Hg)|].
  split; [unfold activeSources; rewrite B2, B3, (A5 stream Hg), A2; reflexivity|].
  rewrite toggleMicrophone_split, Hbegin, (Hbroken0 stream Hg Hc).
  destruct (micError_frame err (with_micStream (Some stream) pending))
    as (C1 & C2 & _ & _ & C5 & _).
  split; [rewrite C2; reflexivity|].
  split; [rewrite C1; exact Hdemo|].
  rewrite C5. exact Hops.
Qed.

Lemma failed_microphone_activation_after_file_choice_witness :
  toggleMicrophoneBegin CONFIG denyingHost (init CONFIG) = inr pendingState
  /\ audioMode (toggleMicrophoneResume denyingHost
                  (handleFileSelect CONFIG fileHost (Some "song.mp3"%string)
                     pendingState).1) = File
  /\ output (toggleMicrophoneResume denyingHost
               (handleFileSelect CONFIG fileHost (Some "song.mp3"%string)
                  pendingState).1) = "MIC ACCESS DENIED"%string
  /\ toggleMicrophoneBegin CONFIG brokenSourceHost (init CONFIG) = inr pendingState
  /\ activeSources (toggleMicrophoneResume brokenSourceHost
                      (handleFileSelect CONFIG fileHost (Some "song.mp3"%string)
                         pendingState).1) = 2%nat
  /\ micStream (toggleMicrophone CONFIG brokenSourceHost (init CONFIG))
     = Some 1%nat
  /\ audioMode (toggleMicrophone CONFIG brokenSourceHost (init CONFIG)) = Demo
  /\ (handleFileSelect CONFIG brokenFileHost (Some "song.mp3"%string)
        (init CONFIG)).2 = Some "InvalidStateError"%string
  /\ output (handleFileSelect CONFIG brokenFileHost (Some "song.mp3"%string)
               (init CONFIG)).1 = output (init CONFIG).
Proof.
  assert (toggleMicrophoneBegin CONFIG denyingHost (init CONFIG)
          = inr pendingState) as D1 by (vm_compute; reflexivity).
  assert (getUserMedia denyingHost = inl "Permission denied"%string
          \/ exists stream,
               getUserMedia denyingHost = inr stream
               /\ createMediaStreamSource denyingHost
                  = inl "Permission denied"%string) as D3
    by (left; reflexivity).
  destruct (failed_microphone_activation_after_file_choice CONFIG denyingHost
              fileHost "song.mp3" "Permission denied" (init CONFIG) pendingState 4
              D1 eq_refl D3)
    as (Dmode & _ & _ & Dout & _).
  assert (toggleMicrophoneBegin CONFIG brokenSourceHost (init CONFIG)
          = inr pendingState) as H1 by (vm_compute; reflexivity).
  assert (getUserMedia brokenSourceHost = inl "InvalidStateError"%string
          \/ exists stream,
               getUserMedia brokenSourceHost = inr stream
               /\ createMediaStreamSource brokenSourceHost
                  = inl "InvalidStateError"%string) as H3
    by (right; exists 1%nat; split; reflexivity).
  destruct (failed_microphone_activation_after_file_choice CONFIG brokenSourceHost
              fileHost "song.mp3" "InvalidStateError" (init CONFIG) pendingState 4
              H1 eq_refl H3)
    as (_ & _ & _ & _ & _ & _ & Hstream & Hfile).
  destruct (Hstream 1%nat eq_refl) as (_ & Htwo & Hopen & Hdemo & _).
  assert ((handleFileSelect CONFIG brokenFileHost (Some "song.mp3"%string)
             (init CONFIG)).2 = Some "InvalidStateError"%string) as F1
    by (vm_compute; reflexivity).
  destruct (Hfile brokenFileHost "song.mp3"%string "InvalidStateError"%string
              (init CONFIG) F1) as [Fout _].
  split; [exact D1|]. split; [exact Dmode|]. split; [exact Dout|].
  split; [exact H1|]. split; [exact Htwo|]. split; [exact Hopen|].
  split; [exact Hdemo|]. split; [exact F1|exact Fout].
Defined.

(** ** The log *)

Lemma updateEQBars_logs (h : Host) (cfg : Config) (t : Q) (snapshot : list Z)
      (st : State) :
  logs (updateEQBars h cfg t snapshot st).1 = logs st.
Proof.
  destruct (Qlt_le_dec (t - lastEqUpdate st) (eqUpdateInterval cfg)) as [Hlt|Hacc].
  - rewrite updateEQBars_throttled
      by (intros Hacc; exact (Qlt_not_le _ _ Hlt Hacc)).
    reflexivity.
  - rewrite (updateEQBars_accepted h cfg t snapshot st Hacc). cbn [fst].
    destruct (getEQLevels_frame h cfg t snapshot (with_lastEqUpdate t st))
      as ((_ & Hl & _) & _ & _).
    change (logs (for_range (eqBarCount cfg)
                    (updateBar cfg t
                       (getEQLevels h cfg t snapshot (with_lastEqUpdate t st)).1)
                    ((getEQLevels h cfg t snapshot (with_lastEqUpdate t st)).2,
                     [])).1 = logs st).
    apply (for_range_inv (fun _ acc => logs acc.1 = logs st)); [exact Hl|].
    intros i [s ops] _ IH. exact IH.
Qed.

Lemma stopMicrophone_logs (st : State) :
  logs (stopMicrophone st) = logs st ++ ["MICROPHONE DISCONNECTED"%string].
Proof.
  unfold stopMicrophone, stopMicStream, disconnectSource.
  destruct (micStream st) eqn:Em, (audioSource st) eqn:Es; simpl;
    rewrite ?Em, ?Es; simpl; rewrite ?Em, ?Es; reflexivity.
Qed.

Lemma initAudioContext_logs (cfg : Config) (ctor : string + AudioContext)
      (st st' : State) :
  initAudioContext cfg ctor st = inr st' -> logs st `prefix_of` logs st'.
Proof.
  unfold initAudioContext. destruct (audioContext st).
  - intros E. injection E as <-. reflexivity.
  - destruct ctor as [err|ctx]; [discriminate|].
    intros E. injection E as <-. simpl. prefix_solve.
Qed.

Lemma toggleMicrophoneResume_logs (h : MicHost) (st : State) :
  logs st `prefix_of` logs (toggleMicrophoneResume h st).
Proof.
  unfold toggleMicrophoneResume, micError.
  destruct (getUserMedia h) as [err|stream];
    [|destruct (createMediaStreamSource h) as [err|source]];
    simpl; prefix_solve.
Qed.

Lemma toggleMicrophone_logs (cfg : Config) (h : MicHost) (st : State) :
  logs st `prefix_of` logs (toggleMicrophone cfg h st).
Proof.
  rewrite toggleMicrophone_split. unfold toggleMicrophoneBegin.
  case_bool_decide; [rewrite stopMicrophone_logs; prefix_solve|].
  destruct (stopAudioSource_frame st) as (_ & _ & Hl & _).
  pose proof (initAudioContext_logs cfg (newAudioContext h) (stopAudioSource st))
    as Hinit.
  revert Hl Hinit. generalize (stopAudioSource st). intros s0 Hl Hinit.
  destruct (initAudioContext cfg (newAudioContext h) s0) as [err|st1].
  - unfold micError. simpl. rewrite Hl. prefix_solve.
  - specialize (Hinit st1 eq_refl). rewrite Hl in Hinit.
    destruct (resumeContext_frame st1) as (_ & _ & _ & _ & _ & _ & Hl2 & _).
    destruct (isSuspended st1); [destruct (resume h) as [err|]|].
    + unfold micError. simpl. etrans; [exact Hinit|prefix_solve].
    + etrans; [exact Hinit|]. rewrite <- Hl2. apply toggleMicrophoneResume_logs.
    + etrans; [exact Hinit|]. apply toggleMicrophoneResume_logs.
Qed.

Lemma handleFileSelect_logs (cfg : Config) (h : FileHost) (file : option string)
      (st : State) :
  logs st `prefix_of` logs (handleFileSelect cfg h file st).1.
Proof.
  unfold handleFileSelect. destruct file as [name|]; [|reflexivity].
  destruct (stopAudioSource_frame st) as (_ & _ & Hl & _).
  pose proof (initAudioContext_logs cfg (fileAudioContext h) (stopAudioSource st))
    as Hinit.
  revert Hl Hinit. generalize (stopAudioSource st). intros s0 Hl Hinit.
  destruct (initAudioContext cfg (fileAudioContext h) s0)
    as [err|st1]; [simpl; rewrite Hl; reflexivity|].
  specialize (Hinit st1 eq_refl). rewrite Hl in Hinit.
  assert (logs (stopAudioElement st1) = logs st1) as Hl1.
  { unfold stopAudioElement. destruct (audioElement st1); reflexivity. }
  revert Hl1. generalize (stopAudioElement st1). intros s1 Hl1.
  destruct (createMediaElementSource h) as [err|source]; simpl;
    rewrite Hl1; (etrans; [exact Hinit|prefix_solve]).
Qed.

Lemma togglePlayPause_logs (resumed : option string) (st : State) :
  logs st `prefix_of` logs (togglePlayPause resumed st).1.1.
Proof.
  unfold togglePlayPause.
  destruct (audioElement st) as [el|]; [|reflexivity].
  destruct (resumeContext_frame st) as (_ & _ & _ & _ & Hp & _ & Hl & _).
  destruct (isSuspended st); [destruct resumed as [err|]|];
    try reflexivity.
  - revert Hl. generalize (resumeContext st). intros s1 Hl.
    destruct (isPlaying s1); simpl; rewrite Hl; prefix_solve.
  - destruct (isPlaying st); simpl; prefix_solve.
Qed.

(** No handler removes or rewrites a log entry. *)
Lemma handle_logs (cfg : Config) (e : Event) (st : State) :
  logs st `prefix_of` logs (handle cfg e st).
Proof.
  destruct e as [h t snapshot|mh|fh file|resumed| | | | |text|message];
    cbn [handle].
  - rewrite updateEQBars_logs. reflexivity.
  - apply toggleMicrophone_logs.
  - apply handleFileSelect_logs.
  - apply togglePlayPause_logs.
  - unfold audioEnded. simpl. prefix_solve.
  - destruct (stopAudioSource_frame st) as (_ & _ & -> & _). reflexivity.
  - unfold startEQAnimation. destruct (eqAnimationId st); reflexivity.
  - unfold stopEQAnimation. destruct (eqAnimationId st); reflexivity.
  - reflexivity.
  - unfold addLog. simpl. prefix_solve.
Qed.

(** X26.  The log is append-only: along any sequence of events, the log
    reached earlier is a prefix of the log reached later, and it always
    starts with the two entries of the initial state. *)
Theorem log_is_append_only (cfg : Config) (events more : list Event) :
  logs (run cfg events) `prefix_of` logs (run cfg (events ++ more))
  /\ ["SYSTEM INITIALIZED"; "AWAITING INPUT..."]%string
     `prefix_of` logs (run cfg events).
Proof.
  assert (forall evs rest,
            logs (run cfg evs) `prefix_of` logs (run cfg (evs ++ rest))) as Hgrow.
  { intros evs rest. induction rest as [|e rest IH] using rev_ind.
    - rewrite app_nil_r. reflexivity.
    - rewrite app_assoc, run_snoc. etrans; [exact IH|apply handle_logs]. }
  split; [apply Hgrow|].
  assert (logs (run cfg []) = ["SYSTEM INITIALIZED"; "AWAITING INPUT..."]%string)
    as <-.
  { unfold run. simpl. unfold init.
    change (logs (buildEQBars cfg state0) = logs state0).
    unfold buildEQBars.
    apply (for_range_inv (fun _ acc => logs acc = logs state0)); [reflexivity|].
    intros i acc _ IH. exact IH. }
  exact (Hgrow [] events).
Qed.

Lemma ofNat_lt (i j : nat) : (i < j)%nat -> ofNat i < ofNat j.
Proof. intros H. unfold ofNat. rewrite <- Zlt_Qlt. lia. Qed.

Lemma logOpacity_bounds (i total : nat) :
  (i < total)%nat -> 0.6 <= logOpacity i total /\ logOpacity i total < 1.
Proof.
  intros Hlt. unfold logOpacity.
  pose proof (ofNat_nonneg i) as Hi.
  pose proof (ofNat_lt i total Hlt) as Hit.
  assert (0 < ofNat total) as Hpos by (eapply Qle_lt_trans; eassumption).
  assert (0 <= ofNat i / ofNat total) as H0
      by (apply Qle_shift_div_l; [exact Hpos|lra]).
  assert (ofNat i / ofNat total < 1) as H1
      by (apply Qlt_shift_div_r; [exact Hpos|lra]).
  set (x := ofNat i / ofNat total) in *. clearbody x. lra.
Qed.

Lemma logOpacity_mono (i j total : nat) :
  (i < j)%nat -> (0 < total)%nat -> logOpacity i total < logOpacity j total.
Proof.
  intros Hij Htot. unfold logOpacity.
  pose proof (ofNat_lt i j Hij) as Hlt.
  pose proof (ofNat_lt 0 total Htot) as Hpos.
  change (ofNat 0) with 0 in Hpos.
  assert (ofNat i / ofNat total < ofNat j / ofNat total) as Hdiv.
  { unfold Qdiv. apply Qmult_lt_r; [apply Qinv_lt_0_compat; exact Hpos|exact Hlt]. }
  set (x := ofNat i / ofNat total) in *.
  set (y := ofNat j / ofNat total) in *. clearbody x y. lra.
Qed.

(** X27.  [renderLogs] draws the entries in the order of the log, every
    entry with an opacity of at least 0.6 and below 1, and a later entry
    is always more opaque than an earlier one. *)
Theorem rendered_log_fades_towards_the_top (logs : list string) (i j : nat)
        (e1 e2 : string * Q) :
  renderLogs logs !! i = Some e1 ->
  renderLogs logs !! j = Some e2 ->
  (i < j)%nat ->
  logs !! i = Some e1.1 /\ logs !! j = Some e2.1
  /\ 0.6 <= e1.2 /\ e1.2 < e2.2 /\ e2.2 < 1.
Proof.
  unfold renderLogs. rewrite !list_lookup_imap.
  intros H1 H2 Hij.
  destruct (logs !! i) as [l1|] eqn:E1; [|discriminate].
  destruct (logs !! j) as [l2|] eqn:E2; [|discriminate].
  simpl in H1, H2. injection H1 as <-. injection H2 as <-. simpl.
  pose proof (lookup_lt_Some _ _ _ E1) as Hi.
  pose proof (lookup_lt_Some _ _ _ E2) as Hj.
  split; [reflexivity|]. split; [reflexivity|].
  split; [apply logOpacity_bounds; exact Hi|].
  split; [apply logOpacity_mono; [exact Hij|lia]|].
  apply logOpacity_bounds; exact Hj.
Qed.

Lemma rendered_log_fades_towards_the_top_witness :
  ["SYSTEM INITIALIZED"; "AWAITING INPUT..."]%string !! 0%nat
  = Some "SYSTEM INITIALIZED"%string
  /\ ["SYSTEM INITIALIZED"; "AWAITING INPUT..."]%string !! 1%nat
     = Some "AWAITING INPUT..."%string
  /\ 0.6 <= 0.6 + (ofNat 0 / ofNat 2) * 0.4
  /\ 0.6 + (ofNat 0 / ofNat 2) * 0.4 < 0.6 + (ofNat 1 / ofNat 2) * 0.4
  /\ 0.6 + (ofNat 1 / ofNat 2) * 0.4 < 1.
Proof.
  exact (rendered_log_fades_towards_the_top
           ["SYSTEM INITIALIZED"; "AWAITING INPUT..."]%string 0 1
           ("SYSTEM INITIALIZED"%string, 0.6 + (ofNat 0 / ofNat 2) * 0.4)
           ("AWAITING INPUT..."%string, 0.6 + (ofNat 1 / ofNat 2) * 0.4)
           eq_refl eq_refl (le_n 1)).
Defined.

(** ** The terminal *)

Lemma pad2_length (n : Z) :
  (0 <= n < 100)%Z -> String.length (padStart 2 "0" (toString n)) = 2%nat.
Proof.
  intros Hn.
  assert (forallb (fun k => Nat.eqb (String.length (padStart 2 "0" (toString k))) 2)
            (seqZ 0 100) = true) as Hall by (vm_compute; reflexivity).
  rewrite forallb_forall in Hall.
  apply Nat.eqb_eq, Hall, list_elem_of_In, elem_of_seqZ. lia.
Qed.

(** X28.  For an elapsed time that is not negative, the three numbers
    [updateUptime] prints are hours, minutes below 60 and seconds below
    60 that add up to the elapsed seconds; below one hundred hours the
    text has the eight characters of HH:MM:SS. *)
Theorem uptime_fields_recompose (elapsed : Z) :
  (0 <= elapsed)%Z ->
  (0 <= (uptimeParts elapsed).1.1)%Z
  /\ (0 <= (uptimeParts elapsed).1.2 < 60)%Z
  /\ (0 <= (uptimeParts elapsed).2 < 60)%Z
  /\ ((uptimeParts elapsed).1.1 * 3600 + (uptimeParts elapsed).1.2 * 60
      + (uptimeParts elapsed).2 = elapsed)%Z
  /\ ((elapsed < 360000)%Z -> String.length (uptimeText elapsed) = 8%nat).
Proof.
  intros Hpos. unfold uptimeText, uptimeParts. cbn [fst snd].
  rewrite !Z.rem_mod_nonneg by lia.
  assert (0 <= elapsed / 3600)%Z as Hh by (apply Z.div_pos; lia).
  assert (0 <= elapsed mod 3600 / 60 < 60)%Z as Hm.
  { pose proof (Z.mod_pos_bound elapsed 3600 ltac:(lia)).
    split; [apply Z.div_pos; lia|apply Z.div_lt_upper_bound; lia]. }
  assert (0 <= elapsed mod 60 < 60)%Z as Hs by (apply Z.mod_pos_bound; lia).
  split; [exact Hh|]. split; [exact Hm|]. split; [exact Hs|].
  split.
  - clear Hh Hm Hs. Z.div_mod_to_equations. lia.
  - intros Hlt.
    assert (elapsed / 3600 < 100)%Z as Hh' by (apply Z.div_lt_upper_bound; lia).
    rewrite !length_append.
    rewrite !pad2_length by lia. reflexivity.
Qed.

Lemma uptime_fields_recompose_witness :
  (0 <= (uptimeParts 3725).1.1)%Z
  /\ (0 <= (uptimeParts 3725).1.2 < 60)%Z
  /\ (0 <= (uptimeParts 3725).2 < 60)%Z
  /\ ((uptimeParts 3725).1.1 * 3600 + (uptimeParts 3725).1.2 * 60
      + (uptimeParts 3725).2 = 3725)%Z
  /\ ((3725 < 360000)%Z -> String.length (uptimeText 3725) = 8%nat).
Proof. apply (uptime_fields_recompose 3725). lia. Defined.

Lemma switchMode_coherent (now : Z) (mode : string) (tm : Terminal) :
  terminalCoherent tm -> terminalCoherent (switchMode now mode tm).
Proof.
  intros [Hiff Hlive]. unfold switchMode.
  destruct (String.eqb_spec (currentMode tm) mode) as [Hsame|Hdiff];
    [split; assumption|].
  destruct (String.eqb_spec mode "terminal") as [Hterm|Hother].
  - assert (uptimeIntervalId tm = None) as Hnone.
    { destruct (uptimeIntervalId tm) eqn:E; [|reflexivity].
      exfalso. apply Hdiff. rewrite Hterm. apply Hiff. eauto. }
    rewrite Hnone in Hlive.
    unfold startUptimeCounter, updateUptime, terminalCoherent.
    cbn [uptimeIntervalId currentMode timerOps intervalsCreated].
    rewrite Hnone. cbn [uptimeIntervalId currentMode timerOps].
    split; [split; [intros _; exact Hterm|eauto]|].
    unfold liveIntervals in *. rewrite foldl_app, Hlive. reflexivity.
  - unfold stopUptimeCounter, terminalCoherent.
    cbn [uptimeIntervalId currentMode timerOps].
    destruct (uptimeIntervalId tm) as [id|] eqn:E;
      cbn [uptimeIntervalId currentMode timerOps]; rewrite ?E.
    + split.
      * split; [intros [x Hx]; discriminate|intros Hm; contradiction].
      * unfold liveIntervals in *. rewrite foldl_app, Hlive. simpl.
        rewrite filter_cons_False by (intros Hne; apply Hne; reflexivity).
        reflexivity.
    + split; [|exact Hlive].
      split; [intros [x Hx]; discriminate|intros Hm; contradiction].
Qed.

(** X29.  Along every sequence of [switchMode] calls and interval ticks
    after [initTerminal], the uptime interval is set exactly while the
    mode is the terminal mode, and the intervals set and not yet cleared
    are this one interval or none: no interval is leaked. *)
Theorem uptime_interval_runs_only_in_terminal_mode (start : Z)
        (events : list TerminalEvent) :
  terminalCoherent (runTerminal start events).
Proof.
  induction events as [|e events IH] using rev_ind.
  - split; [|reflexivity]. simpl.
    split; [intros [x Hx]; discriminate|discriminate].
  - unfold runTerminal in *. rewrite foldl_app. simpl.
    destruct e as [now mode|now]; simpl.
    + apply switchMode_coherent. exact IH.
    + exact IH.
Qed.

(** ** The React component *)

Lemma tickLevel_range (h : Host) (now draw : Q) (i : nat) :
  0.1 <= tickLevel h now draw i <= 1.
Proof.
  unfold tickLevel. cbv zeta.
  set (x := sin h (now / 300 + ofNat i * 0.5) * 0.3 + 0.5 + draw * 0.3).
  split; [apply Q.le_max_l|].
  apply Q.max_lub; [Qclosed|apply Q.le_min_l].
Qed.

(** X30.  In the React component every level the interval callback
    computes lies in [0.1, 1], whatever [Math.sin], [Math.random] and the
    clock return; [EQBar] then lights between 1 and 12 segments, from the
    bottom, and marks exactly the top lit one as the peak. *)
Theorem react_bar_lights_one_to_twelve_segments (h : Host) (clock : nat -> Q)
        (calls : nat) (prev : list Q) (i : nat) (level : Q) :
  tickBars h clock calls prev !! i = Some level ->
  0.1 <= level <= 1
  /\ (1 <= litSegments level <= 12)%Z
  /\ length (tickBars h clock calls prev) = length prev
  /\ length (eqBarView level) = 12%nat
  /\ (forall j seg, eqBarView level !! j = Some seg ->
        (seg.1.1 = true <-> (Z.of_nat j < litSegments level)%Z)
        /\ (seg.1.2 = true <-> Z.of_nat j = (litSegments level - 1)%Z)
        /\ (seg.2 = if seg.1.1 then Some (zoneColor j) else None)).
Proof.
  unfold tickBars. rewrite list_lookup_imap. intros Hlook.
  destruct (prev !! i) as [p|]; [|discriminate].
  simpl in Hlook. injection Hlook as <-.
  pose proof (tickLevel_range h (clock i) (random h (calls + i)) i) as [Hlo Hhi].
  set (level := tickLevel h (clock i) (random h (calls + i)) i) in *. clearbody level.
  split; [split; assumption|].
  split.
  { unfold litSegments. split.
    - apply (Z.le_trans _ (Qfloor 1.2)); [discriminate|].
      apply Qfloor_resp_le. lra.
    - apply (Z.le_trans _ (Qfloor 12)); [|discriminate].
      apply Qfloor_resp_le. lra. }
  split; [apply length_imap|].
  split; [reflexivity|].
  intros j seg Hseg. unfold eqBarView in Hseg.
  rewrite list_lookup_fmap in Hseg.
  destruct (seq 0 12 !! j) as [k|] eqn:Ek; [|discriminate].
  apply lookup_seq in Ek. destruct Ek as [-> _].
  simpl in Hseg. injection Hseg as <-. cbn [fst snd].
  split; [apply Z.ltb_lt|]. split; [|reflexivity].
  rewrite andb_true_iff, Z.eqb_eq, Z.ltb_lt. lia.
Qed.

Lemma react_bar_lights_one_to_twelve_segments_witness :
  0.1 <= tickLevel (flatHost 0.5) 0 0.5 0 <= 1
  /\ (1 <= litSegments (tickLevel (flatHost 0.5) 0 0.5 0) <= 12)%Z
  /\ length (tickBars (flatHost 0.5) (fun _ => 0) 0 (replicate 16 0))
     = length (replicate 16 0)
  /\ length (eqBarView (tickLevel (flatHost 0.5) 0 0.5 0)) = 12%nat
  /\ (forall j seg,
        eqBarView (tickLevel (flatHost 0.5) 0 0.5 0) !! j = Some seg ->
        (seg.1.1 = true
         <-> (Z.of_nat j
              < litSegments (tickLevel (flatHost 0.5) 0 0.5 0))%Z)
        /\ (seg.1.2 = true
            <-> Z.of_nat j
                = (litSegments (tickLevel (flatHost 0.5) 0 0.5 0) - 1)%Z)
        /\ (seg.2 = if seg.1.1 then Some (zoneColor j) else None)).
Proof.
  assert (tickBars (flatHost 0.5) (fun _ => 0) 0 (replicate 16 0) !! 0%nat
          = Some (tickLevel (flatHost 0.5) 0 0.5 0)) as H
      by reflexivity.
  exact (react_bar_lights_one_to_twelve_segments (flatHost 0.5) (fun _ => 0) 0
           (replicate 16 0) 0 _ H).
Defined.
